(** * The item layer of the slab storage engine (src/storage/slab/bb_item.c)

    A shallow embedding of the item lifecycle: allocation from the slab
    allocator, linkage into the hash index, reference counting, lazy
    expiration and the data-plane operations [item_get], [item_set],
    [item_cas], [item_annex], [item_update] and [item_delete].

    C pointers to items are addresses ([Z]); the slab memory that holds the
    items is a finite map from addresses to item records.  Every function of
    bb_item.c becomes a computation in a state-and-failure monad over the
    module's globals ([cas_id], [table], the metrics) and the slab memory;
    failure ([None]) stands for undefined behaviour of the C program
    (dereferencing an address that holds no item, a copy that leaves the
    chunk). *)

From Stdlib Require Import ZArith List Lia Bool.
From Stdlib.Strings Require Import Byte.
From stdpp Require Import base option list gmap.

Open Scope Z_scope.

(** ** Machine integers *)

Definition UINT8_MAX : Z := 255.
Definition UINT16_MAX : Z := 65535.
Definition UINT32_MAX : Z := 4294967295.
Definition UINT64_MAX : Z := 18446744073709551615.

Definition wrap8 (z : Z) : Z := z mod 2 ^ 8.
Definition wrap16 (z : Z) : Z := z mod 2 ^ 16.
Definition wrap32 (z : Z) : Z := z mod 2 ^ 32.
Definition wrap64 (z : Z) : Z := z mod 2 ^ 64.

(** ** Bytes and chunk memory *)

#[global] Instance byte_eq_dec : EqDecision byte := Byte.byte_eq_dec.

(** [struct bstring]: [data] is the list, [len] its length. *)
Definition blen (b : list byte) : Z := Z.of_nat (length b).

Definition byte_of_Z (z : Z) : byte :=
  match Byte.of_N (Z.to_N z) with
  | Some b => b
  | None => x00
  end.

Definition Z_of_byte (b : byte) : Z := Z.of_N (Byte.to_N b).

(** A [uint64_t] stored in memory, least significant byte first. *)
Fixpoint encode_le (n : nat) (z : Z) : list byte :=
  match n with
  | O => []
  | S n' => byte_of_Z (z mod 256) :: encode_le n' (z / 256)
  end.

Fixpoint decode_le (bs : list byte) : Z :=
  match bs with
  | [] => 0
  | b :: bs' => Z_of_byte b + 256 * decode_le bs'
  end.

(** Reading [len] bytes at index [off] of a byte array; out of range is
    undefined. *)
Definition mem_read (off len : Z) (m : list byte) : option (list byte) :=
  if decide (0 <= off ∧ 0 <= len ∧ off + len <= blen m)
  then Some (take (Z.to_nat len) (drop (Z.to_nat off) m))
  else None.

(** Overwriting the bytes at index [off] with [bs]; out of range is
    undefined. *)
Definition mem_write (off : Z) (bs m : list byte) : option (list byte) :=
  if decide (0 <= off ∧ off + blen bs <= blen m)
  then Some (take (Z.to_nat off) m ++ bs ++ drop (Z.to_nat off + length bs) m)
  else None.

(** ** Items *)

Inductive val_type := V_STR | V_INT.

Inductive item_rstatus_t :=
  | ITEM_OK
  | ITEM_ENOTFOUND
  | ITEM_EOVERSIZED
  | ITEM_ENOMEM
  | ITEM_EOTHER.

#[global] Instance item_rstatus_eq_dec : EqDecision item_rstatus_t.
Proof. solve_decision. Defined.

(** [struct item].  The header fields are record fields; [end_] holds the
    bytes of the chunk from [it->end] to the end of the chunk, so that the
    byte at [(char * )it + o] is [end_] at index [o - ITEM_HDR_SIZE].
    Modelled from the spec: the declaration of the struct (bb_item.h) is
    not part of the sources; the field widths are [klen] u8, [vlen] u32,
    [refcount] u16 (printed with PRIu16), [id] u8, [offset] u32. *)
Record item := mk_item {
  offset : Z;
  id : Z;
  refcount : Z;
  is_linked : bool;
  has_cas : bool;
  in_freeq : bool;
  is_raligned : bool;
  klen : Z;
  vlen : Z;
  exptime : Z;
  vtype : val_type;
  end_ : list byte
}.

Definition set_refcount (v : Z) (it : item) : item :=
  mk_item (offset it) (id it) v (is_linked it) (has_cas it) (in_freeq it)
          (is_raligned it) (klen it) (vlen it) (exptime it) (vtype it) (end_ it).
Definition set_is_linked (v : bool) (it : item) : item :=
  mk_item (offset it) (id it) (refcount it) v (has_cas it) (in_freeq it)
          (is_raligned it) (klen it) (vlen it) (exptime it) (vtype it) (end_ it).
Definition set_has_cas (v : bool) (it : item) : item :=
  mk_item (offset it) (id it) (refcount it) (is_linked it) v (in_freeq it)
          (is_raligned it) (klen it) (vlen it) (exptime it) (vtype it) (end_ it).
Definition set_in_freeq (v : bool) (it : item) : item :=
  mk_item (offset it) (id it) (refcount it) (is_linked it) (has_cas it) v
          (is_raligned it) (klen it) (vlen it) (exptime it) (vtype it) (end_ it).
Definition set_is_raligned (v : bool) (it : item) : item :=
  mk_item (offset it) (id it) (refcount it) (is_linked it) (has_cas it) (in_freeq it)
          v (klen it) (vlen it) (exptime it) (vtype it) (end_ it).
Definition set_klen (v : Z) (it : item) : item :=
  mk_item (offset it) (id it) (refcount it) (is_linked it) (has_cas it) (in_freeq it)
          (is_raligned it) v (vlen it) (exptime it) (vtype it) (end_ it).
Definition set_vlen (v : Z) (it : item) : item :=
  mk_item (offset it) (id it) (refcount it) (is_linked it) (has_cas it) (in_freeq it)
          (is_raligned it) (klen it) v (exptime it) (vtype it) (end_ it).
Definition set_exptime (v : Z) (it : item) : item :=
  mk_item (offset it) (id it) (refcount it) (is_linked it) (has_cas it) (in_freeq it)
          (is_raligned it) (klen it) (vlen it) v (vtype it) (end_ it).
Definition set_vtype (v : val_type) (it : item) : item :=
  mk_item (offset it) (id it) (refcount it) (is_linked it) (has_cas it) (in_freeq it)
          (is_raligned it) (klen it) (vlen it) (exptime it) v (end_ it).
Definition set_end (v : list byte) (it : item) : item :=
  mk_item (offset it) (id it) (refcount it) (is_linked it) (has_cas it) (in_freeq it)
          (is_raligned it) (klen it) (vlen it) (exptime it) (vtype it) v.

(** ** Module state *)

(** [item_metrics_st].  Modelled from the spec: the counters and gauges of
    section 6; INCR, DECR, INCR_N and DECR_N (ccommon) add and subtract. *)
Record item_metrics_st := mk_metrics {
  item_req : Z;
  item_req_ex : Z;
  item_link : Z;
  item_unlink : Z;
  item_remove : Z;
  item_curr : Z;
  item_keyval_byte : Z;
  item_val_byte : Z
}.

Inductive metric :=
  | m_item_req | m_item_req_ex | m_item_link | m_item_unlink
  | m_item_remove | m_item_curr | m_item_keyval_byte | m_item_val_byte.

Definition metric_add (m : metric) (n : Z) (ms : item_metrics_st) : item_metrics_st :=
  match m with
  | m_item_req =>
      mk_metrics (item_req ms + n) (item_req_ex ms) (item_link ms) (item_unlink ms)
                 (item_remove ms) (item_curr ms) (item_keyval_byte ms) (item_val_byte ms)
  | m_item_req_ex =>
      mk_metrics (item_req ms) (item_req_ex ms + n) (item_link ms) (item_unlink ms)
                 (item_remove ms) (item_curr ms) (item_keyval_byte ms) (item_val_byte ms)
  | m_item_link =>
      mk_metrics (item_req ms) (item_req_ex ms) (item_link ms + n) (item_unlink ms)
                 (item_remove ms) (item_curr ms) (item_keyval_byte ms) (item_val_byte ms)
  | m_item_unlink =>
      mk_metrics (item_req ms) (item_req_ex ms) (item_link ms) (item_unlink ms + n)
                 (item_remove ms) (item_curr ms) (item_keyval_byte ms) (item_val_byte ms)
  | m_item_remove =>
      mk_metrics (item_req ms) (item_req_ex ms) (item_link ms) (item_unlink ms)
                 (item_remove ms + n) (item_curr ms) (item_keyval_byte ms) (item_val_byte ms)
  | m_item_curr =>
      mk_metrics (item_req ms) (item_req_ex ms) (item_link ms) (item_unlink ms)
                 (item_remove ms) (item_curr ms + n) (item_keyval_byte ms) (item_val_byte ms)
  | m_item_keyval_byte =>
      mk_metrics (item_req ms) (item_req_ex ms) (item_link ms) (item_unlink ms)
                 (item_remove ms) (item_curr ms) (item_keyval_byte ms + n) (item_val_byte ms)
  | m_item_val_byte =>
      mk_metrics (item_req ms) (item_req_ex ms) (item_link ms) (item_unlink ms)
                 (item_remove ms) (item_curr ms) (item_keyval_byte ms) (item_val_byte ms + n)
  end.

(** The globals of bb_item.c ([cas_id], [table], [item_metrics]), the slab
    memory with the allocator's free queues and slab reference counts, and
    the clock read by [time_now]. *)
Record state := mk_state {
  cas_id : Z;
  table : list (list byte * Z);
  heap : gmap Z item;
  slab_refcount : gmap Z Z;
  free_itemq : gmap Z (list Z);
  item_metrics : item_metrics_st;
  now : Z
}.

Definition set_cas_id (v : Z) (s : state) : state :=
  mk_state v (table s) (heap s) (slab_refcount s) (free_itemq s) (item_metrics s) (now s).
Definition set_table (v : list (list byte * Z)) (s : state) : state :=
  mk_state (cas_id s) v (heap s) (slab_refcount s) (free_itemq s) (item_metrics s) (now s).
Definition set_heap (v : gmap Z item) (s : state) : state :=
  mk_state (cas_id s) (table s) v (slab_refcount s) (free_itemq s) (item_metrics s) (now s).
Definition set_slab_refcount (v : gmap Z Z) (s : state) : state :=
  mk_state (cas_id s) (table s) (heap s) v (free_itemq s) (item_metrics s) (now s).
Definition set_free_itemq (v : gmap Z (list Z)) (s : state) : state :=
  mk_state (cas_id s) (table s) (heap s) (slab_refcount s) v (item_metrics s) (now s).
Definition set_item_metrics (v : item_metrics_st) (s : state) : state :=
  mk_state (cas_id s) (table s) (heap s) (slab_refcount s) (free_itemq s) v (now s).
Definition set_now (v : Z) (s : state) : state :=
  mk_state (cas_id s) (table s) (heap s) (slab_refcount s) (free_itemq s) (item_metrics s) v.

(** ** The state-and-failure monad *)

Definition M (A : Type) : Type := state → option (A * state).

Definition ret {A} (x : A) : M A := λ s, Some (x, s).

Definition bind {A B} (m : M A) (f : A → M B) : M B :=
  λ s, match m s with
       | Some (x, s') => f x s'
       | None => None
       end.

Declare Scope M_scope.
Delimit Scope M_scope with M.
Bind Scope M_scope with M.
Notation "x ← y ; z" := (bind y (λ x, z))
  (at level 20, y at level 100, z at level 200, only parsing) : M_scope.
Notation "x ;; z" := (bind x (λ _, z))
  (at level 100, z at level 200, only parsing, right associativity) : M_scope.
Open Scope M_scope.

Definition gets {A} (f : state → A) : M A := λ s, Some (f s, s).
Definition modify (f : state → state) : M unit := λ s, Some (tt, f s).
Definition undefined {A} : M A := λ _, None.

(** [*it]: the item at address [it]. *)
Definition load (it : Z) : M item :=
  λ s, match heap s !! it with
       | Some i => Some (i, s)
       | None => None
       end.

Definition store (it : Z) (i : item) : M unit :=
  modify (λ s, set_heap (<[it := i]> (heap s)) s).

(** [it->f] *)
Definition rd {A} (f : item → A) (it : Z) : M A :=
  i ← load it; ret (f i).

(** [it->f = v] *)
Definition wr {A} (setf : A → item → item) (it : Z) (v : A) : M unit :=
  i ← load it; store it (setf v i).

(** Modelled from the spec: the metric macros of ccommon; the counters and
    gauges are unbounded integers. *)
Definition INCR_N (m : metric) (n : Z) : M unit :=
  modify (λ s, set_item_metrics (metric_add m n (item_metrics s)) s).
Definition DECR_N (m : metric) (n : Z) : M unit :=
  modify (λ s, set_item_metrics (metric_add m (- n) (item_metrics s)) s).
Definition INCR (m : metric) : M unit := INCR_N m 1.
Definition DECR (m : metric) : M unit := DECR_N m 1.

(** Modelled from the spec: [time_now()] reads the clock, in relative
    seconds. *)
Definition time_now : M Z := gets now.

(** ** A small configuration

    Concrete data on which the properties below are exercised: a 24-byte
    item header, three slab classes of 48, 64 and 96 bytes, one slab at
    address 1000 whose chunks of class 1 lie at offsets 32 and 80, and a
    decimal parser for [bstring_atou64]. *)

Definition ex_hdr : Z := 24.
Definition ex_classes : list Z := [48; 64; 96].

Fixpoint ex_digits (acc : Z) (bs : list byte) : option Z :=
  match bs with
  | [] => Some acc
  | b :: bs' =>
      let d := Z_of_byte b - 48 in
      if decide (0 <= d <= 9) then ex_digits (10 * acc + d) bs' else None
  end.

Definition ex_atou64 (bs : list byte) : option Z :=
  match bs with
  | [] => None
  | _ =>
      match ex_digits 0 bs with
      | Some n => if decide (n <= UINT64_MAX) then Some n else None
      | None => None
      end
  end.

Definition ex_foo : list byte := [x66; x6f; x6f].
Definition ex_bar : list byte := [x62; x61; x72].
Definition ex_AB : list byte := [x41; x42].
Definition ex_CC : list byte := [x43; x43].

(** A chunk of class 1 on the free queue. *)
Definition ex_free_item (off : Z) : item :=
  mk_item off 1 0 false false true false 0 0 0 V_STR (replicate 24 x00).

(** The item that [item_set] makes of "foo" and "bar": CAS token 1, key,
    value, padding. *)
Definition ex_foo_item (exp rc : Z) (linked : bool) : item :=
  mk_item 32 1 rc linked true false false 3 3 exp V_STR
          (encode_le 8 1 ++ ex_foo ++ ex_bar ++ replicate 10 x00).

(** No key stored; the chunks at 1032 and 1080 are free. *)
Definition ex_empty : state :=
  mk_state 0 []
    (<[1032 := ex_free_item 32]> (<[1080 := ex_free_item 80]> ∅))
    ∅ (<[1 := [1032; 1080]]> ∅)
    (mk_metrics 0 0 0 0 0 0 0 0) 100.

(** "foo" is linked at 1032 with expiry [exp]; the clock reads [nw]; the
    chunks listed in [free] are on the free queue of class 1. *)
Definition ex_state (exp nw : Z) (free : list Z) : state :=
  mk_state 1 [(ex_foo, 1032)]
    (<[1032 := ex_foo_item exp 0 true]>
       (list_to_map ((λ a, (a, ex_free_item (a - 1000))) <$> free)))
    (<[1000 := 0]> ∅) (<[1 := free]> ∅)
    (mk_metrics 1 0 1 0 0 1 6 3) nw.

(** The state a computation ends in. *)
Definition exec {A} (m : M A) (s : state) : state :=
  match m s with
  | Some (_, s') => s'
  | None => s
  end.

(** ** Configuration and collaborators

    The configuration switch [use_cas], the header size (the offset of
    [end] in [struct item]), the item size of each slab class and the
    integer parser of ccommon are parameters of the development. *)

Section Item.

Variable use_cas : bool.
Variable ITEM_HDR_SIZE : Z.
(** [slabclass[id].size] for [id = SLABCLASS_MIN_ID, SLABCLASS_MIN_ID + 1, ...] *)
Variable slabclass : list Z.
(** [bstring_atou64]: [Some n] stands for CC_OK with [*u64 = n]. *)
Variable bstring_atou64 : list byte → option Z.

(** [cc_memcpy((char * )it + off, bs, len bs)]: a copy into the chunk of
    [it]; a copy that leaves the chunk is undefined. *)
Definition cc_memcpy (it off : Z) (bs : list byte) : M unit :=
  i ← load it;
  match mem_write (off - ITEM_HDR_SIZE) bs (end_ i) with
  | Some e => store it (set_end e i)
  | None => undefined
  end.

(** The [len] bytes at [(char * )it + off]. *)
Definition chunk_load (it off len : Z) : M (list byte) :=
  i ← load it;
  match mem_read (off - ITEM_HDR_SIZE) len (end_ i) with
  | Some bs => ret bs
  | None => undefined
  end.

(** *** Slab allocator *)

(** Modelled from the spec: the class id bounds of the slab allocator
    (bb_slab.h is not part of the sources); [id] lies in [MIN_ID, MAX_ID]
    and INVALID_ID is the u8 outside that range. *)
Definition SLABCLASS_MIN_ID : Z := 1.
Definition SLABCLASS_INVALID_ID : Z := UINT8_MAX.

(** Modelled from the spec: [slab_item_size(id)], the chunk size of class
    [id]. *)
Definition slab_item_size (i : Z) : Z :=
  nth (Z.to_nat (i - SLABCLASS_MIN_ID)) slabclass 0.

(** Modelled from the spec: [slab_id(nbytes)] is the smallest class whose
    chunk fits, INVALID_ID if [nbytes] exceeds the largest class. *)
Fixpoint slab_id_from (i : Z) (sizes : list Z) (size : Z) : Z :=
  match sizes with
  | [] => SLABCLASS_INVALID_ID
  | sz :: rest => if decide (size <= sz) then i else slab_id_from (i + 1) rest size
  end.

(** Modelled from the spec: [slab_id], searching from the first class. *)
Definition slab_id (size : Z) : Z := slab_id_from SLABCLASS_MIN_ID slabclass size.

(** Modelled from the spec: [slab_acquire_refcount] and
    [slab_release_refcount] count the borrowed items of a slab. *)
Definition slab_acquire_refcount (slab : Z) : M unit :=
  modify (λ s, set_slab_refcount
     (<[slab := wrap32 (default 0 (slab_refcount s !! slab) + 1)]> (slab_refcount s)) s).

(** Modelled from the spec: [slab_release_refcount], the inverse of
    [slab_acquire_refcount]. *)
Definition slab_release_refcount (slab : Z) : M unit :=
  modify (λ s, set_slab_refcount
     (<[slab := wrap32 (default 0 (slab_refcount s !! slab) - 1)]> (slab_refcount s)) s).

(** Modelled from the spec: [slab_get_item(id)] hands out a free chunk of
    class [id], taken from the free queue of the class, or null when the
    class has none; the item leaves the queue with [in_freeq] cleared.
    The allocator is outside bb_item.c and its eviction policy is left
    open: when the queue is empty it may instead reclaim the chunk of a
    linked item that nobody holds, through [item_reuse].  That step is not
    modelled.  A property of an allocation that finds the queue empty is
    therefore stated for stores in which the allocator has nothing to
    reclaim, or for the very case that it hands out nothing; a property of
    an allocation that must not disturb other items is stated for a queue
    that holds a chunk. *)
Definition slab_get_item (i : Z) : M (option Z) :=
  q ← gets (λ s, default [] (free_itemq s !! i));
  match q with
  | [] => ret None
  | it :: q' =>
      wr set_in_freeq it false;;
      modify (λ s, set_free_itemq (<[i := q']> (free_itemq s)) s);;
      ret (Some it)
  end.

(** Modelled from the spec: [slab_put_item(it, id)] returns the chunk to
    the free queue of class [id] and marks it [in_freeq]. *)
Definition slab_put_item (it : Z) (i : Z) : M unit :=
  wr set_in_freeq it true;;
  modify (λ s, set_free_itemq (<[i := it :: default [] (free_itemq s !! i)]> (free_itemq s)) s).

(** *** Item header accessors (bb_item.h) *)

(** Modelled from the spec: [item_ntotal(klen, vlen, cas)] is
    [header + klen + (has_cas ? 8 : 0) + vlen].  [klen] is a [uint8_t]
    parameter: a longer length, such as the [key->len] that [item_alloc]
    passes, is truncated to its low 8 bits.  [vlen] is a [uint32_t], which
    is what every caller passes. *)
Definition item_ntotal (kl vl : Z) (cas : bool) : Z :=
  ITEM_HDR_SIZE + wrap8 kl + vl + (if cas then 8 else 0).

(** Modelled from the spec: the key follows the header and the CAS token
    (8 bytes, present iff [has_cas]); the result is the offset of the key
    from the start of the item. *)
Definition item_key (it : Z) : M Z :=
  c ← rd has_cas it;
  ret (ITEM_HDR_SIZE + (if c then 8 else 0)).

(** Modelled from the spec: the CAS token is stored right after the
    header when [has_cas], and reads as 0 otherwise. *)
Definition item_get_cas (it : Z) : M Z :=
  c ← rd has_cas it;
  if c then bs ← chunk_load it ITEM_HDR_SIZE 8; ret (decode_le bs)
  else ret 0.

(** Modelled from the spec: storing the CAS token; nothing is stored in an
    item without [has_cas]. *)
Definition item_set_cas (it : Z) (cas : Z) : M unit :=
  c ← rd has_cas it;
  if c then cc_memcpy it ITEM_HDR_SIZE (encode_le 8 cas)
  else ret tt.

(** The bytes that the pair [item_key(it)], [it->klen] denotes. *)
Definition item_key_bytes (it : Z) : M (list byte) :=
  ko ← item_key it;
  kl ← rd klen it;
  chunk_load it ko kl.

(** *** Hash index *)

(** Modelled from the spec: the entry found first for a key, and the index
    without it. *)
Fixpoint assoc_find (key : list byte) (t : list (list byte * Z)) : option Z :=
  match t with
  | [] => None
  | (k, it) :: t' => if decide (k = key) then Some it else assoc_find key t'
  end.

Fixpoint assoc_remove (key : list byte) (t : list (list byte * Z)) : list (list byte * Z) :=
  match t with
  | [] => []
  | (k, it) :: t' => if decide (k = key) then t' else (k, it) :: assoc_remove key t'
  end.

(** Modelled from the spec: the hash index maps key bytes to items and
    does not enforce key uniqueness: [assoc_get] returns the entry found
    first, [assoc_put] adds an entry for the key of the item in front of
    the others, [assoc_delete] removes the entry found first. *)
Definition assoc_get (key : list byte) : M (option Z) :=
  t ← gets table; ret (assoc_find key t).

(** Modelled from the spec: [assoc_put(it, table)], keyed by the key bytes
    that the item holds at the time of the call. *)
Definition assoc_put (it : Z) : M unit :=
  k ← item_key_bytes it;
  modify (λ s, set_table ((k, it) :: table s) s).

(** Modelled from the spec: [assoc_delete(key, klen, table)]. *)
Definition assoc_delete (key : list byte) : M unit :=
  modify (λ s, set_table (assoc_remove key (table s)) s).

(** ** bb_item.c *)

(** bb_item.c 20-28.  [++cas_id] on a [uint64_t]. *)
Definition _item_next_cas : M Z :=
  if use_cas then
    c ← gets cas_id;
    modify (set_cas_id (wrap64 (c + 1)));;
    ret (wrap64 (c + 1))
  else ret 0.

(** bb_item.c 30-36. *)
Definition _item_expired (it : Z) : M bool :=
  e ← rd exptime it;
  t ← time_now;
  ret (bool_decide (e > 0 ∧ e < t)).

(** bb_item.c 82-97.  The result is the offset of the payload from the
    start of the item. *)
Definition item_data (it : Z) : M Z :=
  i ← load it;
  if is_raligned i then ret (slab_item_size (id i) - vlen i)
  else ret (ITEM_HDR_SIZE + klen i + (if has_cas i then 8 else 0)).

(** bb_item.c 102-115: the address of the slab that contains the item. *)
Definition item_to_slab (it : Z) : M Z :=
  o ← rd offset it;
  ret (it - o).

(** bb_item.c 131-146: the parameters are a [uint8_t] and a [uint32_t]. *)
Definition item_slabid (kl vl : Z) : Z :=
  slab_id (item_ntotal (wrap8 kl) (wrap32 vl) use_cas).

(** bb_item.c 148-156. *)
Definition _item_free (it : Z) : M unit :=
  i ← rd id it;
  slab_put_item it i;;
  INCR m_item_remove.

(** bb_item.c 158-165. *)
Definition _item_acquire_refcount (it : Z) : M unit :=
  r ← rd refcount it;
  wr set_refcount it (wrap16 (r + 1));;
  slab ← item_to_slab it;
  slab_acquire_refcount slab.

(** bb_item.c 167-187. *)
Definition _item_release_refcount (it : Z) : M unit :=
  r ← rd refcount it;
  (if decide (r ≠ 0) then
     wr set_refcount it (wrap16 (r - 1));;
     slab ← item_to_slab it;
     slab_release_refcount slab
   else ret tt);;
  r' ← rd refcount it;
  l ← rd is_linked it;
  if bool_decide (r' = 0) && negb l then _item_free it else ret tt.

(** bb_item.c 198-248.  The result pairs the status with [*it_p], which
    the callers initialise to null.  The class is chosen from
    [item_ntotal], whose [uint8_t] parameter truncates [key->len], and
    [it->klen] is truncated in the same way; the key is copied with its
    full length. *)
Definition item_alloc (key : list byte) (exp : Z) (nbyte : Z) : M (item_rstatus_t * option Z) :=
  let i := slab_id (item_ntotal (blen key) nbyte use_cas) in
  if decide (i = SLABCLASS_INVALID_ID) then ret (ITEM_EOVERSIZED, None)
  else
    p ← slab_get_item i;
    match p with
    | None =>
        INCR m_item_req_ex;;
        ret (ITEM_ENOMEM, None)
    | Some it =>
        _item_acquire_refcount it;;
        wr set_has_cas it use_cas;;
        wr set_is_raligned it false;;
        wr set_vlen it nbyte;;
        wr set_exptime it exp;;
        wr set_klen it (wrap8 (blen key));;
        ko ← item_key it;
        cc_memcpy it ko key;;
        item_set_cas it 0;;
        INCR m_item_req;;
        ret (ITEM_OK, Some it)
    end.

(** bb_item.c 257-272. *)
Definition item_reuse (it : Z) : M unit :=
  wr set_is_linked it false;;
  k ← item_key_bytes it;
  assoc_delete k.

(** bb_item.c 277-297.  [it->klen + it->vlen] is computed in 32 bits. *)
Definition _item_link (it : Z) : M unit :=
  wr set_is_linked it true;;
  c ← _item_next_cas;
  item_set_cas it c;;
  assoc_put it;;
  INCR m_item_link;;
  INCR m_item_curr;;
  kl ← rd klen it;
  vl ← rd vlen it;
  INCR_N m_item_keyval_byte (wrap32 (kl + vl));;
  INCR_N m_item_val_byte vl.

(** bb_item.c 303-326. *)
Definition _item_unlink (it : Z) : M unit :=
  INCR m_item_unlink;;
  DECR m_item_curr;;
  kl ← rd klen it;
  vl ← rd vlen it;
  DECR_N m_item_keyval_byte (wrap32 (kl + vl));;
  DECR_N m_item_val_byte vl;;
  l ← rd is_linked it;
  if l then
    wr set_is_linked it false;;
    k ← item_key_bytes it;
    assoc_delete k;;
    r ← rd refcount it;
    if decide (r = 0) then _item_free it else ret tt
  else ret tt.

(** bb_item.c 331-346. *)
Definition _item_relink (it nit : Z) : M unit :=
  _item_unlink it;;
  _item_link nit.

(** bb_item.c 355-379. *)
Definition item_get (key : list byte) : M (option Z) :=
  p ← assoc_get key;
  match p with
  | None => ret None
  | Some it =>
      e ← rd exptime it;
      t ← time_now;
      if decide (e ≠ 0 ∧ e <= t) then
        _item_unlink it;;
        ret None
      else
        _item_acquire_refcount it;;
        ret (Some it)
  end.

(** bb_item.c 381-397. *)
Definition item_check_type (it : Z) : M unit :=
  n ← rd vlen it;
  d ← item_data it;
  bs ← chunk_load it d n;
  match bstring_atou64 bs with
  | Some _ => wr set_vtype it V_INT
  | None => wr set_vtype it V_STR
  end.

(** bb_item.c 399-430. *)
Definition item_set (key val : list byte) (exp : Z) : M item_rstatus_t :=
  r ← item_alloc key exp (blen val);
  match r with
  | (ITEM_OK, Some it) =>
      d ← item_data it;
      cc_memcpy it d val;;
      item_check_type it;;
      oit ← item_get key;
      match oit with
      | None => _item_link it
      | Some o =>
          _item_relink o it;;
          _item_release_refcount o
      end;;
      _item_release_refcount it;;
      ret ITEM_OK
  | (ITEM_OK, None) => undefined
  | (status, _) => ret status
  end.

(** bb_item.c 432-482.  A failed allocation returns at once, without
    passing through [cas_done]. *)
Definition item_cas (key val : list byte) (exp : Z) (cas : Z) : M item_rstatus_t :=
  oit ← item_get key;
  match oit with
  | None => ret ITEM_ENOTFOUND
  | Some o =>
      c ← item_get_cas o;
      if decide (cas ≠ c) then
        _item_release_refcount o;;
        ret ITEM_EOTHER
      else
        r ← item_alloc key exp (blen val);
        match r with
        | (ITEM_OK, Some it) =>
            item_set_cas it cas;;
            d ← item_data it;
            cc_memcpy it d val;;
            item_check_type it;;
            _item_relink o it;;
            _item_release_refcount o;;
            _item_release_refcount it;;
            ret ITEM_OK
        | (ITEM_OK, None) => undefined
        | (status, _) => ret status
        end
  end.

(** bb_item.c 484-577.  [total_nbyte] is a [uint32_t]. *)
Definition item_annex (key val : list byte) (append : bool) : M item_rstatus_t :=
  oit ← item_get key;
  match oit with
  | None => ret ITEM_ENOTFOUND
  | Some o =>
      ovl ← rd vlen o;
      let total_nbyte := wrap32 (ovl + blen val) in
      let i := item_slabid (blen key) total_nbyte in
      if decide (i = SLABCLASS_INVALID_ID) then
        _item_release_refcount o;;
        ret ITEM_EOVERSIZED
      else
        oid ← rd id o;
        ora ← rd is_raligned o;
        if append then
          if bool_decide (i = oid) && negb ora then
            d ← item_data o;
            cc_memcpy o (d + ovl) val;;
            wr set_vlen o total_nbyte;;
            c ← _item_next_cas;
            item_set_cas o c;;
            item_check_type o;;
            _item_release_refcount o;;
            ret ITEM_OK
          else
            oexp ← rd exptime o;
            r ← item_alloc key oexp total_nbyte;
            match r with
            | (ITEM_OK, Some nit) =>
                nd ← item_data nit;
                od ← item_data o;
                ovl1 ← rd vlen o;
                obs ← chunk_load o od ovl1;
                cc_memcpy nit nd obs;;
                nd' ← item_data nit;
                ovl2 ← rd vlen o;
                cc_memcpy nit (nd' + ovl2) val;;
                item_check_type nit;;
                _item_relink o nit;;
                _item_release_refcount o;;
                _item_release_refcount nit;;
                ret ITEM_OK
            | (ITEM_OK, None) => undefined
            | (status, _) =>
                _item_release_refcount o;;
                ret status
            end
        else
          if bool_decide (i = oid) && ora then
            d ← item_data o;
            cc_memcpy o (d - blen val) val;;
            wr set_vlen o total_nbyte;;
            item_check_type o;;
            c ← _item_next_cas;
            item_set_cas o c;;
            _item_release_refcount o;;
            ret ITEM_OK
          else
            oexp ← rd exptime o;
            r ← item_alloc key oexp total_nbyte;
            match r with
            | (ITEM_OK, Some nit) =>
                wr set_is_raligned nit true;;
                nd ← item_data nit;
                od ← item_data o;
                ovl1 ← rd vlen o;
                obs ← chunk_load o od ovl1;
                cc_memcpy nit (nd + blen val) obs;;
                nd' ← item_data nit;
                cc_memcpy nit nd' val;;
                item_check_type nit;;
                _item_relink o nit;;
                _item_release_refcount o;;
                _item_release_refcount nit;;
                ret ITEM_OK
            | (ITEM_OK, None) => undefined
            | (status, _) =>
                _item_release_refcount o;;
                ret status
            end
  end.

(** bb_item.c 579-595. *)
Definition item_update (it : Z) (val : list byte) : M item_rstatus_t :=
  kl ← rd klen it;
  i ← rd id it;
  if decide (item_slabid kl (blen val) ≠ i) then ret ITEM_EOVERSIZED
  else
    wr set_vlen it (blen val);;
    d ← item_data it;
    cc_memcpy it d val;;
    item_check_type it;;
    ret ITEM_OK.

(** bb_item.c 597-612. *)
Definition item_delete (key : list byte) : M item_rstatus_t :=
  p ← item_get key;
  match p with
  | Some it =>
      _item_unlink it;;
      _item_release_refcount it;;
      ret ITEM_OK
  | None => ret ITEM_ENOTFOUND
  end.

(** ** Symbolic states

    The state reached by each lifecycle function, as a function of the item
    found at the address. *)

Definition upd_item (a : Z) (i : item) (s : state) : state :=
  set_heap (<[a := i]> (heap s)) s.

Definition slab_refcount_add (slab n : Z) (s : state) : state :=
  set_slab_refcount
    (<[slab := wrap32 (default 0 (slab_refcount s !! slab) + n)]> (slab_refcount s)) s.

Definition metric_st (m : metric) (n : Z) (s : state) : state :=
  set_item_metrics (metric_add m n (item_metrics s)) s.

(** Index in [end_] of the key of an item. *)
Definition key_idx (i : item) : Z := if has_cas i then 8 else 0.

(** Offset of the payload from the start of the item, as [item_data]
    computes it. *)
Definition data_off (i : item) : Z :=
  if is_raligned i then slab_item_size (id i) - vlen i
  else ITEM_HDR_SIZE + klen i + (if has_cas i then 8 else 0).

(** The key, the value and the CAS token held by an item. *)
Definition key_of (i : item) : option (list byte) :=
  mem_read (key_idx i) (klen i) (end_ i).

Definition value_of (i : item) : option (list byte) :=
  mem_read (data_off i - ITEM_HDR_SIZE) (vlen i) (end_ i).

Definition cas_of (i : item) : option Z :=
  if has_cas i then decode_le <$> mem_read 0 8 (end_ i) else Some 0.

(** The value and the CAS token that the index holds for a key. *)
Definition stored_value (k : list byte) (s : state) : option (list byte) :=
  match assoc_find k (table s) with
  | Some a =>
      match heap s !! a with
      | Some i => value_of i
      | None => None
      end
  | None => None
  end.

Definition stored_cas (k : list byte) (s : state) : option Z :=
  match assoc_find k (table s) with
  | Some a =>
      match heap s !! a with
      | Some i => cas_of i
      | None => None
      end
  | None => None
  end.

Definition acquire_st (a : Z) (i : item) (s : state) : state :=
  slab_refcount_add (a - offset i) 1
    (upd_item a (set_refcount (wrap16 (refcount i + 1)) i) s).

Definition free_st (a : Z) (i : item) (s : state) : state :=
  metric_st m_item_remove 1
    (set_free_itemq
       (<[id i := a :: default [] (free_itemq s !! id i)]> (free_itemq s))
       (upd_item a (set_in_freeq true i) s)).

Definition release_dec (i : item) : item :=
  if decide (refcount i ≠ 0) then set_refcount (wrap16 (refcount i - 1)) i else i.

Definition release_st (a : Z) (i : item) (s : state) : state :=
  let s1 :=
    if decide (refcount i ≠ 0)
    then slab_refcount_add (a - offset i) (-1) (upd_item a (release_dec i) s)
    else s in
  if bool_decide (refcount (release_dec i) = 0) && negb (is_linked i)
  then free_st a (release_dec i) s1
  else s1.

Definition unlink_metrics (i : item) (s : state) : state :=
  metric_st m_item_val_byte (- vlen i)
    (metric_st m_item_keyval_byte (- wrap32 (klen i + vlen i))
       (metric_st m_item_curr (- 1) (metric_st m_item_unlink 1 s))).

Definition unlink_st (a : Z) (i : item) (s : state) : option state :=
  let s0 := unlink_metrics i s in
  if is_linked i then
    match key_of i with
    | None => None
    | Some kb =>
        let s1 := set_table (assoc_remove kb (table s))
                            (upd_item a (set_is_linked false i) s0) in
        Some (if decide (refcount i = 0)
              then free_st a (set_is_linked false i) s1
              else s1)
    end
  else Some s0.

Definition next_cas_val (s : state) : Z :=
  if use_cas then wrap64 (cas_id s + 1) else 0.

Definition next_cas_st (s : state) : state :=
  set_cas_id (if use_cas then wrap64 (cas_id s + 1) else cas_id s) s.

Definition set_cas_item (c : Z) (i : item) : option item :=
  if has_cas i
  then (λ e, set_end e i) <$> mem_write 0 (encode_le 8 c) (end_ i)
  else Some i.

Definition link_metrics (i : item) (s : state) : state :=
  metric_st m_item_val_byte (vlen i)
    (metric_st m_item_keyval_byte (wrap32 (klen i + vlen i))
       (metric_st m_item_curr 1 (metric_st m_item_link 1 s))).

Definition link_st (a : Z) (i : item) (s : state) : option state :=
  match set_cas_item (next_cas_val s) (set_is_linked true i) with
  | None => None
  | Some i' =>
      match key_of i' with
      | None => None
      | Some kb =>
          Some (link_metrics i'
                  (set_table ((kb, a) :: table s) (upd_item a i' (next_cas_st s))))
      end
  end.

Definition expired (i : item) (s : state) : Prop :=
  exptime i ≠ 0 ∧ exptime i <= now s.

#[global] Instance expired_dec i s : Decision (expired i s).
Proof. unfold expired. apply _. Defined.

Definition classify (bs : list byte) : val_type :=
  match bstring_atou64 bs with
  | Some _ => V_INT
  | None => V_STR
  end.

(** The header of a chunk as [item_alloc] initialises it, then the key and
    the zero CAS token stored in the chunk. *)
Definition alloc_hdr (key : list byte) (exp nbyte : Z) (i : item) : item :=
  set_klen (wrap8 (blen key))
    (set_exptime exp
       (set_vlen nbyte
          (set_is_raligned false
             (set_has_cas use_cas
                (set_refcount (wrap16 (refcount i + 1)) (set_in_freeq false i)))))).

Definition alloc_item (key : list byte) (exp nbyte : Z) (i : item) : option item :=
  let i1 := alloc_hdr key exp nbyte i in
  match mem_write (key_idx i1) key (end_ i1) with
  | None => None
  | Some e => set_cas_item 0 (set_end e i1)
  end.

Definition alloc_st (a : Z) (q : list Z) (cid : Z) (i i' : item) (s : state) : state :=
  metric_st m_item_req 1
    (upd_item a i'
       (slab_refcount_add (a - offset i) 1
          (set_free_itemq (<[cid := q]> (free_itemq s)) s))).

(** The chunk of an item spans the item size of its slab class. *)
Definition end_len_ok (i : item) : Prop :=
  blen (end_ i) = slab_item_size (id i) - ITEM_HDR_SIZE.

(** An item that holds the key [k], left-aligned, with room reserved for a
    value of [n] bytes and expiry [e] ([pre_holds]), and one that also holds
    the value [v] ([holds]). *)
Definition pre_holds (k : list byte) (n e : Z) (i : item) : Prop :=
  has_cas i = use_cas ∧ is_raligned i = false ∧ klen i = blen k ∧
  vlen i = n ∧ exptime i = e ∧ key_of i = Some k.

Definition holds (k v : list byte) (e : Z) (i : item) : Prop :=
  pre_holds k (blen v) e i ∧ value_of i = Some v.

(** The item at [a] holds [k] and [v] with expiry [e] and CAS token [c]. *)
Definition holds_at (a : Z) (k v : list byte) (e c : Z) (s : state) : Prop :=
  ∃ y, heap s !! a = Some y ∧ holds k v e y ∧ cas_of y = Some c.

(** ** Frames: what the lifecycle functions leave alone *)

(** The items agree on everything but the reference count and the
    [is_linked] and [in_freeq] bits. *)
Definition flag_eq (i j : item) : Prop :=
  offset i = offset j ∧ id i = id j ∧ has_cas i = has_cas j ∧
  is_raligned i = is_raligned j ∧ klen i = klen j ∧ vlen i = vlen j ∧
  exptime i = exptime j ∧ vtype i = vtype j ∧ end_ i = end_ j.

(** As [flag_eq], but the stored CAS token may differ too. *)
Definition body_eq (i j : item) : Prop :=
  offset i = offset j ∧ id i = id j ∧ has_cas i = has_cas j ∧
  is_raligned i = is_raligned j ∧ klen i = klen j ∧ vlen i = vlen j ∧
  exptime i = exptime j ∧ vtype i = vtype j ∧
  ∀ o l, key_idx i <= o → mem_read o l (end_ i) = mem_read o l (end_ j).

(** Every item of [s] is still there in [s'], up to [R]; the clock and the
    CAS counter are the same. *)
Definition frame (R : item → item → Prop) (s s' : state) : Prop :=
  now s' = now s ∧ cas_id s' = cas_id s ∧
  ∀ a i, heap s !! a = Some i → ∃ i', heap s' !! a = Some i' ∧ R i i'.

(** ** Well-formed stores

    What the assertions of bb_item.c expect of the items that the index
    and the free queues hand out. *)

(** An item linked under the key [k]: it carries the [is_linked] bit and
    not [in_freeq], it was allocated under the current CAS setting, its
    chunk spans its slab class and holds [k] and a value, and its
    reference count leaves room for one more holder. *)
Definition linked_item (k : list byte) (i : item) : Prop :=
  is_linked i = true ∧ in_freeq i = false ∧ key_of i = Some k ∧
  is_Some (value_of i) ∧ 0 <= refcount i < UINT16_MAX ∧ end_len_ok i ∧
  has_cas i = use_cas.

(** A chunk on the free queue of class [c]: marked [in_freeq], and what
    [item_alloc] asserts of the chunk that [slab_get_item] hands out: of
    that class, not linked and without holders. *)
Definition free_item (c : Z) (i : item) : Prop :=
  is_linked i = false ∧ in_freeq i = true ∧ refcount i = 0 ∧ id i = c ∧
  end_len_ok i.

(** The heap has an item at [a], and it satisfies [P]. *)
Definition holds_item (P : item → Prop) (h : gmap Z item) (a : Z) : Prop :=
  match h !! a with
  | Some i => P i
  | None => False
  end.

(** The index has one entry per key, each for a linked item that holds
    the key. *)
Definition index_ok (s : state) : Prop :=
  NoDup (table s).*1 ∧
  Forall (λ e, holds_item (linked_item e.1) (heap s) e.2) (table s).

(** Every free queue lists distinct free chunks of its class. *)
Definition free_ok (s : state) : Prop :=
  map_Forall (λ c q, NoDup q ∧ Forall (holds_item (free_item c) (heap s)) q)
             (free_itemq s).

(** A well-formed store. *)
Definition store_ok (s : state) : Prop := index_ok s ∧ free_ok s.

#[global] Instance end_len_ok_dec i : Decision (end_len_ok i).
Proof. unfold end_len_ok. apply _. Defined.

#[global] Instance linked_item_dec k i : Decision (linked_item k i).
Proof. unfold linked_item. apply _. Defined.

#[global] Instance free_item_dec c i : Decision (free_item c i).
Proof. unfold free_item. apply _. Defined.

#[global] Instance holds_item_dec P `{∀ i, Decision (P i)} h a :
  Decision (holds_item P h a).
Proof. unfold holds_item. destruct (h !! a); apply _. Defined.

#[global] Instance index_ok_dec s : Decision (index_ok s).
Proof. unfold index_ok. apply _. Defined.

#[global] Instance free_ok_dec s : Decision (free_ok s).
Proof. unfold free_ok. apply _. Defined.

#[global] Instance store_ok_dec s : Decision (store_ok s).
Proof. unfold store_ok. apply _. Defined.

(** * Properties *)

(** ** Bytes and chunk memory *)

Lemma blen_app (a b : list byte) : blen (a ++ b) = blen a + blen b.
Proof. unfold blen. rewrite length_app. lia. Qed.

Lemma blen_nonneg (a : list byte) : 0 <= blen a.
Proof. unfold blen. lia. Qed.

Lemma mem_write_blen off bs m m' : mem_write off bs m = Some m' → blen m' = blen m.
Proof.
  unfold mem_write. case_decide as H; [|done]. intros [= <-].
  unfold blen in *. rewrite !length_app, length_take, length_drop. lia.
Qed.

Lemma mem_write_is_Some off bs m :
  0 <= off → off + blen bs <= blen m → is_Some (mem_write off bs m).
Proof. intros. unfold mem_write. rewrite decide_True by done. eauto. Qed.

Lemma mem_read_is_Some off len m :
  0 <= off → 0 <= len → off + len <= blen m → is_Some (mem_read off len m).
Proof. intros. unfold mem_read. rewrite decide_True by done. eauto. Qed.

Lemma mem_read_blen off len m bs : mem_read off len m = Some bs → blen bs = len.
Proof.
  unfold mem_read. case_decide as H; [|done]. intros [= <-].
  unfold blen in *. rewrite length_take, length_drop. lia.
Qed.

Lemma mem_read_bounds off len m bs :
  mem_read off len m = Some bs → 0 <= off ∧ 0 <= len ∧ off + len <= blen m.
Proof. unfold mem_read. by case_decide. Qed.

Lemma mem_write_bounds off bs m m' :
  mem_write off bs m = Some m' → 0 <= off ∧ off + blen bs <= blen m.
Proof. unfold mem_write. by case_decide. Qed.

Lemma mem_read_write_eq off bs m m' :
  mem_write off bs m = Some m' → mem_read off (blen bs) m' = Some bs.
Proof.
  intros Hw. pose proof (mem_write_blen _ _ _ _ Hw) as Hl. revert Hw.
  unfold mem_write, mem_read. case_decide as H; [|done]. intros [= <-].
  rewrite decide_True by (pose proof (blen_nonneg bs); lia).
  f_equal. unfold blen in *.
  rewrite drop_app_length'; [|rewrite length_take; lia].
  rewrite Nat2Z.id. by rewrite take_app_length.
Qed.

Lemma mem_read_write_ne off bs m m' o l :
  mem_write off bs m = Some m' → o + l <= off ∨ off + blen bs <= o →
  mem_read o l m' = mem_read o l m.
Proof.
  intros Hw Hd. pose proof (mem_write_blen _ _ _ _ Hw) as Hl. revert Hw.
  unfold mem_write, mem_read. case_decide as H; [|done]. intros [= <-].
  rewrite Hl. case_decide as H'; [|done]. f_equal.
  apply list_eq. intros i. unfold blen in *.
  rewrite !lookup_take. case_decide; [|done].
  rewrite !lookup_drop.
  destruct Hd as [Hd|Hd].
  - rewrite lookup_app_l by (rewrite length_take; lia).
    rewrite lookup_take. rewrite decide_True by lia. done.
  - rewrite lookup_app_r by (rewrite length_take; lia).
    rewrite lookup_app_r by (rewrite length_take; lia).
    rewrite lookup_drop. f_equal. rewrite length_take. lia.
Qed.

Lemma mem_read_app o l1 l2 m x y :
  mem_read o l1 m = Some x → mem_read (o + l1) l2 m = Some y →
  mem_read o (l1 + l2) m = Some (x ++ y).
Proof.
  unfold mem_read. repeat case_decide; try done; try lia.
  intros [= <-] [= <-]. f_equal.
  rewrite Z2Nat.inj_add by lia.
  rewrite <- take_take_drop. rewrite drop_drop. do 3 f_equal. lia.
Qed.

Lemma Z_of_byte_of_Z z : 0 <= z < 256 → Z_of_byte (byte_of_Z z) = z.
Proof.
  intros Hz. unfold Z_of_byte, byte_of_Z.
  destruct (Byte.of_N (Z.to_N z)) as [b|] eqn:E.
  - apply Byte.to_of_N in E. rewrite E. lia.
  - apply Byte.of_N_None_iff in E. lia.
Qed.

Lemma encode_le_length n z : length (encode_le n z) = n.
Proof. revert z. induction n as [|n IH]; intros z; simpl; [done|]. by rewrite IH. Qed.

Lemma decode_encode_le n z : 0 <= z → decode_le (encode_le n z) = z mod 256 ^ Z.of_nat n.
Proof.
  revert z. induction n as [|n IH]; intros z Hz.
  - simpl. by rewrite Z.mod_1_r.
  - cbn [encode_le decode_le].
    rewrite Z_of_byte_of_Z by (apply Z.mod_pos_bound; lia).
    rewrite IH by (apply Z.div_pos; lia).
    rewrite Nat2Z.inj_succ, Z.pow_succ_r by lia.
    rewrite Z.rem_mul_r; [done|lia|]. apply Z.pow_pos_nonneg; lia.
Qed.

Lemma decode_encode_u64 z : 0 <= z <= UINT64_MAX → decode_le (encode_le 8 z) = z.
Proof.
  intros Hz. rewrite decode_encode_le by lia.
  apply Z.mod_small. unfold UINT64_MAX in Hz. simpl. lia.
Qed.

Lemma blen_encode_le n z : blen (encode_le n z) = Z.of_nat n.
Proof. unfold blen. by rewrite encode_le_length. Qed.

(** ** Equations of the lifecycle functions *)

Ltac munfold :=
  unfold INCR, DECR; unfold INCR_N, DECR_N, time_now, rd, wr;
  unfold load, store; unfold gets, modify, undefined; unfold bind, ret.

Ltac msimpl :=
  cbn [heap table cas_id slab_refcount free_itemq item_metrics now
       set_heap set_table set_cas_id set_slab_refcount set_free_itemq
       set_item_metrics set_now upd_item slab_refcount_add metric_st
       unlink_metrics link_metrics free_st acquire_st alloc_st next_cas_st
       offset id refcount is_linked has_cas in_freeq is_raligned klen vlen
       exptime vtype end_
       set_refcount set_is_linked set_has_cas set_in_freeq set_is_raligned
       set_klen set_vlen set_exptime set_vtype set_end
       fmap option_fmap option_map default from_option Datatypes.id].

Lemma bind_Some {A B} (m : M A) (f : A → M B) s x s' :
  m s = Some (x, s') → bind m f s = f x s'.
Proof. unfold bind. by intros ->. Qed.

Lemma bind_None {A B} (m : M A) (f : A → M B) s :
  m s = None → bind m f s = None.
Proof. unfold bind. by intros ->. Qed.

Lemma bind_inv {A B} (m : M A) (f : A → M B) s y s' :
  bind m f s = Some (y, s') → ∃ x s1, m s = Some (x, s1) ∧ f x s1 = Some (y, s').
Proof. unfold bind. destruct (m s) as [[x s1]|]; [eauto|done]. Qed.

Ltac mrun :=
  repeat first
    [ progress msimpl
    | rewrite lookup_insert_eq
    | match goal with
      | H : heap ?s !! ?a = _ |- context [heap ?s !! ?a] => rewrite H
      end
    | rewrite lookup_insert_ne by (done || congruence)
    | rewrite Z.sub_diag
    | rewrite Z.add_simpl_l ].

Lemma acquire_eq a s :
  _item_acquire_refcount a s =
  match heap s !! a with
  | Some i => Some (tt, acquire_st a i s)
  | None => None
  end.
Proof.
  unfold _item_acquire_refcount, item_to_slab, slab_acquire_refcount. munfold.
  destruct (heap s !! a) as [i|] eqn:E; mrun; done.
Qed.

Lemma free_eq a s :
  _item_free a s =
  match heap s !! a with
  | Some i => Some (tt, free_st a i s)
  | None => None
  end.
Proof.
  unfold _item_free, slab_put_item. munfold.
  destruct (heap s !! a) as [i|] eqn:E; mrun; done.
Qed.

Lemma release_eq a s :
  _item_release_refcount a s =
  match heap s !! a with
  | Some i => Some (tt, release_st a i s)
  | None => None
  end.
Proof.
  unfold _item_release_refcount, item_to_slab, slab_release_refcount. munfold.
  destruct (heap s !! a) as [i|] eqn:E; mrun; [|done].
  unfold release_st, release_dec.
  destruct (decide (refcount i ≠ 0)) as [Hr|Hr]; mrun.
  - destruct (bool_decide _ && negb _); [|done].
    rewrite free_eq. mrun. done.
  - destruct (bool_decide _ && negb _); [|done].
    rewrite free_eq. mrun. done.
Qed.

Lemma set_cas_id_id s : set_cas_id (cas_id s) s = s.
Proof. by destruct s. Qed.

Lemma next_cas_eq s : _item_next_cas s = Some (next_cas_val s, next_cas_st s).
Proof.
  unfold _item_next_cas, next_cas_val, next_cas_st.
  destruct use_cas; [done|]. by rewrite set_cas_id_id.
Qed.

Lemma set_cas_eq a c s :
  item_set_cas a c s =
  match heap s !! a with
  | Some i =>
      match set_cas_item c i with
      | Some i' => Some (tt, if has_cas i then upd_item a i' s else s)
      | None => None
      end
  | None => None
  end.
Proof.
  unfold item_set_cas, cc_memcpy, set_cas_item. munfold.
  destruct (heap s !! a) as [i|] eqn:E; mrun; [|done].
  destruct (has_cas i); mrun; [|done].
  destruct (mem_write _ _ _); mrun; done.
Qed.

Lemma get_cas_eq a s :
  item_get_cas a s =
  match heap s !! a with
  | Some i => (λ c, (c, s)) <$> cas_of i
  | None => None
  end.
Proof.
  unfold item_get_cas, chunk_load, cas_of. munfold.
  destruct (heap s !! a) as [i|] eqn:E; mrun; [|done].
  destruct (has_cas i); mrun; [|done].
  destruct (mem_read _ _ _); mrun; done.
Qed.

Lemma key_bytes_eq a s :
  item_key_bytes a s =
  match heap s !! a with
  | Some i => (λ k, (k, s)) <$> key_of i
  | None => None
  end.
Proof.
  unfold item_key_bytes, item_key, chunk_load, key_of, key_idx. munfold.
  destruct (heap s !! a) as [i|] eqn:E; mrun; [|done].
  destruct (mem_read _ _ _); mrun; done.
Qed.

Lemma data_eq a s :
  item_data a s =
  match heap s !! a with
  | Some i => Some (data_off i, s)
  | None => None
  end.
Proof.
  unfold item_data, data_off. munfold.
  destruct (heap s !! a) as [i|] eqn:E; mrun; [|done].
  by destruct (is_raligned i).
Qed.

Lemma set_end_id i : set_end (end_ i) i = i.
Proof. by destruct i. Qed.

Ltac mcase :=
  match goal with
  | |- context [match mem_write ?o ?b ?m with _ => _ end] =>
      destruct (mem_write o b m) eqn:?
  | |- context [match mem_read ?o ?l ?m with _ => _ end] =>
      destruct (mem_read o l m) eqn:?
  | |- context [if has_cas ?i then _ else _] => destruct (has_cas i) eqn:?
  | |- context [if is_linked ?i then _ else _] => destruct (is_linked i) eqn:?
  | |- context [if is_raligned ?i then _ else _] => destruct (is_raligned i) eqn:?
  | |- context [if decide ?P then _ else _] => destruct (decide P)
  | |- context [if bool_decide ?P then _ else _] => destruct (bool_decide P) eqn:?
  end.

Ltac mauto := mrun; repeat (mcase; mrun).

Lemma link_eq a s :
  _item_link a s =
  match heap s !! a with
  | Some i => (λ s', (tt, s')) <$> link_st a i s
  | None => None
  end.
Proof.
  unfold _item_link, link_st, _item_next_cas, item_set_cas, cc_memcpy, assoc_put,
    item_key_bytes, item_key, chunk_load, set_cas_item, key_of, key_idx,
    next_cas_val, next_cas_st, link_metrics.
  munfold.
  destruct (heap s !! a) as [i|] eqn:E; mrun; [|by destruct use_cas].
  destruct use_cas; mauto; rewrite ?insert_insert_eq; try done.
Qed.
Lemma unlink_eq a s :
  _item_unlink a s =
  match heap s !! a with
  | Some i => (λ s', (tt, s')) <$> unlink_st a i s
  | None => None
  end.
Proof.
  unfold _item_unlink, unlink_st, unlink_metrics, assoc_delete,
    item_key_bytes, item_key, chunk_load, key_of, key_idx.
  munfold.
  destruct (heap s !! a) as [i|] eqn:E; mrun; [|done].
  destruct (is_linked i) eqn:Hl; mrun; [|done].
  destruct (mem_read _ _ _) as [kb|] eqn:Hk; mrun; [|done].
  destruct (decide (refcount i = 0)); [|done].
  rewrite free_eq. mrun. done.
Qed.

Lemma get_eq key s :
  item_get key s =
  match assoc_find key (table s) with
  | None => Some (None, s)
  | Some a =>
      match heap s !! a with
      | None => None
      | Some i =>
          if decide (expired i s)
          then (λ s', (None, s')) <$> unlink_st a i s
          else Some (Some a, acquire_st a i s)
      end
  end.
Proof.
  unfold item_get, assoc_get, expired. munfold.
  destruct (assoc_find key (table s)) as [a|]; [|done].
  destruct (heap s !! a) as [i|] eqn:E; mrun; [|done].
  destruct (decide _).
  - rewrite unlink_eq, E. by destruct (unlink_st a i s).
  - by rewrite acquire_eq, E.
Qed.

Lemma rd_eq {A} (f : item → A) a s :
  rd f a s = match heap s !! a with Some i => Some (f i, s) | None => None end.
Proof. munfold. by destruct (heap s !! a). Qed.

Lemma wr_eq {A} (setf : A → item → item) a v s :
  wr setf a v s =
  match heap s !! a with
  | Some i => Some (tt, upd_item a (setf v i) s)
  | None => None
  end.
Proof. munfold. by destruct (heap s !! a). Qed.

Lemma memcpy_eq a off bs s :
  cc_memcpy a off bs s =
  match heap s !! a with
  | Some i => (λ e, (tt, upd_item a (set_end e i) s)) <$> mem_write (off - ITEM_HDR_SIZE) bs (end_ i)
  | None => None
  end.
Proof.
  unfold cc_memcpy. munfold.
  destruct (heap s !! a) as [i|] eqn:E; mrun; [|done].
  by destruct (mem_write _ _ _).
Qed.

Lemma chunk_load_eq a off len s :
  chunk_load a off len s =
  match heap s !! a with
  | Some i => (λ bs, (bs, s)) <$> mem_read (off - ITEM_HDR_SIZE) len (end_ i)
  | None => None
  end.
Proof.
  unfold chunk_load. munfold.
  destruct (heap s !! a) as [i|] eqn:E; mrun; [|done].
  by destruct (mem_read _ _ _).
Qed.

Lemma check_type_eq a s :
  item_check_type a s =
  match heap s !! a with
  | Some i => (λ bs, (tt, upd_item a (set_vtype (classify bs) i) s)) <$> value_of i
  | None => None
  end.
Proof.
  unfold item_check_type, item_data, chunk_load, value_of, data_off, classify. munfold.
  destruct (heap s !! a) as [i|] eqn:E; mrun; [|done].
  destruct (is_raligned i); mrun;
    (destruct (mem_read _ _ _) as [bs|]; mrun; [|done]);
    destruct (bstring_atou64 bs); mrun; done.
Qed.

(** [value_of] is what the code reads: [it->vlen] bytes at [item_data(it)]. *)
Lemma value_read_eq a s :
  (d ← item_data a; n ← rd vlen a; chunk_load a d n) s =
  match heap s !! a with
  | Some i => (λ bs, (bs, s)) <$> value_of i
  | None => None
  end.
Proof.
  unfold bind at 1. rewrite data_eq.
  destruct (heap s !! a) as [i|] eqn:E; [|done].
  unfold bind at 1. rewrite rd_eq, E. by rewrite chunk_load_eq, E.
Qed.

Lemma alloc_eq key exp nbyte s :
  item_alloc key exp nbyte s =
  let cid := slab_id (item_ntotal (blen key) nbyte use_cas) in
  if decide (cid = SLABCLASS_INVALID_ID) then Some ((ITEM_EOVERSIZED, None), s)
  else
    match default [] (free_itemq s !! cid) with
    | [] => Some ((ITEM_ENOMEM, None), metric_st m_item_req_ex 1 s)
    | a :: q =>
        match heap s !! a with
        | None => None
        | Some i =>
            (λ i', ((ITEM_OK, Some a), alloc_st a q cid i i' s)) <$> alloc_item key exp nbyte i
        end
    end.
Proof.
  unfold item_alloc. cbv zeta.
  destruct (decide _); [done|].
  unfold slab_get_item. unfold bind at 1. unfold bind at 1. unfold gets at 1.
  destruct (default [] _) as [|a q] eqn:Eq; [done|].
  unfold alloc_item, alloc_hdr, alloc_st, set_cas_item, key_idx.
  unfold _item_acquire_refcount, item_to_slab, slab_acquire_refcount,
    item_key, item_set_cas, cc_memcpy.
  munfold.
  destruct (heap s !! a) as [i|] eqn:E; mrun; [|done].
  destruct use_cas; mauto; rewrite ?insert_insert_eq; try done.
Qed.

(** ** Slab classes and the hash index *)

Lemma slab_id_from_fits sizes : ∀ i n c,
  slab_id_from i sizes n = c → c ≠ SLABCLASS_INVALID_ID →
  i <= c ∧ n <= nth (Z.to_nat (c - i)) sizes 0.
Proof.
  induction sizes as [|sz rest IH]; intros i n c; simpl; [congruence|].
  destruct (decide (n <= sz)) as [Hle|Hgt].
  - intros <- _. rewrite Z.sub_diag. simpl. lia.
  - intros Hc Hv. destruct (IH _ _ _ Hc Hv) as [Hi Hn]. split; [lia|].
    replace (Z.to_nat (c - i)) with (S (Z.to_nat (c - (i + 1)))) by lia.
    exact Hn.
Qed.

Lemma slab_id_fits n c :
  slab_id n = c → c ≠ SLABCLASS_INVALID_ID → n <= slab_item_size c.
Proof. intros H Hv. by destruct (slab_id_from_fits _ _ _ _ H Hv). Qed.

Lemma slab_id_from_oversized sizes : ∀ i n,
  Forall (λ sz, sz < n) sizes → slab_id_from i sizes n = SLABCLASS_INVALID_ID.
Proof.
  induction sizes as [|sz rest IH]; intros i n Hall; simpl; [done|].
  inversion Hall; subst. rewrite decide_False by lia. by apply IH.
Qed.

Lemma slab_id_oversized n :
  Forall (λ sz, sz < n) slabclass → slab_id n = SLABCLASS_INVALID_ID.
Proof. apply slab_id_from_oversized. Qed.

Lemma assoc_find_None k (t : list (list byte * Z)) :
  k ∉ t.*1 → assoc_find k t = None.
Proof.
  induction t as [|[k' a] t IH]; simpl; [done|].
  rewrite not_elem_of_cons. intros [Hne Hnin].
  rewrite decide_False by done. by apply IH.
Qed.

Lemma assoc_find_remove k (t : list (list byte * Z)) :
  NoDup t.*1 → assoc_find k (assoc_remove k t) = None.
Proof.
  induction t as [|[k' a] t IH]; simpl; [done|].
  rewrite NoDup_cons. intros [Hnin Hnd].
  destruct (decide (k' = k)) as [->|Hne].
  - by apply assoc_find_None.
  - simpl. rewrite decide_False by done. by apply IH.
Qed.

(** ** Frames *)

Lemma flag_eq_refl i : flag_eq i i.
Proof. by repeat split. Qed.

Lemma flag_eq_trans i j k : flag_eq i j → flag_eq j k → flag_eq i k.
Proof. unfold flag_eq. intuition congruence. Qed.

Lemma flag_eq_body_eq i j : flag_eq i j → body_eq i j.
Proof.
  unfold flag_eq, body_eq. intros (?&?&?&?&?&?&?&?&He).
  repeat split; try done. intros o l _. by rewrite He.
Qed.

Lemma body_eq_trans i j k : body_eq i j → body_eq j k → body_eq i k.
Proof.
  unfold body_eq. intros (?&?&Hc&?&?&?&?&?&He) (?&?&?&?&?&?&?&?&He').
  repeat split; try congruence.
  intros o l Ho. rewrite He by done. apply He'.
  unfold key_idx in *. by rewrite <- Hc.
Qed.

Lemma frame_refl R s : (∀ i, R i i) → frame R s s.
Proof. intros HR. repeat split. eauto. Qed.

Lemma frame_same R s s' :
  (∀ i, R i i) → heap s' = heap s → now s' = now s → cas_id s' = cas_id s →
  frame R s s'.
Proof. intros HR Hh Hn Hc. repeat split; [done..|]. rewrite Hh. eauto. Qed.

Lemma frame_trans R s1 s2 s3 :
  (∀ i j k, R i j → R j k → R i k) →
  frame R s1 s2 → frame R s2 s3 → frame R s1 s3.
Proof.
  intros HR (Hn&Hc&H) (Hn'&Hc'&H'). repeat split; [congruence..|].
  intros a i Hi. destruct (H _ _ Hi) as (j&Hj&Hij).
  destruct (H' _ _ Hj) as (k&Hk&Hjk). eauto.
Qed.

Lemma frame_weaken s s' : frame flag_eq s s' → frame body_eq s s'.
Proof.
  intros (Hn&Hc&H). repeat split; [done..|].
  intros a i Hi. destruct (H _ _ Hi) as (j&Hj&Hij). eauto using flag_eq_body_eq.
Qed.

Lemma frame_upd R a i i' s s' :
  (∀ j, R j j) → heap s !! a = Some i → R i i' →
  heap s' = <[a := i']> (heap s) → now s' = now s → cas_id s' = cas_id s →
  frame R s s'.
Proof.
  intros HR Hi Hii' Hh Hn Hc. repeat split; [done..|].
  intros b j Hj. rewrite Hh. destruct (decide (a = b)) as [->|Hne].
  - rewrite lookup_insert_eq. exists i'. split; [done|]. congruence.
  - rewrite lookup_insert_ne by done. eauto.
Qed.

Lemma acquire_frame a i s :
  heap s !! a = Some i → frame flag_eq s (acquire_st a i s).
Proof.
  intros Hi.
  apply (frame_upd flag_eq a i (set_refcount (wrap16 (refcount i + 1)) i) s _
           flag_eq_refl Hi); by repeat split.
Qed.

Lemma free_frame a i s :
  heap s !! a = Some i → frame flag_eq s (free_st a i s).
Proof.
  intros Hi.
  apply (frame_upd flag_eq a i (set_in_freeq true i) s _ flag_eq_refl Hi);
    by repeat split.
Qed.

Lemma release_frame a i s :
  heap s !! a = Some i → frame flag_eq s (release_st a i s).
Proof.
  intros Hi. unfold release_st, release_dec.
  destruct (decide (refcount i ≠ 0)).
  - eapply frame_trans; [apply flag_eq_trans| |].
    + apply (frame_upd flag_eq a i (set_refcount (wrap16 (refcount i - 1)) i) s
               (slab_refcount_add (a - offset i) (-1)
                  (upd_item a (set_refcount (wrap16 (refcount i - 1)) i) s))
               flag_eq_refl Hi); by repeat split.
    + destruct (_ && _); [|apply frame_refl, flag_eq_refl].
      apply free_frame. msimpl. by rewrite lookup_insert_eq.
  - destruct (_ && _); [|apply frame_refl, flag_eq_refl].
    by apply free_frame.
Qed.

Lemma release_table a i s : table (release_st a i s) = table s.
Proof.
  unfold release_st. by destruct (decide _), (_ && _).
Qed.

Lemma unlink_frame a i s s' :
  heap s !! a = Some i → unlink_st a i s = Some s' → frame flag_eq s s'.
Proof.
  intros Hi. unfold unlink_st.
  destruct (is_linked i).
  - destruct (key_of i) as [kb|]; [|done]. intros [= <-].
    eapply frame_trans; [apply flag_eq_trans| |].
    + apply (frame_upd flag_eq a i (set_is_linked false i) s
               (set_table (assoc_remove kb (table s))
                  (upd_item a (set_is_linked false i) (unlink_metrics i s)))
               flag_eq_refl Hi); by repeat split.
    + destruct (decide _); [|apply frame_refl, flag_eq_refl].
      apply free_frame. msimpl. by rewrite lookup_insert_eq.
  - intros [= <-]. by apply frame_same; [apply flag_eq_refl|..].
Qed.

Lemma get_frame k s r s' :
  item_get k s = Some (r, s') → frame flag_eq s s'.
Proof.
  rewrite get_eq. destruct (assoc_find k (table s)) as [a|].
  - destruct (heap s !! a) as [i|] eqn:Hi; [|done].
    destruct (decide _).
    + destruct (unlink_st a i s) as [s1|] eqn:Hu; [|done].
      intros [= <- <-]. eauto using unlink_frame.
    + intros [= <- <-]. by apply acquire_frame.
  - intros [= <- <-]. apply frame_refl, flag_eq_refl.
Qed.

(** ** Reference counting and freeing *)

Lemma wrap16_small z : 0 <= z <= UINT16_MAX → wrap16 z = z.
Proof. intros H. unfold wrap16, UINT16_MAX in *. apply Z.mod_small. lia. Qed.

Lemma wrap32_small z : 0 <= z <= UINT32_MAX → wrap32 z = z.
Proof. intros H. unfold wrap32, UINT32_MAX in *. apply Z.mod_small. lia. Qed.

Lemma wrap8_small z : 0 <= z <= UINT8_MAX → wrap8 z = z.
Proof. intros H. unfold wrap8, UINT8_MAX in *. apply Z.mod_small. lia. Qed.

Lemma item_ntotal_small kl vl cas :
  0 <= kl <= UINT8_MAX →
  item_ntotal kl vl cas = ITEM_HDR_SIZE + kl + vl + (if cas then 8 else 0).
Proof. intros H. unfold item_ntotal. by rewrite wrap8_small. Qed.

(** [item_ntotal] sees the key length modulo 256. *)
Lemma item_ntotal_wraps kl vl cas :
  item_ntotal (kl + 256) vl cas = item_ntotal kl vl cas.
Proof.
  unfold item_ntotal, wrap8. change (2 ^ 8) with 256.
  replace (kl + 256) with (kl + 1 * 256) by lia. by rewrite Z.mod_add.
Qed.

Lemma wrap64_range z : 0 <= wrap64 z <= UINT64_MAX.
Proof.
  unfold wrap64, UINT64_MAX.
  pose proof (Z.mod_pos_bound z (2 ^ 64)). lia.
Qed.

(** C4: releasing an item at [a] decrements its reference count and the
    count of its slab only when the count is positive; the chunk goes back
    to the slab allocator (the item is marked [in_freeq], queued on the free
    queue of its class, and [item_remove] is incremented) if and only if,
    after the decrement, the count is zero and the item is not linked.  An
    item that is linked or still borrowed is not freed. *)
Theorem release_frees_iff_unreferenced_and_unlinked a i s :
  heap s !! a = Some i →
  0 <= refcount i <= UINT16_MAX →
  ∃ s' i',
    _item_release_refcount a s = Some (tt, s') ∧ heap s' !! a = Some i' ∧
    is_linked i' = is_linked i ∧
    (0 < refcount i →
       refcount i' = refcount i - 1 ∧
       slab_refcount s' !! (a - offset i) =
         Some (wrap32 (default 0 (slab_refcount s !! (a - offset i)) - 1))) ∧
    (refcount i = 0 → refcount i' = 0 ∧ slab_refcount s' = slab_refcount s) ∧
    (item_remove (item_metrics s') = item_remove (item_metrics s) + 1 ↔
       refcount i' = 0 ∧ is_linked i = false) ∧
    (refcount i' = 0 ∧ is_linked i = false →
       in_freeq i' = true ∧
       free_itemq s' !! id i = Some (a :: default [] (free_itemq s !! id i))) ∧
    (0 < refcount i' ∨ is_linked i = true →
       in_freeq i' = in_freeq i ∧ free_itemq s' = free_itemq s ∧
       item_metrics s' = item_metrics s).
Proof.
  intros Hi Hr. rewrite release_eq, Hi. unfold release_st, release_dec.
  destruct (decide (refcount i ≠ 0)) as [Hnz|Hz].
  - msimpl. rewrite (wrap16_small (refcount i - 1)) by lia.
    destruct (bool_decide (refcount i - 1 = 0)) eqn:Hb;
      [apply bool_decide_eq_true in Hb|apply bool_decide_eq_false in Hb];
      destruct (is_linked i) eqn:Hl; cbn [andb negb];
      eexists _, _; (split; [reflexivity|]);
      unfold free_st; mrun; (split; [reflexivity|]); msimpl;
      repeat split; intros; try done; try lia; try (by intuition lia);
      try (by rewrite lookup_insert_eq).
  - assert (refcount i = 0) as Hz' by lia.
    rewrite bool_decide_eq_true_2 by done.
    destruct (is_linked i) eqn:Hl; cbn [andb negb];
      eexists _, _; (split; [reflexivity|]);
      unfold free_st; mrun; (split; [reflexivity|]); msimpl;
      repeat split; intros; try done; try lia; try (by intuition lia);
      try (by rewrite lookup_insert_eq).
Qed.

(** ** Oversized values *)

(** C7: when the total size of the item, [item_ntotal], exceeds the item
    size of every slab class, [item_set] returns ITEM_EOVERSIZED and the
    state it returns is the state it was called in: the hash index, the
    free queues of the slab allocator and the counters [item_req] and
    [item_req_ex] are all as before.  The total size is the one that
    [item_alloc] computes, from the key length as the [uint8_t] parameter
    of [item_ntotal] receives it, so the statement holds for keys of any
    length. *)
Theorem set_oversized_leaves_state k v e s :
  Forall (λ sz, sz < item_ntotal (blen k) (blen v) use_cas) slabclass →
  ∃ s',
    item_set k v e s = Some (ITEM_EOVERSIZED, s') ∧ s' = s ∧
    table s' = table s ∧ free_itemq s' = free_itemq s ∧ heap s' = heap s ∧
    item_req (item_metrics s') = item_req (item_metrics s) ∧
    item_req_ex (item_metrics s') = item_req_ex (item_metrics s).
Proof.
  intros Hbig. exists s. split; [|done].
  unfold item_set, bind.
  rewrite alloc_eq. cbv zeta.
  rewrite slab_id_oversized by done. by rewrite decide_True.
Qed.

(** ** Lazy expiration *)

(** C3: when the index entry of [k] is a linked item whose expiry time is
    set and not after the clock, [item_get] returns null, the item is
    unlinked (its [is_linked] bit is cleared and the index has no entry for
    [k] any more), the gauge [item_curr] is one less, and a second
    [item_get] returns null again. *)
Theorem get_expired_unlinks k a i s :
  assoc_find k (table s) = Some a →
  heap s !! a = Some i →
  is_linked i = true →
  key_of i = Some k →
  NoDup (table s).*1 →
  exptime i ≠ 0 →
  exptime i <= now s →
  ∃ s' i',
    item_get k s = Some (None, s') ∧
    heap s' !! a = Some i' ∧ is_linked i' = false ∧
    assoc_find k (table s') = None ∧
    item_curr (item_metrics s') = item_curr (item_metrics s) - 1 ∧
    item_get k s' = Some (None, s').
Proof.
  intros Hf Hi Hl Hk Hnd He1 He2.
  rewrite get_eq, Hf, Hi. rewrite decide_True by done.
  unfold unlink_st. rewrite Hl, Hk.
  assert (Hgone : assoc_find k (assoc_remove k (table s)) = None)
    by by apply assoc_find_remove.
  destruct (decide (refcount i = 0)); msimpl;
    eexists _, _; (split; [reflexivity|]); unfold free_st; mrun;
    (split; [reflexivity|]); msimpl;
    repeat split; try done; try lia;
    rewrite get_eq; msimpl; by rewrite Hgone.
Qed.

(** ** Delete *)

(** C9: [item_delete] returns ITEM_ENOTFOUND exactly when its [item_get]
    returns null (no index entry for the key, or an expired one), and
    ITEM_OK otherwise; in that case the item is unlinked and the reference
    taken by [item_get] is released again, so that the chunk is freed
    there and then when nobody else holds the item, and stays allocated,
    unlinked, until the other holders release it.  In every case the index
    has no entry for the key afterwards and [item_get] returns null. *)
Theorem delete_unlinks_and_releases k s :
  NoDup (table s).*1 →
  (∀ a, assoc_find k (table s) = Some a →
     ∃ i, heap s !! a = Some i ∧ is_linked i = true ∧ key_of i = Some k ∧
          0 <= refcount i < UINT16_MAX) →
  ∃ r s',
    item_delete k s = Some (r, s') ∧
    (r = ITEM_ENOTFOUND ↔ ∃ sg, item_get k s = Some (None, sg)) ∧
    (r = ITEM_ENOTFOUND → item_get k s = Some (None, s')) ∧
    (r ≠ ITEM_ENOTFOUND →
       r = ITEM_OK ∧
       ∃ a i i',
         assoc_find k (table s) = Some a ∧ heap s !! a = Some i ∧
         heap s' !! a = Some i' ∧
         is_linked i' = false ∧ refcount i' = refcount i ∧
         (refcount i = 0 →
            in_freeq i' = true ∧
            free_itemq s' !! id i = Some (a :: default [] (free_itemq s !! id i)) ∧
            item_remove (item_metrics s') = item_remove (item_metrics s) + 1) ∧
         (0 < refcount i →
            in_freeq i' = in_freeq i ∧ free_itemq s' = free_itemq s ∧
            item_remove (item_metrics s') = item_remove (item_metrics s))) ∧
    assoc_find k (table s') = None ∧
    item_get k s' = Some (None, s').
Proof.
  intros Hnd Hwf.
  assert (Hgone : assoc_find k (assoc_remove k (table s)) = None)
    by by apply assoc_find_remove.
  unfold item_delete, bind. rewrite get_eq.
  destruct (assoc_find k (table s)) as [a|] eqn:Hf.
  - destruct (Hwf a eq_refl) as (i&Hi&Hl&Hk&Hr). rewrite Hi.
    destruct (decide (expired i s)) as [He|He].
    + unfold unlink_st. rewrite Hl, Hk. cbn [fmap option_fmap option_map].
      eexists _, _. split; [reflexivity|].
      repeat split; eauto; try done.
      * by destruct (decide _).
      * rewrite get_eq. destruct (decide _); msimpl; by rewrite Hgone.
    + rewrite unlink_eq. unfold acquire_st at 1. mrun.
      unfold unlink_st, key_of, key_idx in *. msimpl. rewrite Hl, Hk.
      rewrite (wrap16_small (refcount i + 1)) by (unfold UINT16_MAX in *; lia).
      rewrite decide_False by lia. msimpl.
      rewrite release_eq. mrun.
      unfold release_st, release_dec. msimpl.
      destruct (decide (refcount i + 1 ≠ 0)); [|lia]. msimpl.
      rewrite (wrap16_small (refcount i + 1 - 1)) by (unfold UINT16_MAX in *; lia).
      replace (refcount i + 1 - 1) with (refcount i) by lia.
      destruct (bool_decide (refcount i = 0)) eqn:Hb;
        [apply bool_decide_eq_true in Hb|apply bool_decide_eq_false in Hb];
        cbn [andb negb]; eexists _, _; (split; [reflexivity|]).
      * split; [split; [done|by intros [? ?]]|]. split; [done|].
        split; [|unfold free_st; msimpl; split; [done|];
                 rewrite get_eq; msimpl; by rewrite Hgone].
        intros _. split; [done|]. exists a, i. eexists.
        unfold free_st. mrun. repeat split; try done; try lia;
          try (by rewrite lookup_insert_eq).
      * split; [split; [done|by intros [? ?]]|]. split; [done|].
        split; [|msimpl; split; [done|];
                 rewrite get_eq; msimpl; by rewrite Hgone].
        intros _. split; [done|]. exists a, i. eexists.
        mrun. repeat split; try done; try lia.
  - exists ITEM_ENOTFOUND, s. split; [done|].
    repeat split; eauto; try done; by rewrite get_eq, Hf.
Qed.

(** ** Compare-and-swap *)

(** C10: when the key is present and live, the token matches, and the
    allocation of the new item fails (the size fits no class:
    ITEM_EOVERSIZED; or the class has no free chunk: ITEM_ENOMEM),
    [item_cas] returns the allocation error and the old item keeps the
    reference that [item_get] took: its reference count, and the count of
    its slab, is one more than before the call. *)
Theorem cas_alloc_failure_keeps_reference k v e token a i s :
  assoc_find k (table s) = Some a →
  heap s !! a = Some i →
  ¬ expired i s →
  cas_of i = Some token →
  0 <= refcount i < UINT16_MAX →
  slab_id (item_ntotal (blen k) (blen v) use_cas) = SLABCLASS_INVALID_ID ∨
  default [] (free_itemq s !! slab_id (item_ntotal (blen k) (blen v) use_cas)) = [] →
  ∃ r s' i',
    item_cas k v e token s = Some (r, s') ∧
    r = (if decide (slab_id (item_ntotal (blen k) (blen v) use_cas) = SLABCLASS_INVALID_ID)
         then ITEM_EOVERSIZED else ITEM_ENOMEM) ∧
    heap s' !! a = Some i' ∧
    refcount i' = refcount i + 1 ∧
    slab_refcount s' !! (a - offset i) =
      Some (wrap32 (default 0 (slab_refcount s !! (a - offset i)) + 1)) ∧
    is_linked i' = is_linked i ∧ table s' = table s.
Proof.
  intros Hf Hi He Hc Hr Hfail.
  unfold item_cas. unfold bind at 1. rewrite get_eq, Hf, Hi.
  rewrite decide_False by done.
  unfold bind at 1. rewrite get_cas_eq. mrun.
  unfold cas_of in *. msimpl. rewrite Hc. msimpl.
  rewrite decide_False by (intros H; by apply H).
  unfold bind at 1. rewrite alloc_eq. cbv zeta.
  assert (Hw : wrap16 (refcount i + 1) = refcount i + 1)
    by (apply wrap16_small; unfold UINT16_MAX in *; lia).
  destruct (decide _) as [Hinv|Hinv].
  - eexists _, _, _. split; [reflexivity|]. mrun. by repeat split.
  - destruct Hfail as [?|Hq]; [done|]. msimpl. rewrite Hq.
    eexists _, _, _. split; [reflexivity|]. mrun. by repeat split.
Qed.

(** ** Update in place *)

Lemma item_slabid_fits kl vl c :
  0 <= kl <= UINT8_MAX → 0 <= vl <= UINT32_MAX →
  item_slabid kl vl = c → c ≠ SLABCLASS_INVALID_ID →
  ITEM_HDR_SIZE + kl + vl + (if use_cas then 8 else 0) <= slab_item_size c.
Proof.
  intros Hk Hv Hc Hval. unfold item_slabid in Hc.
  rewrite wrap8_small, wrap32_small in Hc by done.
  apply slab_id_fits in Hc; [|done]. by rewrite item_ntotal_small in Hc.
Qed.

(** C8: [item_update] returns ITEM_EOVERSIZED if and only if the slab
    class of the key length and the new value length differs from the class
    of the item, and then the state is untouched; otherwise it returns
    ITEM_OK, the item holds the new value, [vlen] is its length, [vtype] is
    its classification, and the CAS token, the key, the linkage and the
    hash index are as before. *)
Theorem update_in_place a i val s :
  heap s !! a = Some i →
  id i ≠ SLABCLASS_INVALID_ID →
  has_cas i = use_cas →
  0 <= klen i <= UINT8_MAX →
  blen val <= UINT32_MAX →
  blen (end_ i) = slab_item_size (id i) - ITEM_HDR_SIZE →
  ∃ r s',
    item_update a val s = Some (r, s') ∧
    (r = ITEM_EOVERSIZED ↔ item_slabid (klen i) (blen val) ≠ id i) ∧
    (r = ITEM_EOVERSIZED → s' = s) ∧
    (r ≠ ITEM_EOVERSIZED →
       r = ITEM_OK ∧
       ∃ i',
         heap s' !! a = Some i' ∧
         value_of i' = Some val ∧ vlen i' = blen val ∧ vtype i' = classify val ∧
         cas_of i' = cas_of i ∧ key_of i' = key_of i ∧
         is_linked i' = is_linked i ∧ refcount i' = refcount i ∧
         id i' = id i ∧ is_raligned i' = is_raligned i ∧
         table s' = table s ∧ cas_id s' = cas_id s).
Proof.
  intros Hi Hid Hcas Hkl Hvl Hlen.
  pose proof (blen_nonneg val) as Hv0.
  unfold item_update. unfold bind at 1. rewrite rd_eq, Hi.
  unfold bind at 1. rewrite rd_eq, Hi.
  destruct (decide (item_slabid (klen i) (blen val) ≠ id i)) as [Hne|Heq].
  { exists ITEM_EOVERSIZED, s. by repeat split. }
  assert (Hfit : item_slabid (klen i) (blen val) = id i)
    by (destruct (decide (item_slabid (klen i) (blen val) = id i)); done).
  apply item_slabid_fits in Hfit; [|lia|lia|done].
  unfold bind at 1. rewrite wr_eq, Hi.
  unfold bind at 1. rewrite data_eq. mrun.
  set (d := data_off (set_vlen (blen val) i)).
  assert (Hd : key_idx i + klen i <= d - ITEM_HDR_SIZE ∧
               d - ITEM_HDR_SIZE + blen val <= blen (end_ i)).
  { subst d. unfold data_off, key_idx. msimpl. rewrite Hcas, Hlen.
    destruct (is_raligned i), use_cas; lia. }
  assert (Hk0 : 0 <= key_idx i) by (unfold key_idx; destruct (has_cas i); lia).
  destruct (mem_write_is_Some (d - ITEM_HDR_SIZE) val (end_ i)) as [e' He'];
    [lia|lia|].
  unfold bind at 1. rewrite memcpy_eq. mrun. rewrite He'. msimpl.
  unfold bind at 1. rewrite check_type_eq. mrun.
  unfold value_of at 1. msimpl.
  change (data_off (set_end e' (set_vlen (blen val) i))) with d.
  rewrite (mem_read_write_eq _ _ _ _ He'). msimpl.
  exists ITEM_OK. eexists. split; [reflexivity|].
  split; [split; [done|intros Hne; by destruct Heq]|].
  split; [done|]. intros _. split; [done|].
  eexists. split; [mrun; reflexivity|].
  unfold value_of, cas_of, key_of, key_idx in *. msimpl.
  change (data_off (set_vtype (classify val) (set_end e' (set_vlen (blen val) i))))
    with d.
  rewrite (mem_read_write_eq _ _ _ _ He').
  destruct (has_cas i);
    rewrite ?(mem_read_write_ne _ _ _ _ 0 8 He') by lia;
    rewrite ?(mem_read_write_ne _ _ _ _ 8 (klen i) He') by lia;
    rewrite ?(mem_read_write_ne _ _ _ _ 0 (klen i) He') by lia;
    by repeat split.
Qed.

(** ** Append and prepend *)

Ltac mstep E := unfold bind at 1; rewrite E; mrun.

(** C5: appending to a live, linked, left-aligned item whose class also
    fits the longer value is done in place: [item_annex] returns ITEM_OK,
    the index and the free queues are untouched and no counter moves (no
    allocation, no relink), the same item is still linked under the key,
    its value is the old value followed by [v], [vlen] is the sum of the
    lengths, and its CAS token is the next value of the CAS counter. *)
Theorem annex_append_in_place k v a i ov s :
  assoc_find k (table s) = Some a →
  heap s !! a = Some i →
  is_linked i = true →
  ¬ expired i s →
  blen k <= UINT8_MAX →
  klen i = blen k →
  has_cas i = use_cas →
  blen (end_ i) = slab_item_size (id i) - ITEM_HDR_SIZE →
  id i ≠ SLABCLASS_INVALID_ID →
  0 <= refcount i < UINT16_MAX →
  value_of i = Some ov →
  vlen i + blen v <= UINT32_MAX →
  item_slabid (blen k) (vlen i + blen v) = id i →
  is_raligned i = false →
  ∃ s' i',
    item_annex k v true s = Some (ITEM_OK, s') ∧
    table s' = table s ∧ assoc_find k (table s') = Some a ∧
    heap s' !! a = Some i' ∧ is_linked i' = true ∧
    value_of i' = Some (ov ++ v) ∧ vlen i' = vlen i + blen v ∧
    cas_of i' = Some (next_cas_val s) ∧ cas_id s' = cas_id (next_cas_st s) ∧
    is_raligned i' = false ∧ id i' = id i ∧ key_of i' = key_of i ∧
    refcount i' = refcount i ∧ exptime i' = exptime i ∧
    free_itemq s' = free_itemq s ∧ item_metrics s' = item_metrics s ∧
    (∀ b, b ≠ a → heap s' !! b = heap s !! b).
Proof.
  intros Hf Hi Hl He Hk Hkl Hcas Hlen Hid Hr Hov Hsum Hslab Hra.
  pose proof (blen_nonneg v) as Hv0. pose proof (blen_nonneg k) as Hk0.
  pose proof (mem_read_bounds _ _ _ _ Hov) as (Hd0&Hvl0&Hdv).
  assert (Hfit : ITEM_HDR_SIZE + blen k + (vlen i + blen v) +
                 (if use_cas then 8 else 0) <= slab_item_size (id i))
    by (apply item_slabid_fits; [lia|lia|done|done]).
  assert (Hw16 : wrap16 (refcount i + 1) = refcount i + 1)
    by (apply wrap16_small; unfold UINT16_MAX in *; lia).
  assert (Hw32 : wrap32 (vlen i + blen v) = vlen i + blen v)
    by (apply wrap32_small; lia).
  unfold item_annex.
  unfold bind at 1. rewrite get_eq, Hf, Hi. rewrite decide_False by done.
  mstep (rd_eq vlen). rewrite Hw32, Hslab. rewrite decide_False by done.
  mstep (rd_eq id). mstep (rd_eq is_raligned). rewrite Hra.
  rewrite bool_decide_eq_true_2 by done. cbn [andb negb].
  mstep data_eq. unfold data_off. msimpl. rewrite Hra.
  unfold value_of, data_off in Hov, Hd0, Hdv. rewrite Hra in Hov, Hd0, Hdv.
  set (idx := klen i + (if has_cas i then 8 else 0)) in *.
  replace (ITEM_HDR_SIZE + klen i + (if has_cas i then 8 else 0) - ITEM_HDR_SIZE)
    with idx in Hov, Hd0, Hdv by (subst idx; lia).
  assert (Hidx : key_idx i + klen i = idx) by (unfold key_idx; subst idx; lia).
  assert (Hki : 0 <= key_idx i) by (unfold key_idx; destruct (has_cas i); lia).
  assert (Hroom : idx + vlen i + blen v <= blen (end_ i)).
  { rewrite Hlen. subst idx. rewrite Hkl, Hcas. lia. }
  destruct (mem_write_is_Some (idx + vlen i) v (end_ i)) as [e1 He1]; [lia|lia|].
  unfold bind at 1. rewrite memcpy_eq. mrun.
  replace (ITEM_HDR_SIZE + klen i + (if has_cas i then 8 else 0) + vlen i
           - ITEM_HDR_SIZE) with (idx + vlen i) by (subst idx; lia).
  rewrite He1. msimpl.
  mstep (wr_eq set_vlen).
  unfold bind at 1. rewrite next_cas_eq.
  unfold bind at 1. rewrite set_cas_eq.
  mrun. unfold next_cas_val at 1, set_cas_item. msimpl.
  assert (Hov1 : mem_read idx (vlen i) e1 = Some ov)
    by (rewrite (mem_read_write_ne _ _ _ _ _ _ He1) by lia; done).
  assert (Hv1 : mem_read (idx + vlen i) (blen v) e1 = Some v)
    by apply (mem_read_write_eq _ _ _ _ He1).
  pose proof (mem_write_blen _ _ _ _ He1) as Hl1.
  assert (Hrel : wrap16 (refcount i + 1 - 1) = refcount i)
    by (replace (refcount i + 1 - 1) with (refcount i) by lia;
        apply wrap16_small; unfold UINT16_MAX in *; lia).
  unfold key_idx in *.
  destruct (has_cas i) eqn:Hhc.
  - destruct (mem_write_is_Some 0 (encode_le 8 (if use_cas then wrap64 (cas_id s + 1) else 0)) e1)
      as [e2 He2]; [lia|rewrite blen_encode_le; subst idx; lia|].
    rewrite He2. msimpl.
    assert (Hval : mem_read idx (vlen i + blen v) e2 = Some (ov ++ v)).
    { rewrite (mem_read_write_ne _ _ _ _ _ _ He2)
        by (rewrite blen_encode_le; subst idx; lia).
      by apply mem_read_app. }
    mstep check_type_eq. unfold value_of at 1, data_off at 1. msimpl.
    rewrite Hra, Hhc.
    replace (ITEM_HDR_SIZE + klen i + 8 - ITEM_HDR_SIZE) with idx by (subst idx; lia).
    rewrite Hval. msimpl.
    mstep release_eq. unfold release_st, release_dec. msimpl.
    rewrite Hw16. destruct (decide (refcount i + 1 ≠ 0)); [|lia]. msimpl.
    rewrite Hrel, Hl. rewrite andb_false_r.
    eexists _, _. split; [reflexivity|]. msimpl.
    split; [done|]. split; [done|]. split; [by rewrite lookup_insert_eq|].
    unfold value_of, cas_of, key_of, key_idx, data_off, next_cas_val. msimpl.
    rewrite Hra, Hhc.
    replace (ITEM_HDR_SIZE + klen i + 8 - ITEM_HDR_SIZE) with idx by (subst idx; lia).
    rewrite Hval.
    replace 8 with (blen (encode_le 8 (if use_cas then wrap64 (cas_id s + 1) else 0))) at 1
      by apply blen_encode_le.
    rewrite (mem_read_write_eq _ _ _ _ He2). msimpl.
    rewrite decode_encode_u64
      by (destruct use_cas; [apply wrap64_range|unfold UINT64_MAX; lia]).
    rewrite (mem_read_write_ne _ _ _ _ 8 (klen i) He2)
      by (rewrite blen_encode_le; lia).
    rewrite (mem_read_write_ne _ _ _ _ 8 (klen i) He1) by (subst idx; lia).
    repeat split; try done.
    intros b Hb. by rewrite !lookup_insert_ne by done.
  - assert (Hval : mem_read idx (vlen i + blen v) e1 = Some (ov ++ v))
      by by apply mem_read_app.
    mstep check_type_eq. unfold value_of at 1, data_off at 1. msimpl.
    rewrite Hra, Hhc.
    replace (ITEM_HDR_SIZE + klen i + 0 - ITEM_HDR_SIZE) with idx by (subst idx; lia).
    rewrite Hval. msimpl.
    mstep release_eq. unfold release_st, release_dec. msimpl.
    rewrite Hw16. destruct (decide (refcount i + 1 ≠ 0)); [|lia]. msimpl.
    rewrite Hrel, Hl. rewrite andb_false_r.
    eexists _, _. split; [reflexivity|]. msimpl.
    split; [done|]. split; [done|]. split; [by rewrite lookup_insert_eq|].
    unfold value_of, cas_of, key_of, key_idx, data_off, next_cas_val. msimpl.
    rewrite Hra, Hhc.
    replace (ITEM_HDR_SIZE + klen i + 0 - ITEM_HDR_SIZE) with idx by (subst idx; lia).
    rewrite Hval. rewrite <- Hcas.
    rewrite (mem_read_write_ne _ _ _ _ 0 (klen i) He1) by (subst idx; lia).
    repeat split; try done.
    intros b Hb. by rewrite !lookup_insert_ne by done.
Qed.
(** The prepend fast path: a live, linked, right-aligned item whose class
    also fits the longer value receives the new bytes in front of its
    value, in place. *)
Lemma prepend_fast_path k v a i ov s :
  assoc_find k (table s) = Some a →
  heap s !! a = Some i →
  is_linked i = true →
  ¬ expired i s →
  blen k <= UINT8_MAX →
  klen i = blen k →
  has_cas i = use_cas →
  blen (end_ i) = slab_item_size (id i) - ITEM_HDR_SIZE →
  id i ≠ SLABCLASS_INVALID_ID →
  0 <= refcount i < UINT16_MAX →
  value_of i = Some ov →
  vlen i + blen v <= UINT32_MAX →
  item_slabid (blen k) (vlen i + blen v) = id i →
  is_raligned i = true →
  ∃ s' i',
    item_annex k v false s = Some (ITEM_OK, s') ∧
    table s' = table s ∧
    heap s' !! a = Some i' ∧ is_linked i' = true ∧
    value_of i' = Some (v ++ ov) ∧ vlen i' = vlen i + blen v ∧
    cas_of i' = Some (next_cas_val s) ∧
    is_raligned i' = true ∧ id i' = id i ∧ key_of i' = key_of i ∧
    refcount i' = refcount i ∧ exptime i' = exptime i ∧
    free_itemq s' = free_itemq s ∧ item_metrics s' = item_metrics s ∧
    now s' = now s ∧
    (∀ b, b ≠ a → heap s' !! b = heap s !! b).
Proof.
  intros Hf Hi Hl He Hk Hkl Hcas Hlen Hid Hr Hov Hsum Hslab Hra.
  pose proof (blen_nonneg v) as Hv0. pose proof (blen_nonneg k) as Hk0.
  pose proof (mem_read_bounds _ _ _ _ Hov) as (Hd0&Hvl0&Hdv).
  assert (Hfit : ITEM_HDR_SIZE + blen k + (vlen i + blen v) +
                 (if use_cas then 8 else 0) <= slab_item_size (id i))
    by (apply item_slabid_fits; [lia|lia|done|done]).
  assert (Hw16 : wrap16 (refcount i + 1) = refcount i + 1)
    by (apply wrap16_small; unfold UINT16_MAX in *; lia).
  assert (Hw32 : wrap32 (vlen i + blen v) = vlen i + blen v)
    by (apply wrap32_small; lia).
  unfold item_annex.
  unfold bind at 1. rewrite get_eq, Hf, Hi. rewrite decide_False by done.
  mstep (rd_eq vlen). rewrite Hw32, Hslab. rewrite decide_False by done.
  mstep (rd_eq id). mstep (rd_eq is_raligned). rewrite Hra.
  rewrite bool_decide_eq_true_2 by done. cbn [andb negb].
  mstep data_eq. unfold data_off. msimpl. rewrite Hra.
  unfold value_of, data_off in Hov, Hd0, Hdv. rewrite Hra in Hov, Hd0, Hdv.
  set (top := slab_item_size (id i) - ITEM_HDR_SIZE) in *.
  set (idx := top - vlen i - blen v).
  replace (slab_item_size (id i) - vlen i - ITEM_HDR_SIZE)
    with (idx + blen v) in Hov, Hd0, Hdv by (subst idx top; lia).
  assert (Hroom : klen i + (if has_cas i then 8 else 0) <= idx).
  { subst idx top. rewrite Hkl, Hcas. lia. }
  assert (Hc0 : 0 <= (if has_cas i then 8 else 0)) by (destruct (has_cas i); lia).
  destruct (mem_write_is_Some idx v (end_ i)) as [e1 He1]; [lia|lia|].
  unfold bind at 1. rewrite memcpy_eq. mrun.
  replace (slab_item_size (id i) - vlen i - blen v - ITEM_HDR_SIZE)
    with idx by (subst idx top; lia).
  rewrite He1. msimpl.
  mstep (wr_eq set_vlen).
  assert (Hov1 : mem_read (idx + blen v) (vlen i) e1 = Some ov)
    by (rewrite (mem_read_write_ne _ _ _ _ _ _ He1) by lia; done).
  assert (Hv1 : mem_read idx (blen v) e1 = Some v)
    by apply (mem_read_write_eq _ _ _ _ He1).
  assert (Hval : mem_read idx (vlen i + blen v) e1 = Some (v ++ ov))
    by (rewrite (Z.add_comm (vlen i)); by apply mem_read_app).
  pose proof (mem_write_blen _ _ _ _ He1) as Hl1.
  assert (Hrel : wrap16 (refcount i + 1 - 1) = refcount i)
    by (replace (refcount i + 1 - 1) with (refcount i) by lia;
        apply wrap16_small; unfold UINT16_MAX in *; lia).
  mstep check_type_eq. unfold value_of at 1, data_off at 1. msimpl.
  rewrite Hra.
  replace (slab_item_size (id i) - (vlen i + blen v) - ITEM_HDR_SIZE)
    with idx by (subst idx top; lia).
  rewrite Hval. msimpl.
  unfold bind at 1. rewrite next_cas_eq.
  unfold bind at 1. rewrite set_cas_eq. mrun.
  unfold next_cas_val at 1, set_cas_item. msimpl.
  destruct (has_cas i) eqn:Hhc.
  - destruct (mem_write_is_Some 0 (encode_le 8 (if use_cas then wrap64 (cas_id s + 1) else 0)) e1)
      as [e2 He2]; [lia|rewrite blen_encode_le; lia|].
    rewrite He2. msimpl.
    mstep release_eq. unfold release_st, release_dec. msimpl.
    rewrite Hw16. destruct (decide (refcount i + 1 ≠ 0)); [|lia]. msimpl.
    rewrite Hrel, Hl. rewrite andb_false_r.
    eexists _, _. split; [reflexivity|]. msimpl.
    split; [done|]. split; [by rewrite lookup_insert_eq|].
    unfold value_of, cas_of, key_of, key_idx, data_off, next_cas_val. msimpl.
    rewrite Hra, Hhc.
    replace (slab_item_size (id i) - (vlen i + blen v) - ITEM_HDR_SIZE)
      with idx by (subst idx top; lia).
    rewrite (mem_read_write_ne _ _ _ _ idx _ He2)
      by (rewrite blen_encode_le; lia).
    rewrite Hval.
    replace 8 with (blen (encode_le 8 (if use_cas then wrap64 (cas_id s + 1) else 0))) at 1
      by apply blen_encode_le.
    rewrite (mem_read_write_eq _ _ _ _ He2). msimpl.
    rewrite decode_encode_u64
      by (destruct use_cas; [apply wrap64_range|unfold UINT64_MAX; lia]).
    rewrite (mem_read_write_ne _ _ _ _ 8 (klen i) He2)
      by (rewrite blen_encode_le; lia).
    rewrite (mem_read_write_ne _ _ _ _ 8 (klen i) He1) by lia.
    repeat split; try done.
    intros b Hb. by rewrite !lookup_insert_ne by done.
  - mstep release_eq. unfold release_st, release_dec. msimpl.
    rewrite Hw16. destruct (decide (refcount i + 1 ≠ 0)); [|lia]. msimpl.
    rewrite Hrel, Hl. rewrite andb_false_r.
    eexists _, _. split; [reflexivity|]. msimpl.
    split; [done|]. split; [by rewrite lookup_insert_eq|].
    unfold value_of, cas_of, key_of, key_idx, data_off, next_cas_val. msimpl.
    rewrite Hra, Hhc.
    replace (slab_item_size (id i) - (vlen i + blen v) - ITEM_HDR_SIZE)
      with idx by (subst idx top; lia).
    rewrite Hval. rewrite <- Hcas.
    rewrite (mem_read_write_ne _ _ _ _ 0 (klen i) He1) by lia.
    repeat split; try done.
    intros b Hb. by rewrite !lookup_insert_ne by done.
Qed.

Lemma alloc_item_inv k exp n fi ni :
  blen k <= UINT8_MAX →
  alloc_item k exp n fi = Some ni →
  offset ni = offset fi ∧ id ni = id fi ∧ has_cas ni = use_cas ∧
  is_raligned ni = false ∧ klen ni = blen k ∧ vlen ni = n ∧ exptime ni = exp ∧
  refcount ni = wrap16 (refcount fi + 1) ∧ is_linked ni = is_linked fi ∧
  in_freeq ni = false ∧ vtype ni = vtype fi ∧
  blen (end_ ni) = blen (end_ fi) ∧ key_of ni = Some k.
Proof.
  intros Hk. pose proof (blen_nonneg k) as Hk0.
  unfold alloc_item, alloc_hdr, set_cas_item, key_of, key_idx. msimpl.
  rewrite (wrap8_small (blen k)) by lia.
  destruct (mem_write _ k (end_ fi)) as [e1|] eqn:He1; [|done]. msimpl.
  pose proof (mem_write_blen _ _ _ _ He1) as Hl1.
  pose proof (mem_read_write_eq _ _ _ _ He1) as Hr1.
  destruct use_cas.
  - destruct (mem_write 0 _ e1) as [e2|] eqn:He2; [|done]. msimpl.
    intros [= <-]. msimpl.
    pose proof (mem_write_blen _ _ _ _ He2) as Hl2.
    rewrite (mem_read_write_ne _ _ _ _ _ _ He2) by (rewrite blen_encode_le; lia).
    repeat split; try done. congruence.
  - intros [= <-]. msimpl. by repeat split.
Qed.

Lemma alloc_item_is_Some k exp n fi :
  (if use_cas then 8 else 0) + blen k <= blen (end_ fi) →
  is_Some (alloc_item k exp n fi).
Proof.
  intros Hroom. pose proof (blen_nonneg k) as Hk0.
  unfold alloc_item, alloc_hdr, set_cas_item, key_idx. msimpl.
  destruct (mem_write_is_Some (if use_cas then 8 else 0) k (end_ fi)) as [e1 He1];
    [by destruct use_cas|done|].
  rewrite He1. msimpl.
  pose proof (mem_write_blen _ _ _ _ He1) as Hl1.
  destruct use_cas; [|eauto].
  destruct (mem_write_is_Some 0 (encode_le 8 0) e1) as [e2 He2];
    [lia|rewrite blen_encode_le; lia|].
  rewrite He2. eauto.
Qed.

(** The prepend slow path, with the facts about the new item that a later
    prepend needs. *)
Lemma prepend_slow_path k v a i ov b q fi s :
  assoc_find k (table s) = Some a →
  heap s !! a = Some i →
  is_linked i = true →
  ¬ expired i s →
  blen k <= UINT8_MAX →
  key_of i = Some k →
  0 <= refcount i < UINT16_MAX →
  value_of i = Some ov →
  vlen i + blen v <= UINT32_MAX →
  ¬ (item_slabid (blen k) (vlen i + blen v) = id i ∧ is_raligned i = true) →
  item_slabid (blen k) (vlen i + blen v) ≠ SLABCLASS_INVALID_ID →
  free_itemq s !! item_slabid (blen k) (vlen i + blen v) = Some (b :: q) →
  heap s !! b = Some fi →
  b ≠ a →
  id fi = item_slabid (blen k) (vlen i + blen v) →
  blen (end_ fi) = slab_item_size (id fi) - ITEM_HDR_SIZE →
  0 <= refcount fi < UINT16_MAX →
  ∃ s' nit,
    item_annex k v false s = Some (ITEM_OK, s') ∧
    assoc_find k (table s') = Some b ∧
    heap s' !! b = Some nit ∧
    is_raligned nit = true ∧ is_linked nit = true ∧
    value_of nit = Some (v ++ ov) ∧ vlen nit = vlen i + blen v ∧
    data_off nit + vlen nit = slab_item_size (id nit) ∧
    id nit = id fi ∧ klen nit = blen k ∧ key_of nit = Some k ∧
    has_cas nit = use_cas ∧ end_len_ok nit ∧
    refcount nit = refcount fi ∧ exptime nit = exptime i ∧
    now s' = now s.
Proof.
  intros Hf Hi Hl He Hk Hkey Hr Hov Hsum Hslow Hval Hq Hfi Hba Hfid Hflen Hfr.
  pose proof (blen_nonneg v) as Hv0. pose proof (blen_nonneg k) as Hk0.
  pose proof (mem_read_bounds _ _ _ _ Hov) as (Hd0&Hvl0&Hdv).
  pose proof (mem_read_blen _ _ _ _ Hkey) as Hkl. symmetry in Hkl.
  set (total := vlen i + blen v) in *.
  set (c := item_slabid (blen k) total) in *.
  assert (Hfit : ITEM_HDR_SIZE + blen k + total +
                 (if use_cas then 8 else 0) <= slab_item_size c)
    by (apply item_slabid_fits; [lia|lia|done|done]).
  assert (Hw16 : wrap16 (refcount i + 1) = refcount i + 1)
    by (apply wrap16_small; unfold UINT16_MAX in *; lia).
  assert (Hw32 : wrap32 total = total) by (apply wrap32_small; lia).
  assert (Hw8 : wrap8 (blen k) = blen k) by (apply wrap8_small; lia).
  assert (Hc' : slab_id (item_ntotal (blen k) total use_cas) = c).
  { subst c. unfold item_slabid. by rewrite Hw8, Hw32. }
  unfold item_annex.
  unfold bind at 1. rewrite get_eq, Hf, Hi. rewrite decide_False by done.
  mstep (rd_eq vlen). fold total. rewrite Hw32. fold c. rewrite decide_False by done.
  mstep (rd_eq id). mstep (rd_eq is_raligned).
  assert (Hcond : bool_decide (c = id i) && is_raligned i = false).
  { destruct (bool_decide (c = id i)) eqn:Hb; [|done].
    apply bool_decide_eq_true in Hb. destruct (is_raligned i); [|done].
    by destruct Hslow. }
  rewrite Hcond. mstep (rd_eq exptime).
  unfold bind at 1. rewrite alloc_eq. cbv zeta. rewrite Hc'.
  rewrite decide_False by done. mrun. rewrite Hq. mrun.
  destruct (alloc_item_is_Some k (exptime i) total fi) as [ni Hni];
    [rewrite Hflen, Hfid; fold total; fold c; destruct use_cas; lia|].
  rewrite Hni. msimpl.
  destruct (alloc_item_inv _ _ _ _ _ Hk Hni)
    as (Hno&Hnid&Hncas&Hnra&Hnkl&Hnvl&Hnexp&Hnrc&Hnl&Hnfq&Hnvt&Hnlen&Hnkey).
  mstep (wr_eq set_is_raligned).
  mstep data_eq. unfold data_off at 1. msimpl.
  mstep data_eq. mstep (rd_eq vlen).
  mstep chunk_load_eq. unfold value_of in Hov.
  change (data_off (set_refcount (wrap16 (refcount i + 1)) i)) with (data_off i).
  rewrite Hov. msimpl.
  pose proof (mem_read_blen _ _ _ _ Hov) as Hovl.
  rewrite Hnid, Hnvl, Hfid. fold total. fold c.
  set (top := slab_item_size c - ITEM_HDR_SIZE).
  set (idx := top - total).
  assert (Hc0 : 0 <= (if use_cas then 8 else 0)) by (destruct use_cas; lia).
  assert (Hroom : (if use_cas then 8 else 0) + blen k <= idx)
    by (subst idx top; lia).
  assert (Hlen_ni : blen (end_ ni) = top)
    by (rewrite Hnlen, Hflen, Hfid; done).
  destruct (mem_write_is_Some (idx + blen v) ov (end_ ni)) as [e1 He1];
    [lia|subst idx total; lia|].
  unfold bind at 1. rewrite memcpy_eq. mrun.
  replace (slab_item_size c - total + blen v - ITEM_HDR_SIZE)
    with (idx + blen v) by (subst idx top; lia).
  rewrite He1. msimpl.
  pose proof (mem_write_blen _ _ _ _ He1) as Hl1.
  mstep data_eq. unfold data_off at 1. msimpl. rewrite Hnid, Hnvl, Hfid.
  fold total. fold c.
  destruct (mem_write_is_Some idx v e1) as [e2 He2]; [lia|subst idx total; lia|].
  unfold bind at 1. rewrite memcpy_eq. mrun.
  replace (slab_item_size c - total - ITEM_HDR_SIZE) with idx by (subst idx top; lia).
  rewrite He2. msimpl.
  pose proof (mem_write_blen _ _ _ _ He2) as Hl2.
  assert (Hval2 : mem_read idx total e2 = Some (v ++ ov)).
  { subst total. rewrite (Z.add_comm (vlen i)). apply mem_read_app.
    - apply (mem_read_write_eq _ _ _ _ He2).
    - rewrite (mem_read_write_ne _ _ _ _ _ _ He2) by lia.
      rewrite <- Hovl. apply (mem_read_write_eq _ _ _ _ He1). }
  assert (Hkey2 : mem_read (if use_cas then 8 else 0) (blen k) e2 = Some k).
  { rewrite (mem_read_write_ne _ _ _ _ _ _ He2) by lia.
    rewrite (mem_read_write_ne _ _ _ _ _ _ He1) by lia.
    unfold key_of, key_idx in Hnkey. by rewrite Hncas, Hnkl in Hnkey. }
  mstep check_type_eq. unfold value_of at 1, data_off at 1. msimpl.
  rewrite Hnid, Hnvl, Hfid. fold total. fold c.
  replace (slab_item_size c - total - ITEM_HDR_SIZE) with idx by (subst idx top; lia).
  rewrite Hval2. msimpl.
  unfold _item_relink.
  unfold bind at 1. unfold bind at 1. rewrite unlink_eq. mrun.
  unfold unlink_st at 1. msimpl. rewrite Hl.
  unfold key_of, key_idx in Hkey |- *. msimpl. rewrite Hkey.
  rewrite Hw16. rewrite decide_False by lia. msimpl.
  rewrite link_eq. mrun.
  unfold link_st, set_cas_item, key_of, key_idx. msimpl.
  rewrite Hncas.
  assert (Hrel : wrap16 (refcount i + 1 - 1) = refcount i)
    by (replace (refcount i + 1 - 1) with (refcount i) by lia;
        apply wrap16_small; unfold UINT16_MAX in *; lia).
  assert (Hnrc' : refcount ni = refcount fi + 1)
    by (rewrite Hnrc; apply wrap16_small; unfold UINT16_MAX in *; lia).
  assert (Hrelb : wrap16 (refcount ni - 1) = refcount fi)
    by (rewrite Hnrc'; replace (refcount fi + 1 - 1) with (refcount fi) by lia;
        apply wrap16_small; unfold UINT16_MAX in *; lia).
  destruct use_cas eqn:Huc.
  - set (cv := next_cas_val _).
    destruct (mem_write_is_Some 0 (encode_le 8 cv) e2) as [e3 He3];
      [lia|rewrite blen_encode_le; lia|].
    rewrite He3. msimpl. rewrite Hncas, Hnkl.
    pose proof (mem_write_blen _ _ _ _ He3) as Hl3.
    rewrite (mem_read_write_ne _ _ _ _ _ _ He3) by (rewrite blen_encode_le; lia).
    rewrite Hkey2. msimpl.
    mstep release_eq. unfold release_st at 1, release_dec. msimpl.
    destruct (decide (refcount i + 1 ≠ 0)); [|lia]. msimpl. rewrite Hrel.
    rewrite andb_true_r.
    assert (Hidx8 : 8 <= idx) by lia.
    destruct (bool_decide (refcount i = 0));
      (mstep release_eq; unfold release_st at 1, release_dec; msimpl;
       (destruct (decide (refcount ni ≠ 0)); [|lia]); msimpl;
       rewrite Hrelb; rewrite andb_false_r;
       eexists _, _; (split; [reflexivity|]); msimpl;
       (split; [cbn [assoc_find]; by rewrite decide_True by done|]);
       (split; [mrun; reflexivity|]);
       unfold value_of, data_off, key_of, key_idx, end_len_ok; msimpl;
       rewrite Hnid, Hnvl, Hnkl, Hncas, Hfid; fold total; fold c;
       replace (slab_item_size c - total - ITEM_HDR_SIZE) with idx
         by (subst idx top; lia);
       rewrite !(mem_read_write_ne _ _ _ _ _ _ He3)
         by (rewrite blen_encode_le; lia);
       rewrite Hval2, Hkey2;
       repeat split; try done; lia).
  - msimpl. rewrite Hncas, Hnkl, Hkey2. msimpl.
    mstep release_eq. unfold release_st at 1, release_dec. msimpl.
    destruct (decide (refcount i + 1 ≠ 0)); [|lia]. msimpl. rewrite Hrel.
    rewrite andb_true_r.
    destruct (bool_decide (refcount i = 0));
      (mstep release_eq; unfold release_st at 1, release_dec; msimpl;
       (destruct (decide (refcount ni ≠ 0)); [|lia]); msimpl;
       rewrite Hrelb; rewrite andb_false_r;
       eexists _, _; (split; [reflexivity|]); msimpl;
       (split; [cbn [assoc_find]; by rewrite decide_True by done|]);
       (split; [mrun; reflexivity|]);
       unfold value_of, data_off, key_of, key_idx, end_len_ok; msimpl;
       rewrite Hnid, Hnvl, Hnkl, Hncas, Hfid; fold total; fold c;
       replace (slab_item_size c - total - ITEM_HDR_SIZE) with idx
         by (subst idx top; lia);
       rewrite Hval2, Hkey2;
       repeat split; try done; lia).
Qed.
(** C6 (amended): when the key is held by a live, linked item, the
    prepend fast-path condition fails, the longer value fits a slab class
    and the allocator has a free chunk of that class, [item_annex] with
    [append = false] returns ITEM_OK; the chunk becomes the item linked
    under the key, right-aligned, with the value [v ++ ov] in the tail of
    the chunk.  A further prepend that stays in the class of the new item
    then takes the fast path (the index, the free queues and the counters
    are untouched), and [item_get] returns the item with the value
    [v2 ++ v ++ ov]. *)
Theorem annex_prepend_realigns k v a i ov b q fi s :
  assoc_find k (table s) = Some a →
  heap s !! a = Some i →
  is_linked i = true →
  ¬ expired i s →
  blen k <= UINT8_MAX →
  key_of i = Some k →
  0 <= refcount i < UINT16_MAX →
  value_of i = Some ov →
  vlen i + blen v <= UINT32_MAX →
  ¬ (item_slabid (blen k) (vlen i + blen v) = id i ∧ is_raligned i = true) →
  item_slabid (blen k) (vlen i + blen v) ≠ SLABCLASS_INVALID_ID →
  free_itemq s !! item_slabid (blen k) (vlen i + blen v) = Some (b :: q) →
  heap s !! b = Some fi →
  b ≠ a →
  id fi = item_slabid (blen k) (vlen i + blen v) →
  blen (end_ fi) = slab_item_size (id fi) - ITEM_HDR_SIZE →
  0 <= refcount fi < UINT16_MAX →
  ∃ s' nit,
    item_annex k v false s = Some (ITEM_OK, s') ∧
    assoc_find k (table s') = Some b ∧
    heap s' !! b = Some nit ∧
    is_raligned nit = true ∧ is_linked nit = true ∧
    value_of nit = Some (v ++ ov) ∧ vlen nit = vlen i + blen v ∧
    data_off nit + vlen nit = slab_item_size (id nit) ∧
    id nit = id fi ∧
    ∀ v2,
      vlen nit + blen v2 <= UINT32_MAX →
      item_slabid (blen k) (vlen nit + blen v2) = id nit →
      ∃ s2 s3 nit2,
        item_annex k v2 false s' = Some (ITEM_OK, s2) ∧
        table s2 = table s' ∧ free_itemq s2 = free_itemq s' ∧
        item_metrics s2 = item_metrics s' ∧
        item_get k s2 = Some (Some b, s3) ∧
        heap s3 !! b = Some nit2 ∧
        value_of nit2 = Some (v2 ++ v ++ ov).
Proof.
  intros Hf Hi Hl He Hk Hkey Hr Hov Hsum Hslow Hval Hq Hfi Hba Hfid Hflen Hfr.
  destruct (prepend_slow_path k v a i ov b q fi s) as
    (s'&nit&Hrun&Hf'&Hn&Hra&Hnl&Hnv&Hnvl&Htail&Hnid&Hnkl&Hnkey&Hncas&Hnlen&Hnrc&Hnexp&Hnow);
    try done.
  exists s', nit. do 9 (split; [done|]).
  intros v2 Hsum2 Hslab2.
  destruct (prepend_fast_path k v2 b nit (v ++ ov) s') as
    (s2&i2&Hrun2&Ht2&Hh2&Hl2&Hv2&Hvl2&_&Hra2&Hid2&Hk2&Hrc2&Hexp2&Hfq2&Hm2&Hnow2&_);
    try done.
  { unfold expired in *. by rewrite Hnexp, Hnow. }
  { congruence. }
  { lia. }
  exists s2, (acquire_st b i2 s2), (set_refcount (wrap16 (refcount i2 + 1)) i2).
  do 4 (split; [done|]).
  split.
  - rewrite get_eq, Ht2, Hf', Hh2. rewrite decide_False; [done|].
    unfold expired in *. by rewrite Hexp2, Hnexp, Hnow2, Hnow.
  - split; [msimpl; by rewrite lookup_insert_eq|]. done.
Qed.

(** ** Set, get and compare-and-swap *)

Lemma pre_holds_body_eq k n e i j :
  body_eq i j → pre_holds k n e i → pre_holds k n e j.
Proof.
  intros (?&?&Hc&?&Hkl&?&?&?&Hrd) (?&?&?&?&?&Hkey).
  unfold pre_holds, key_of, key_idx in *.
  repeat split; try congruence.
  rewrite <- Hc, <- Hkl, <- Hrd; [done|lia].
Qed.

Lemma holds_body_eq k v e i j :
  body_eq i j → holds k v e i → holds k v e j.
Proof.
  intros Hb [Hp Hv]. split; [by eapply pre_holds_body_eq|].
  destruct Hb as (?&?&Hc&Hra&Hkl&Hvl&?&?&Hrd).
  destruct Hp as (?&Hra'&Hkl'&?&?&?).
  unfold value_of, data_off, key_idx in *.
  rewrite <- Hra, <- Hvl, <- Hkl, <- Hc. rewrite Hra' in *.
  rewrite <- Hrd; [done|]. pose proof (blen_nonneg k). lia.
Qed.

Lemma cas_of_flag_eq i j : flag_eq i j → cas_of j = cas_of i.
Proof.
  intros (?&?&Hc&?&?&?&?&?&He). unfold cas_of. by rewrite Hc, He.
Qed.

Lemma release_inv a s s' :
  _item_release_refcount a s = Some (tt, s') →
  frame flag_eq s s' ∧ table s' = table s.
Proof.
  rewrite release_eq. destruct (heap s !! a) as [i|] eqn:Hi; [|done].
  intros [= <-]. split; [by apply release_frame|apply release_table].
Qed.

Lemma unlink_inv a s s' :
  _item_unlink a s = Some (tt, s') → frame flag_eq s s'.
Proof.
  rewrite unlink_eq. destruct (heap s !! a) as [i|] eqn:Hi; [|done].
  destruct (unlink_st a i s) as [s1|] eqn:Hu; [|done].
  intros [= <-]. by eapply unlink_frame.
Qed.

Lemma alloc_inv k e n s p s' :
  blen k <= UINT8_MAX →
  item_alloc k e n s = Some ((ITEM_OK, p), s') →
  ∃ a ni, p = Some a ∧ heap s' !! a = Some ni ∧ pre_holds k n e ni ∧
          now s' = now s ∧ cas_id s' = cas_id s.
Proof.
  intros Hk. rewrite alloc_eq. cbv zeta.
  destruct (decide _); [done|].
  destruct (default [] _) as [|a q]; [done|].
  destruct (heap s !! a) as [fi|] eqn:Hfi; [|done].
  destruct (alloc_item k e n fi) as [ni|] eqn:Hni; [|done].
  intros [= <- <-]. exists a, ni. split; [done|].
  split; [msimpl; by rewrite lookup_insert_eq|].
  destruct (alloc_item_inv _ _ _ _ _ Hk Hni) as (?&?&?&?&?&?&?&?&?&?&?&?&?).
  by repeat split.
Qed.

Lemma set_cas_inv a c s s' k n e ni :
  item_set_cas a c s = Some (tt, s') →
  heap s !! a = Some ni → pre_holds k n e ni →
  ∃ ni', heap s' !! a = Some ni' ∧ pre_holds k n e ni' ∧
         now s' = now s ∧ cas_id s' = cas_id s.
Proof.
  rewrite set_cas_eq. intros H Hni Hp. rewrite Hni in H.
  unfold set_cas_item in H.
  destruct (has_cas ni) eqn:Hc.
  - destruct (mem_write 0 _ (end_ ni)) as [e'|] eqn:He'; [|done].
    cbn in H. injection H as <-.
    exists (set_end e' ni). split; [msimpl; by rewrite lookup_insert_eq|].
    split; [|done].
    eapply pre_holds_body_eq; [|done].
    repeat split; try done. intros o l Ho. msimpl.
    unfold key_idx in Ho. rewrite Hc in Ho.
    symmetry. apply (mem_read_write_ne _ _ _ _ _ _ He').
    rewrite blen_encode_le. lia.
  - injection H as <-. eauto.
Qed.

Lemma store_value_inv a v s d s1 s2 s3 k e ni :
  item_data a s = Some (d, s1) →
  cc_memcpy a d v s1 = Some (tt, s2) →
  item_check_type a s2 = Some (tt, s3) →
  heap s !! a = Some ni → pre_holds k (blen v) e ni →
  ∃ x, heap s3 !! a = Some x ∧ holds k v e x ∧
       now s3 = now s ∧ cas_id s3 = cas_id s.
Proof.
  rewrite data_eq. intros H1 H2 H3 Hni Hp.
  rewrite Hni in H1. injection H1 as <- <-.
  rewrite memcpy_eq, Hni in H2.
  destruct (mem_write _ v (end_ ni)) as [e1|] eqn:He1; [|done].
  cbn in H2. injection H2 as <-.
  rewrite check_type_eq in H3. revert H3. mrun.
  destruct (value_of (set_end e1 ni)) as [bs|] eqn:Hbs; [|done].
  cbn. intros [= <-].
  eexists. split; [msimpl; by rewrite lookup_insert_eq|].
  split; [|done].
  destruct Hp as (Hc&Hra&Hkl&Hvl&Hexp&Hkey).
  pose proof (mem_read_write_eq _ _ _ _ He1) as Hrw.
  pose proof (blen_nonneg k) as Hk0.
  unfold holds, pre_holds, value_of, key_of, key_idx, data_off in *.
  revert Hbs Hrw. msimpl. rewrite Hra, Hvl. intros Hbs Hrw.
  repeat split; try done.
  rewrite (mem_read_write_ne _ _ _ _ _ _ He1); [done|].
  left. rewrite Hra. destruct (has_cas ni); lia.
Qed.

Lemma next_cas_val_range s : 0 <= next_cas_val s <= UINT64_MAX.
Proof.
  unfold next_cas_val. destruct use_cas; [apply wrap64_range|].
  unfold UINT64_MAX. lia.
Qed.

Lemma link_inv a s s' x k v e :
  _item_link a s = Some (tt, s') →
  heap s !! a = Some x → holds k v e x →
  table s' = (k, a) :: table s ∧ now s' = now s ∧
  holds_at a k v e (next_cas_val s) s'.
Proof.
  rewrite link_eq. intros H Hx Hh. rewrite Hx in H. unfold link_st in H.
  destruct (set_cas_item _ _) as [y|] eqn:Hy; [|done].
  destruct (key_of y) as [kb|] eqn:Hkb; [|done].
  cbn in H. injection H as <-.
  assert (Hxy : body_eq x y ∧ cas_of y = Some (next_cas_val s)).
  { unfold set_cas_item in Hy. revert Hy. msimpl.
    destruct (has_cas x) eqn:Hc.
    - destruct (mem_write 0 _ (end_ x)) as [e'|] eqn:He'; [|done].
      cbn. intros [= <-]. split.
      + repeat split; try done. intros o l Ho. msimpl.
        unfold key_idx in Ho. rewrite Hc in Ho.
        symmetry. apply (mem_read_write_ne _ _ _ _ _ _ He').
        rewrite blen_encode_le. lia.
      + unfold cas_of. msimpl. rewrite Hc.
        pose proof (mem_read_write_eq _ _ _ _ He') as Hr.
        rewrite blen_encode_le in Hr. change (Z.of_nat 8) with 8 in Hr.
        rewrite Hr. msimpl.
        by rewrite decode_encode_u64 by apply next_cas_val_range.
    - intros [= <-]. split; [by repeat split|].
      unfold cas_of. msimpl. rewrite Hc.
      destruct Hh as [(Hcas&_) _]. unfold next_cas_val.
      by rewrite <- Hcas, Hc. }
  destruct Hxy as [Hxy Hcas].
  pose proof (holds_body_eq _ _ _ _ _ Hxy Hh) as Hhy.
  assert (kb = k) as ->.
  { destruct Hhy as [(_&_&_&_&_&Hk) _]. congruence. }
  split; [done|]. split; [done|].
  exists y. split; [msimpl; by rewrite lookup_insert_eq|]. done.
Qed.

Lemma frame_holds_at a k v e c s s' :
  frame flag_eq s s' → holds_at a k v e c s → holds_at a k v e c s'.
Proof.
  intros (_&_&Hf) (y&Hy&Hh&Hc).
  destruct (Hf _ _ Hy) as (y'&Hy'&Hyy').
  exists y'. split; [done|]. split.
  - eapply holds_body_eq; [|done]. by apply flag_eq_body_eq.
  - by rewrite (cas_of_flag_eq _ _ Hyy').
Qed.

Lemma ret_inv {A} (x y : A) s s' : ret x s = Some (y, s') → x = y ∧ s = s'.
Proof. by intros [= -> ->]. Qed.

(** What [item_set] leaves behind when it returns ITEM_OK: the index maps
    the key to an item that holds the key and the value, with the next
    value of the CAS counter as its token. *)
Lemma set_inv k v e s s1 :
  blen k <= UINT8_MAX →
  item_set k v e s = Some (ITEM_OK, s1) →
  ∃ a, assoc_find k (table s1) = Some a ∧ now s1 = now s ∧
       holds_at a k v e (next_cas_val s) s1.
Proof.
  intros Hk H. unfold item_set in H.
  apply bind_inv in H as ([st p]&sA&Ha&H).
  destruct st; try (by apply ret_inv in H as [? _]).
  destruct (alloc_inv _ _ _ _ _ _ Hk Ha) as (a&ni&->&Hni&Hp&HnA&HcA).
  apply bind_inv in H as (d&s1'&Hd&H).
  apply bind_inv in H as ([]&s2'&Hm&H).
  apply bind_inv in H as ([]&sC&Hct&H).
  destruct (store_value_inv _ _ _ _ _ _ _ _ _ _ Hd Hm Hct Hni Hp)
    as (x&Hx&Hh&HnC&HcC).
  apply bind_inv in H as (oit&sD&Hget&H).
  pose proof (get_frame _ _ _ _ Hget) as HfD.
  destruct HfD as (HnD&HcD&HfD).
  destruct (HfD _ _ Hx) as (x'&Hx'&Hxx').
  assert (Hh' : holds k v e x')
    by (eapply holds_body_eq; [by apply flag_eq_body_eq|done]).
  assert (Hcv : next_cas_val sD = next_cas_val s)
    by (unfold next_cas_val; by rewrite HcD, HcC, HcA).
  apply bind_inv in H as ([]&sF&Hlink&H).
  apply bind_inv in H as ([]&sG&Hrel&H).
  apply ret_inv in H as [_ <-].
  apply release_inv in Hrel as [HfG HtG].
  assert (Hpost : (∃ t', table sF = (k, a) :: t') ∧ now sF = now sD ∧
                  holds_at a k v e (next_cas_val s) sF).
  { destruct oit as [o|].
    - apply bind_inv in Hlink as ([]&sE&Hrl&Hro).
      unfold _item_relink in Hrl.
      apply bind_inv in Hrl as ([]&sE0&Hun&Hli).
      pose proof (unlink_inv _ _ _ Hun) as (HnE0&HcE0&HfE0).
      destruct (HfE0 _ _ Hx') as (x''&Hx''&Hxx'').
      assert (Hh'' : holds k v e x'')
        by (eapply holds_body_eq; [by apply flag_eq_body_eq|done]).
      destruct (link_inv _ _ _ _ _ _ _ Hli Hx'' Hh'') as (Ht&Hn&Hat).
      apply release_inv in Hro as [HfF HtF].
      split; [rewrite HtF, Ht; eauto|].
      split; [destruct HfF as (->&_); congruence|].
      eapply frame_holds_at; [done|].
      replace (next_cas_val s) with (next_cas_val sE0); [done|].
      rewrite <- Hcv. unfold next_cas_val. by rewrite HcE0.
    - destruct (link_inv _ _ _ _ _ _ _ Hlink Hx' Hh') as (Ht&Hn&Hat).
      split; [rewrite Ht; eauto|].
      split; [done|]. by rewrite <- Hcv. }
  destruct Hpost as ((t'&Ht)&Hn&Hat).
  exists a. split; [rewrite HtG, Ht; cbn [assoc_find]; by rewrite decide_True|].
  split; [destruct HfG as (->&_); congruence|].
  by eapply frame_holds_at.
Qed.

(** C1: when [item_set] returns ITEM_OK, an [item_get] of the same key
    that follows it, at any clock value [t] at which the expiry time [e]
    has not elapsed, returns an item; the value of the item is [v] and its
    [vlen] is the length of [v]. *)
Theorem set_then_get k v e s s1 t :
  blen k <= UINT8_MAX →
  item_set k v e s = Some (ITEM_OK, s1) →
  ¬ (e ≠ 0 ∧ e <= t) →
  ∃ a i s2,
    item_get k (set_now t s1) = Some (Some a, s2) ∧
    heap s2 !! a = Some i ∧
    value_of i = Some v ∧ vlen i = blen v.
Proof.
  intros Hk Hset Ht.
  destruct (set_inv _ _ _ _ _ Hk Hset) as (a&Hf&_&y&Hy&Hh&_).
  exists a, (set_refcount (wrap16 (refcount y + 1)) y),
         (acquire_st a y (set_now t s1)).
  destruct Hh as [(Hc&Hra&Hkl&Hvl&Hexp&Hkey) Hv].
  split.
  - rewrite get_eq. msimpl. rewrite Hf, Hy.
    rewrite decide_False; [done|]. unfold expired. msimpl. by rewrite Hexp.
  - split; [msimpl; by rewrite lookup_insert_eq|]. done.
Qed.

Lemma get_cas_inv o s c s' :
  item_get_cas o s = Some (c, s') →
  s' = s ∧ ∃ i, heap s !! o = Some i ∧ cas_of i = Some c.
Proof.
  rewrite get_cas_eq. destruct (heap s !! o) as [i|]; [|done].
  destruct (cas_of i) as [c'|] eqn:Hc; [|done].
  cbn. intros [= <- <-]. eauto.
Qed.

Lemma get_inv_Some k s o s' :
  item_get k s = Some (Some o, s') →
  ∃ i, assoc_find k (table s) = Some o ∧ heap s !! o = Some i ∧
       ¬ expired i s ∧ s' = acquire_st o i s.
Proof.
  rewrite get_eq. destruct (assoc_find k (table s)) as [a|]; [|done].
  destruct (heap s !! a) as [i|] eqn:Hi; [|done].
  destruct (decide (expired i s)).
  - by destruct (unlink_st a i s).
  - intros [= <- <-]. eauto.
Qed.

(** C2 (amended): when [item_cas] returns ITEM_OK, the key was held by a
    live item whose stored CAS token is the supplied [token], and the index
    now maps the key to an item that holds [v] and whose stored CAS token
    is the next value generated from the CAS counter (the counter plus one
    when CAS is in use, 0 when it is not): [_item_link] overwrites the
    supplied token that [item_cas] had stored in the new item. *)
Theorem cas_links_with_next_token k v e token s s1 :
  blen k <= UINT8_MAX →
  item_cas k v e token s = Some (ITEM_OK, s1) →
  (∃ o old, assoc_find k (table s) = Some o ∧ heap s !! o = Some old ∧
            ¬ expired old s ∧ cas_of old = Some token) ∧
  ∃ a i,
    assoc_find k (table s1) = Some a ∧ heap s1 !! a = Some i ∧
    value_of i = Some v ∧
    cas_of i = Some (if use_cas then wrap64 (cas_id s + 1) else 0).
Proof.
  intros Hk H. unfold item_cas in H.
  apply bind_inv in H as (oit&sg&Hget&H).
  destruct oit as [o|]; [|by apply ret_inv in H as [? _]].
  apply bind_inv in H as (c&sg'&Hgc&H).
  apply get_cas_inv in Hgc as (->&og&Hog&Hcg).
  destruct (decide (token ≠ c)) as [Hne|Heq].
  { apply bind_inv in H as ([]&?&_&H). by apply ret_inv in H as [? _]. }
  assert (token = c) as <- by (destruct (decide (token = c)); done).
  pose proof (get_frame _ _ _ _ Hget) as (Hng&Hcg'&Hfg).
  destruct (get_inv_Some _ _ _ _ Hget) as (old&Hfo&Hold&Hexp&->).
  split.
  { exists o, old. do 3 (split; [done|]).
    revert Hog. msimpl. rewrite lookup_insert_eq. intros [= <-]. done. }
  apply bind_inv in H as ([st p]&sA&Ha&H).
  destruct st; try (by apply ret_inv in H as [? _]).
  destruct (alloc_inv _ _ _ _ _ _ Hk Ha) as (a&ni&->&Hni&Hp&HnA&HcA).
  apply bind_inv in H as ([]&sB&Hsc&H).
  destruct (set_cas_inv _ _ _ _ _ _ _ _ Hsc Hni Hp) as (ni'&Hni'&Hp'&HnB&HcB).
  apply bind_inv in H as (d&s1'&Hd&H).
  apply bind_inv in H as ([]&s2'&Hm&H).
  apply bind_inv in H as ([]&sC&Hct&H).
  destruct (store_value_inv _ _ _ _ _ _ _ _ _ _ Hd Hm Hct Hni' Hp')
    as (x&Hx&Hh&HnC&HcC).
  apply bind_inv in H as ([]&sE&Hrl&H).
  unfold _item_relink in Hrl.
  apply bind_inv in Hrl as ([]&sD&Hun&Hli).
  pose proof (unlink_inv _ _ _ Hun) as (HnD&HcD&HfD).
  destruct (HfD _ _ Hx) as (x'&Hx'&Hxx').
  assert (Hh' : holds k v e x')
    by (eapply holds_body_eq; [by apply flag_eq_body_eq|done]).
  destruct (link_inv _ _ _ _ _ _ _ Hli Hx' Hh') as (Ht&Hn&Hat).
  apply bind_inv in H as ([]&sF&Hro&H).
  apply bind_inv in H as ([]&sG&Hra&H).
  apply ret_inv in H as [_ <-].
  apply release_inv in Hro as [HfF HtF].
  apply release_inv in Hra as [HfG HtG].
  pose proof (frame_holds_at _ _ _ _ _ _ _ HfG
                (frame_holds_at _ _ _ _ _ _ _ HfF Hat)) as (y&Hy&[_ Hv]&Hc).
  exists a, y.
  split; [rewrite HtG, HtF, Ht; cbn [assoc_find]; by rewrite decide_True|].
  do 2 (split; [done|]).
  rewrite Hc. unfold next_cas_val.
  by rewrite HcD, HcC, HcB, HcA, Hcg'.
Qed.

(** * Further properties of bb_item.c *)

(** ** Keys that are absent or expired *)

(** X1: on a key that has no entry in the index, [item_get] returns null
    and [item_cas] and [item_annex] (append or prepend) return
    ITEM_ENOTFOUND; none of them changes the state: nothing is allocated,
    no counter moves. *)
Theorem absent_key_not_found k v e token ap s :
  assoc_find k (table s) = None →
  item_get k s = Some (None, s) ∧
  item_cas k v e token s = Some (ITEM_ENOTFOUND, s) ∧
  item_annex k v ap s = Some (ITEM_ENOTFOUND, s).
Proof.
  intros Hf.
  assert (Hg : item_get k s = Some (None, s)) by by rewrite get_eq, Hf.
  split; [done|]. unfold item_cas, item_annex.
  by rewrite !(bind_Some _ _ _ _ _ Hg).
Qed.

(** The state that [_item_unlink] reaches from a linked item. *)
Lemma unlink_linked_st a i k s :
  is_linked i = true → key_of i = Some k →
  unlink_st a i s =
  Some (let s1 := set_table (assoc_remove k (table s))
                    (upd_item a (set_is_linked false i) (unlink_metrics i s)) in
        if decide (refcount i = 0) then free_st a (set_is_linked false i) s1 else s1).
Proof. intros Hl Hk. unfold unlink_st. by rewrite Hl, Hk. Qed.

(** X2: [item_cas] and [item_annex] expire lazily, as [item_get] does: on
    a key whose linked item has an expiry time that is set and not after
    the clock they return ITEM_ENOTFOUND, and the item has been unlinked:
    its [is_linked] bit is cleared, the index has no entry for the key,
    [item_curr] is one less and [item_unlink] one more; the chunk is freed
    when nobody holds a reference and kept otherwise. *)
Theorem expired_key_not_found k v e token ap a i s :
  assoc_find k (table s) = Some a →
  heap s !! a = Some i →
  is_linked i = true →
  key_of i = Some k →
  NoDup (table s).*1 →
  exptime i ≠ 0 →
  exptime i <= now s →
  ∃ s' i',
    item_cas k v e token s = Some (ITEM_ENOTFOUND, s') ∧
    item_annex k v ap s = Some (ITEM_ENOTFOUND, s') ∧
    heap s' !! a = Some i' ∧ is_linked i' = false ∧
    refcount i' = refcount i ∧ end_ i' = end_ i ∧
    table s' = assoc_remove k (table s) ∧
    assoc_find k (table s') = None ∧
    item_curr (item_metrics s') = item_curr (item_metrics s) - 1 ∧
    item_unlink (item_metrics s') = item_unlink (item_metrics s) + 1 ∧
    (refcount i = 0 →
       in_freeq i' = true ∧
       free_itemq s' !! id i = Some (a :: default [] (free_itemq s !! id i)) ∧
       item_remove (item_metrics s') = item_remove (item_metrics s) + 1) ∧
    (refcount i ≠ 0 →
       in_freeq i' = in_freeq i ∧ free_itemq s' = free_itemq s ∧
       item_remove (item_metrics s') = item_remove (item_metrics s)).
Proof.
  intros Hf Hi Hl Hk Hnd He1 He2.
  assert (Hgone : assoc_find k (assoc_remove k (table s)) = None)
    by by apply assoc_find_remove.
  assert (Hg : ∃ s', unlink_st a i s = Some s' ∧ item_get k s = Some (None, s')).
  { rewrite get_eq, Hf, Hi. rewrite decide_True by done.
    rewrite (unlink_linked_st a i k) by done. eauto. }
  destruct Hg as (s'&Hu&Hg). rewrite (unlink_linked_st a i k) in Hu by done.
  injection Hu as <-.
  unfold item_cas, item_annex. rewrite !(bind_Some _ _ _ _ _ Hg).
  destruct (decide (refcount i = 0)); msimpl;
    eexists _, _; (split; [reflexivity|]); (split; [reflexivity|]);
    unfold free_st; mrun; (split; [reflexivity|]); msimpl;
    repeat split; intros; try done; try lia; by rewrite lookup_insert_eq.
Qed.

(** ** Borrowing an item *)

(** Releasing a reference to a linked item that is held. *)
Lemma release_linked_st a i1 s1 :
  is_linked i1 = true → 0 < refcount i1 <= UINT16_MAX →
  release_st a i1 s1 =
  slab_refcount_add (a - offset i1) (-1)
    (upd_item a (set_refcount (refcount i1 - 1) i1) s1).
Proof.
  intros Hl Hr. unfold release_st, release_dec.
  destruct (decide (refcount i1 ≠ 0)); [|lia]. msimpl.
  rewrite (wrap16_small (refcount i1 - 1)) by lia.
  by rewrite Hl, andb_false_r.
Qed.

Lemma set_refcount_id i r : refcount i = r → set_refcount r i = i.
Proof. intros <-. by destruct i. Qed.

Lemma set_refcount_twice r r' i : set_refcount r (set_refcount r' i) = set_refcount r i.
Proof. by destruct i. Qed.

(** The borrowed item goes back to what it was. *)
Lemma unborrow_heap a i (h : gmap Z item) :
  h !! a = Some i → 0 <= refcount i < UINT16_MAX →
  <[a := set_refcount (refcount (set_refcount (wrap16 (refcount i + 1)) i) - 1)
           (set_refcount (wrap16 (refcount i + 1)) i)]>
    (<[a := set_refcount (wrap16 (refcount i + 1)) i]> h) = h.
Proof.
  intros Hi Hr. rewrite insert_insert_eq. msimpl.
  rewrite (wrap16_small (refcount i + 1)) by (unfold UINT16_MAX in *; lia).
  rewrite set_refcount_twice, set_refcount_id by lia.
  by apply insert_id.
Qed.

(** X3: [item_get] on a live key returns the item with one more reference,
    on the item and on its slab, and changes nothing else; releasing that
    reference puts the heap, the index, the free queues and the counters
    back exactly, and the slab count too. *)
Theorem get_then_release_restores k a i s :
  assoc_find k (table s) = Some a →
  heap s !! a = Some i →
  ¬ expired i s →
  is_linked i = true →
  0 <= refcount i < UINT16_MAX →
  0 <= default 0 (slab_refcount s !! (a - offset i)) < UINT32_MAX →
  ∃ s1 i1 s2,
    item_get k s = Some (Some a, s1) ∧
    heap s1 !! a = Some i1 ∧ refcount i1 = refcount i + 1 ∧
    i1 = set_refcount (refcount i + 1) i ∧
    (∀ b, b ≠ a → heap s1 !! b = heap s !! b) ∧
    slab_refcount s1 !! (a - offset i) =
      Some (default 0 (slab_refcount s !! (a - offset i)) + 1) ∧
    table s1 = table s ∧ free_itemq s1 = free_itemq s ∧
    item_metrics s1 = item_metrics s ∧ cas_id s1 = cas_id s ∧
    _item_release_refcount a s1 = Some (tt, s2) ∧
    heap s2 = heap s ∧ table s2 = table s ∧ free_itemq s2 = free_itemq s ∧
    item_metrics s2 = item_metrics s ∧ cas_id s2 = cas_id s ∧
    slab_refcount s2 !! (a - offset i) =
      Some (default 0 (slab_refcount s !! (a - offset i))).
Proof.
  intros Hf Hi He Hl Hr Hs.
  assert (Hw : wrap16 (refcount i + 1) = refcount i + 1)
    by (apply wrap16_small; unfold UINT16_MAX in *; lia).
  exists (acquire_st a i s), (set_refcount (refcount i + 1) i),
    (release_st a (set_refcount (wrap16 (refcount i + 1)) i) (acquire_st a i s)).
  split; [by rewrite get_eq, Hf, Hi, decide_False|].
  split; [mrun; by rewrite Hw|].
  split; [done|]. split; [done|].
  split; [intros b Hb; by mrun|].
  split.
  { msimpl. rewrite lookup_insert_eq, wrap32_small; [done|unfold UINT32_MAX in *; lia]. }
  do 4 (split; [done|]).
  split; [rewrite release_eq; mrun; done|].
  rewrite release_linked_st by (msimpl; first [done|rewrite Hw; unfold UINT16_MAX in *; lia]).
  split; [msimpl; by apply unborrow_heap|].
  do 4 (split; [done|]).
  msimpl. rewrite !lookup_insert_eq. msimpl.
  rewrite (wrap32_small (_ + 1)) by (unfold UINT32_MAX in *; lia).
  f_equal. rewrite wrap32_small; unfold UINT32_MAX in *; lia.
Qed.


(** The state in which [item_get] hands a live, linked item to its caller,
    and the reference given back. *)
Lemma borrow_release_st a i s1 :
  heap s1 !! a = Some (set_refcount (wrap16 (refcount i + 1)) i) →
  is_linked i = true → 0 <= refcount i < UINT16_MAX →
  _item_release_refcount a s1 =
  Some (tt, slab_refcount_add (a - offset i) (-1) (upd_item a i s1)).
Proof.
  intros Hi Hl Hr.
  assert (Hw : wrap16 (refcount i + 1) = refcount i + 1)
    by (apply wrap16_small; unfold UINT16_MAX in *; lia).
  rewrite release_eq, Hi.
  rewrite release_linked_st by (msimpl; first [done|rewrite Hw; unfold UINT16_MAX in *; lia]).
  msimpl. rewrite Hw, set_refcount_twice, set_refcount_id by lia. done.
Qed.

Lemma borrow_release_heap a i s :
  heap s !! a = Some i →
  <[a := i]> (<[a := set_refcount (wrap16 (refcount i + 1)) i]> (heap s)) = heap s.
Proof. intros Hi. rewrite insert_insert_eq. by apply insert_id. Qed.

(** ** Compare-and-set with a stale token *)

(** X4: [item_cas] with a token that differs from the one stored in the
    live item of the key returns ITEM_EOTHER and gives back the reference
    it took: the heap, the index, the free queues, the counters and the
    CAS counter are exactly as before, so the key keeps its value and its
    token. *)
Theorem cas_mismatch_is_rejected k v e token a i c s :
  assoc_find k (table s) = Some a →
  heap s !! a = Some i →
  ¬ expired i s →
  is_linked i = true →
  0 <= refcount i < UINT16_MAX →
  cas_of i = Some c →
  token ≠ c →
  ∃ s',
    item_cas k v e token s = Some (ITEM_EOTHER, s') ∧
    heap s' = heap s ∧ table s' = table s ∧ free_itemq s' = free_itemq s ∧
    item_metrics s' = item_metrics s ∧ cas_id s' = cas_id s ∧
    stored_value k s' = stored_value k s ∧ stored_cas k s' = Some c.
Proof.
  intros Hf Hi He Hl Hr Hc Hne.
  unfold item_cas.
  unfold bind at 1. rewrite get_eq, Hf, Hi. rewrite decide_False by done.
  unfold bind at 1. rewrite get_cas_eq. mrun.
  change (cas_of (set_refcount (wrap16 (refcount i + 1)) i)) with (cas_of i).
  rewrite Hc. msimpl. rewrite decide_True by done.
  unfold bind at 1.
  rewrite (borrow_release_st a i) by (mrun; done). unfold ret.
  eexists. split; [reflexivity|]. msimpl.
  rewrite borrow_release_heap by done.
  unfold stored_value, stored_cas. msimpl.
  rewrite borrow_release_heap by done. by rewrite Hf, Hi.
Qed.

(** ** Append and prepend: the paths that fail *)

Lemma wrap32_idemp z : wrap32 (wrap32 z) = wrap32 z.
Proof. unfold wrap32. by rewrite Z.mod_mod. Qed.

(** X5: when the longer value, of [vlen + len v] bytes computed in 32
    bits, fits no slab class, [item_annex] returns ITEM_EOVERSIZED for an
    append as for a prepend, and gives back the reference it took: the
    heap, the index, the free queues and the counters are as before, so
    the key keeps its old value. *)
Theorem annex_oversized_keeps_item k v ap a i s :
  assoc_find k (table s) = Some a →
  heap s !! a = Some i →
  ¬ expired i s →
  is_linked i = true →
  0 <= refcount i < UINT16_MAX →
  item_slabid (blen k) (wrap32 (vlen i + blen v)) = SLABCLASS_INVALID_ID →
  ∃ s',
    item_annex k v ap s = Some (ITEM_EOVERSIZED, s') ∧
    heap s' = heap s ∧ table s' = table s ∧ free_itemq s' = free_itemq s ∧
    item_metrics s' = item_metrics s ∧ cas_id s' = cas_id s ∧
    stored_value k s' = stored_value k s.
Proof.
  intros Hf Hi He Hl Hr Hbig.
  unfold item_annex.
  unfold bind at 1. rewrite get_eq, Hf, Hi. rewrite decide_False by done.
  mstep (rd_eq vlen). rewrite Hbig. rewrite decide_True by done.
  unfold bind at 1.
  rewrite (borrow_release_st a i) by (mrun; done). unfold ret.
  eexists. split; [reflexivity|]. msimpl.
  rewrite borrow_release_heap by done.
  unfold stored_value. msimpl.
  rewrite borrow_release_heap by done. by rewrite Hf, Hi.
Qed.

(** X6: when the fast-path condition fails and the slab allocator has no
    free chunk of the class of the longer value, [item_annex] returns
    ITEM_ENOMEM and, unlike [item_cas], gives back the reference it took
    on the old item: the heap, the index and the free queues are as
    before and the only counter that moves is [item_req_ex]. *)
Theorem annex_alloc_failure_releases k v ap a i s :
  assoc_find k (table s) = Some a →
  heap s !! a = Some i →
  ¬ expired i s →
  is_linked i = true →
  0 <= refcount i < UINT16_MAX →
  blen k <= UINT8_MAX →
  item_slabid (blen k) (wrap32 (vlen i + blen v)) ≠ SLABCLASS_INVALID_ID →
  ¬ (item_slabid (blen k) (wrap32 (vlen i + blen v)) = id i ∧
     is_raligned i = negb ap) →
  default [] (free_itemq s !! item_slabid (blen k) (wrap32 (vlen i + blen v))) = [] →
  ∃ s',
    item_annex k v ap s = Some (ITEM_ENOMEM, s') ∧
    heap s' = heap s ∧ table s' = table s ∧ free_itemq s' = free_itemq s ∧
    cas_id s' = cas_id s ∧
    item_metrics s' = metric_add m_item_req_ex 1 (item_metrics s) ∧
    stored_value k s' = stored_value k s.
Proof.
  intros Hf Hi He Hl Hr Hk Hval Hslow Hq.
  pose proof (blen_nonneg k) as Hk0.
  set (total := wrap32 (vlen i + blen v)) in *.
  set (c := item_slabid (blen k) total) in *.
  assert (Hc' : slab_id (item_ntotal (blen k) total use_cas) = c).
  { subst c total. unfold item_slabid.
    by rewrite wrap32_idemp, (wrap8_small (blen k)) by lia. }
  unfold item_annex.
  unfold bind at 1. rewrite get_eq, Hf, Hi. rewrite decide_False by done.
  mstep (rd_eq vlen). fold total. fold c. rewrite decide_False by done.
  mstep (rd_eq id). mstep (rd_eq is_raligned).
  assert (Hcond : bool_decide (c = id i) && (if ap then negb (is_raligned i) else is_raligned i) = false).
  { destruct (bool_decide (c = id i)) eqn:Hb; [|done].
    apply bool_decide_eq_true in Hb. cbn [andb].
    destruct ap, (is_raligned i); try done; by destruct Hslow. }
  destruct ap; rewrite Hcond;
    (mstep (rd_eq exptime); unfold bind at 1; rewrite alloc_eq; cbv zeta;
     rewrite Hc'; rewrite decide_False by done; mrun; rewrite Hq;
     unfold bind at 1;
     rewrite (borrow_release_st a i) by (mrun; done); unfold ret;
     eexists; (split; [reflexivity|]); msimpl;
     rewrite borrow_release_heap by done;
     unfold stored_value; msimpl;
     rewrite borrow_release_heap by done; by rewrite Hf, Hi).
Qed.


(** ** Reuse *)

Lemma reuse_eq a s :
  item_reuse a s =
  match heap s !! a with
  | Some i =>
      (λ kb, (tt, set_table (assoc_remove kb (table s))
                    (upd_item a (set_is_linked false i) s))) <$> key_of i
  | None => None
  end.
Proof.
  unfold item_reuse. unfold bind at 1. rewrite wr_eq.
  destruct (heap s !! a) as [i|] eqn:Hi; [|done].
  unfold bind at 1. rewrite key_bytes_eq. mrun.
  change (key_of (set_is_linked false i)) with (key_of i).
  destruct (key_of i); [|done]. msimpl. unfold assoc_delete. munfold. by mrun.
Qed.

(** X7: [item_reuse] takes an item out of the index without freeing it:
    its [is_linked] bit is cleared and the entry of its key is removed,
    but the chunk is not queued on a free queue ([in_freeq] and the free
    queues are as before), the reference counts are untouched and, unlike
    [_item_unlink], no counter moves.  A later [item_get] of the key
    returns null. *)
Theorem reuse_unlinks_without_freeing a i k s :
  heap s !! a = Some i →
  key_of i = Some k →
  NoDup (table s).*1 →
  ∃ s',
    item_reuse a s = Some (tt, s') ∧
    heap s' !! a = Some (set_is_linked false i) ∧
    (∀ b, b ≠ a → heap s' !! b = heap s !! b) ∧
    table s' = assoc_remove k (table s) ∧
    free_itemq s' = free_itemq s ∧ slab_refcount s' = slab_refcount s ∧
    item_metrics s' = item_metrics s ∧ cas_id s' = cas_id s ∧
    item_get k s' = Some (None, s').
Proof.
  intros Hi Hk Hnd. rewrite reuse_eq, Hi, Hk. msimpl.
  eexists. split; [reflexivity|]. msimpl.
  split; [by rewrite lookup_insert_eq|].
  split; [intros b Hb; by rewrite lookup_insert_ne|].
  do 5 (split; [done|]).
  rewrite get_eq. msimpl. by rewrite assoc_find_remove.
Qed.

(** ** The two expiry tests *)

Lemma expired_eq a s :
  _item_expired a s =
  match heap s !! a with
  | Some i => Some (bool_decide (exptime i > 0 ∧ exptime i < now s), s)
  | None => None
  end.
Proof.
  unfold _item_expired. unfold bind at 1. rewrite rd_eq.
  destruct (heap s !! a); [|done]. by munfold.
Qed.

(** X8: [_item_expired] and the test of [item_get] differ at the clock.
    [_item_expired] reports an item expired when its expiry time is set
    and strictly before the clock; [item_get] treats it as expired when
    the expiry time is set and not after the clock.  So the two agree
    except when the expiry time equals the clock, where [item_get]
    expires the item and [_item_expired] does not. *)
Theorem expiry_tests_differ_at_the_clock a i s :
  heap s !! a = Some i →
  0 <= exptime i →
  ∃ b,
    _item_expired a s = Some (b, s) ∧
    (b = true ↔ 0 < exptime i < now s) ∧
    (b = true → expired i s) ∧
    (expired i s ∧ b = false ↔ exptime i ≠ 0 ∧ exptime i = now s).
Proof.
  intros Hi He. rewrite expired_eq, Hi. eexists. split; [reflexivity|].
  unfold expired.
  destruct (bool_decide (exptime i > 0 ∧ exptime i < now s)) eqn:Hb;
    [apply bool_decide_eq_true in Hb|apply bool_decide_eq_false in Hb];
    repeat split; intros; try done; try lia.
Qed.

(** ** The CAS counter *)

(** X9: with CAS enabled [_item_next_cas] increments the 64-bit counter
    and returns its new value, so that the tokens handed out count up
    from one more than the counter and lie between 1 and UINT64_MAX; at
    UINT64_MAX the counter wraps and the token is 0.  With CAS disabled
    the token is 0 and the counter does not move.  Nothing else in the
    state changes. *)
Theorem next_cas_counts_up s :
  0 <= cas_id s <= UINT64_MAX →
  ∃ c s',
    _item_next_cas s = Some (c, s') ∧
    (use_cas = true → cas_id s < UINT64_MAX →
       c = cas_id s + 1 ∧ 1 <= c <= UINT64_MAX ∧ cas_id s' = c) ∧
    (use_cas = true → cas_id s = UINT64_MAX → c = 0 ∧ cas_id s' = 0) ∧
    (use_cas = false → c = 0 ∧ s' = s) ∧
    heap s' = heap s ∧ table s' = table s ∧ free_itemq s' = free_itemq s ∧
    item_metrics s' = item_metrics s ∧ now s' = now s.
Proof.
  intros Hc. rewrite next_cas_eq. eexists _, _. split; [reflexivity|].
  unfold next_cas_val, next_cas_st. msimpl.
  split; [|split; [|split; [|done]]].
  - intros -> Hlt. unfold wrap64.
    rewrite Z.mod_small; unfold UINT64_MAX in *; lia.
  - intros -> Heq. rewrite Heq. done.
  - intros ->. split; [done|]. apply set_cas_id_id.
Qed.

(** ** Unlinking an item that is not linked *)

(** X10: [_item_unlink] moves its counters before it looks at the
    [is_linked] bit: on an item that is not linked it leaves the heap, the
    index and the free queues alone, yet [item_unlink] is one more,
    [item_curr] one less and the byte gauges are reduced by the sizes of
    the item; in particular the item is not freed, whatever its reference
    count. *)
Theorem unlink_unlinked_only_counts a i s :
  heap s !! a = Some i →
  is_linked i = false →
  ∃ s',
    _item_unlink a s = Some (tt, s') ∧
    heap s' = heap s ∧ table s' = table s ∧ free_itemq s' = free_itemq s ∧
    slab_refcount s' = slab_refcount s ∧
    item_unlink (item_metrics s') = item_unlink (item_metrics s) + 1 ∧
    item_curr (item_metrics s') = item_curr (item_metrics s) - 1 ∧
    item_keyval_byte (item_metrics s') =
      item_keyval_byte (item_metrics s) - wrap32 (klen i + vlen i) ∧
    item_val_byte (item_metrics s') = item_val_byte (item_metrics s) - vlen i ∧
    item_remove (item_metrics s') = item_remove (item_metrics s).
Proof.
  intros Hi Hl. rewrite unlink_eq, Hi. unfold unlink_st. rewrite Hl. msimpl.
  eexists. split; [reflexivity|]. msimpl. repeat split; try done; lia.
Qed.


(** ** Allocation *)

Lemma alloc_item_cas k exp n fi ni :
  alloc_item k exp n fi = Some ni → cas_of ni = Some 0.
Proof.
  unfold alloc_item, alloc_hdr, set_cas_item, cas_of. msimpl.
  destruct (mem_write _ k (end_ fi)) as [e1|] eqn:He1; [|done]. msimpl.
  destruct use_cas.
  - destruct (mem_write 0 _ e1) as [e2|] eqn:He2; [|done]. msimpl.
    intros [= <-]. msimpl.
    pose proof (mem_read_write_eq _ _ _ _ He2) as Hr.
    rewrite blen_encode_le in Hr. change (Z.of_nat 8) with 8 in Hr.
    rewrite Hr. msimpl. by rewrite decode_encode_u64 by (unfold UINT64_MAX; lia).
  - by intros [= <-].
Qed.

(** X11: when the size of the item fits a slab class whose free queue is
    not empty, [item_alloc] returns ITEM_OK with the chunk at the head of
    the queue, refcounted: the chunk has left the queue, its reference
    count and that of its slab are one more, the header holds the key
    length, the value length and the expiry time it was asked for, the
    item is left-aligned, the key bytes are stored in the chunk and the
    CAS token reads 0.  The item is not linked: the index is untouched, and
    the only counter that moves is [item_req]. *)
Theorem alloc_returns_borrowed_item k e n b q fi s :
  blen k <= UINT8_MAX →
  slab_id (item_ntotal (blen k) n use_cas) ≠ SLABCLASS_INVALID_ID →
  free_itemq s !! slab_id (item_ntotal (blen k) n use_cas) = Some (b :: q) →
  heap s !! b = Some fi →
  (if use_cas then 8 else 0) + blen k <= blen (end_ fi) →
  0 <= refcount fi < UINT16_MAX →
  ∃ s' ni,
    item_alloc k e n s = Some ((ITEM_OK, Some b), s') ∧
    heap s' !! b = Some ni ∧
    refcount ni = refcount fi + 1 ∧ in_freeq ni = false ∧
    is_linked ni = is_linked fi ∧ id ni = id fi ∧ offset ni = offset fi ∧
    has_cas ni = use_cas ∧ is_raligned ni = false ∧
    klen ni = blen k ∧ vlen ni = n ∧ exptime ni = e ∧
    key_of ni = Some k ∧ cas_of ni = Some 0 ∧
    free_itemq s' !! slab_id (item_ntotal (blen k) n use_cas) = Some q ∧
    slab_refcount s' !! (b - offset fi) =
      Some (wrap32 (default 0 (slab_refcount s !! (b - offset fi)) + 1)) ∧
    table s' = table s ∧ cas_id s' = cas_id s ∧
    item_metrics s' = metric_add m_item_req 1 (item_metrics s) ∧
    (∀ a, a ≠ b → heap s' !! a = heap s !! a).
Proof.
  intros Hk Hc Hq Hfi Hroom Hr.
  destruct (alloc_item_is_Some k e n fi Hroom) as [ni Hni].
  destruct (alloc_item_inv _ _ _ _ _ Hk Hni)
    as (Hno&Hnid&Hncas&Hnra&Hnkl&Hnvl&Hnexp&Hnrc&Hnl&Hnfq&Hnvt&Hnlen&Hnkey).
  rewrite alloc_eq. cbv zeta. rewrite decide_False by done.
  rewrite Hq. msimpl. rewrite Hfi, Hni. msimpl.
  eexists _, _. split; [reflexivity|]. msimpl.
  split; [by rewrite lookup_insert_eq|].
  split; [rewrite Hnrc; apply wrap16_small; unfold UINT16_MAX in *; lia|].
  do 10 (split; [done|]).
  split; [by eapply alloc_item_cas|].
  split; [by rewrite lookup_insert_eq|].
  split; [by rewrite lookup_insert_eq|].
  do 3 (split; [done|]).
  intros a Ha. by rewrite lookup_insert_ne.
Qed.

(** X12: when the size of the item fits a slab class, the free queue of
    that class is empty and every item of the index is held by somebody,
    so that the allocator has no chunk to hand out and none to reclaim,
    [item_alloc] returns ITEM_ENOMEM with no item and [item_set] returns
    ITEM_ENOMEM: the heap, the index and the free queues are as before,
    and the only counter that moves is [item_req_ex]; the key keeps the
    value it had. *)
Theorem set_without_free_chunk k v e s :
  slab_id (item_ntotal (blen k) (blen v) use_cas) ≠ SLABCLASS_INVALID_ID →
  default [] (free_itemq s !! slab_id (item_ntotal (blen k) (blen v) use_cas)) = [] →
  Forall (λ en, holds_item (λ i, refcount i ≠ 0) (heap s) en.2) (table s) →
  ∃ s',
    item_alloc k e (blen v) s = Some ((ITEM_ENOMEM, None), s') ∧
    item_set k v e s = Some (ITEM_ENOMEM, s') ∧
    heap s' = heap s ∧ table s' = table s ∧ free_itemq s' = free_itemq s ∧
    slab_refcount s' = slab_refcount s ∧ cas_id s' = cas_id s ∧
    item_metrics s' = metric_add m_item_req_ex 1 (item_metrics s) ∧
    stored_value k s' = stored_value k s.
Proof.
  intros Hc Hq _.
  assert (Ha : item_alloc k e (blen v) s =
               Some ((ITEM_ENOMEM, None), metric_st m_item_req_ex 1 s)).
  { rewrite alloc_eq. cbv zeta. rewrite decide_False by done. by rewrite Hq. }
  eexists. split; [exact Ha|].
  split; [unfold item_set; by rewrite (bind_Some _ _ _ _ _ Ha)|].
  by repeat split.
Qed.

(** ** Linking and relinking *)

(** Storing a CAS token leaves the key of the item alone. *)
Lemma set_cas_item_key c i k :
  key_of i = Some k →
  ∃ i', set_cas_item c i = Some i' ∧ key_of i' = Some k ∧
        body_eq i i' ∧ blen (end_ i') = blen (end_ i) ∧
        refcount i' = refcount i ∧ is_linked i' = is_linked i ∧
        in_freeq i' = in_freeq i ∧
        (0 <= c <= UINT64_MAX → cas_of i' = Some (if has_cas i then c else 0)).
Proof.
  intros Hk. pose proof (mem_read_bounds _ _ _ _ Hk) as (Hk0&Hkl&Hkb).
  unfold set_cas_item, key_of, key_idx, cas_of in *.
  destruct (has_cas i) eqn:Hc.
  - destruct (mem_write_is_Some 0 (encode_le 8 c) (end_ i)) as [e He];
      [lia|rewrite blen_encode_le; lia|].
    rewrite He. msimpl. eexists. split; [reflexivity|]. msimpl. rewrite Hc.
    pose proof (mem_read_write_eq _ _ _ _ He) as Hr.
    rewrite blen_encode_le in Hr. change (Z.of_nat 8) with 8 in Hr.
    rewrite (mem_read_write_ne _ _ _ _ _ _ He) by (rewrite blen_encode_le; lia).
    split; [done|]. split.
    { unfold body_eq, key_idx. msimpl. rewrite Hc. repeat split; try done.
      intros o l Ho. symmetry. apply (mem_read_write_ne _ _ _ _ _ _ He).
      rewrite blen_encode_le. right. change (Z.of_nat 8) with 8. lia. }
    split; [by apply (mem_write_blen _ _ _ _ He)|]. do 3 (split; [done|]).
    intros Hcr. rewrite Hr. msimpl. by rewrite decode_encode_u64.
  - exists i. rewrite Hc. split; [done|]. split; [done|].
    split; [apply flag_eq_body_eq, flag_eq_refl|]. by repeat split.
Qed.

(** The state that [_item_link] reaches from an item that holds a key. *)
Lemma link_st_key a i k s :
  key_of i = Some k →
  ∃ i', set_cas_item (next_cas_val s) (set_is_linked true i) = Some i' ∧
        link_st a i s =
          Some (link_metrics i' (set_table ((k, a) :: table s)
                                   (upd_item a i' (next_cas_st s)))) ∧
        key_of i' = Some k ∧ is_linked i' = true ∧
        refcount i' = refcount i ∧ in_freeq i' = in_freeq i ∧
        body_eq i i' ∧ blen (end_ i') = blen (end_ i) ∧
        cas_of i' = Some (if has_cas i then next_cas_val s else 0).
Proof.
  intros Hk.
  destruct (set_cas_item_key (next_cas_val s) (set_is_linked true i) k Hk)
    as (i'&Hs&Hk'&Hbe&Hlen&Hrc&Hl&Hfq&Hcas).
  exists i'. split; [done|]. unfold link_st. rewrite Hs, Hk'.
  do 7 (split; [done|]).
  apply Hcas, next_cas_val_range.
Qed.

(** X13: [_item_relink] replaces a linked item by another one that holds
    a key: the old item loses its [is_linked] bit and the entry of its
    key, the new one is linked in front of the index with the next CAS
    token.  The gauge [item_curr] is as before, [item_link] and
    [item_unlink] are one more each, and the byte gauges move by the
    difference of the sizes of the two items. *)
Theorem relink_keeps_item_count o n io ni ko kn s :
  o ≠ n →
  heap s !! o = Some io →
  heap s !! n = Some ni →
  is_linked io = true →
  key_of io = Some ko →
  key_of ni = Some kn →
  ∃ s' io' ni',
    _item_relink o n s = Some (tt, s') ∧
    table s' = (kn, n) :: assoc_remove ko (table s) ∧
    heap s' !! o = Some io' ∧ is_linked io' = false ∧
    heap s' !! n = Some ni' ∧ is_linked ni' = true ∧ key_of ni' = Some kn ∧
    cas_of ni' = Some (if has_cas ni then next_cas_val s else 0) ∧
    cas_id s' = cas_id (next_cas_st s) ∧
    item_curr (item_metrics s') = item_curr (item_metrics s) ∧
    item_link (item_metrics s') = item_link (item_metrics s) + 1 ∧
    item_unlink (item_metrics s') = item_unlink (item_metrics s) + 1 ∧
    item_keyval_byte (item_metrics s') =
      item_keyval_byte (item_metrics s) - wrap32 (klen io + vlen io)
                                        + wrap32 (klen ni + vlen ni) ∧
    item_val_byte (item_metrics s') =
      item_val_byte (item_metrics s) - vlen io + vlen ni.
Proof.
  intros Hon Hio Hni Hl Hko Hkn.
  unfold _item_relink. unfold bind at 1. rewrite unlink_eq, Hio.
  rewrite (unlink_linked_st o io ko) by done. cbv zeta. msimpl.
  destruct (decide (refcount io = 0));
    (rewrite link_eq; unfold free_st; mrun;
     match goal with
     | |- context [link_st n ni ?s1] =>
         destruct (link_st_key n ni kn s1 Hkn)
           as (ni'&_&Hls&Hk'&Hl'&_&_&Hbe&_&Hcas);
         rewrite Hls
     end;
     destruct Hbe as (_&_&_&_&Hkl&Hvl&_);
     msimpl; eexists _, _, ni'; (split; [reflexivity|]); msimpl;
     (split; [done|]); mrun;
     (split; [reflexivity|]); (split; [done|]);
     (split; [reflexivity|]); (split; [done|]); (split; [done|]);
     (split; [done|]); (split; [done|]);
     rewrite <- Hkl, <- Hvl; cbn; repeat split; lia).
Qed.


(** ** Append and prepend: the other two paths *)

Ltac ex_conj := repeat match goal with |- _ ∧ _ => split end.

(** X14: when the key is held by a live, linked item, the append
    fast-path condition fails (the longer value belongs to another class,
    or the item is right-aligned), the longer value fits a slab class and
    the allocator has a free chunk of that class, [item_annex] with
    [append = true] returns ITEM_OK; the chunk becomes the item linked
    under the key, left-aligned, with the value [ov ++ v], the expiry time
    of the old item and the next CAS token; the old item is unlinked, and
    the references taken on both items are given back. *)
Theorem annex_append_reallocates k v a i ov b q fi s :
  assoc_find k (table s) = Some a →
  heap s !! a = Some i →
  is_linked i = true →
  ¬ expired i s →
  blen k <= UINT8_MAX →
  key_of i = Some k →
  0 <= refcount i < UINT16_MAX →
  value_of i = Some ov →
  vlen i + blen v <= UINT32_MAX →
  ¬ (item_slabid (blen k) (vlen i + blen v) = id i ∧ is_raligned i = false) →
  item_slabid (blen k) (vlen i + blen v) ≠ SLABCLASS_INVALID_ID →
  free_itemq s !! item_slabid (blen k) (vlen i + blen v) = Some (b :: q) →
  heap s !! b = Some fi →
  b ≠ a →
  id fi = item_slabid (blen k) (vlen i + blen v) →
  blen (end_ fi) = slab_item_size (id fi) - ITEM_HDR_SIZE →
  0 <= refcount fi < UINT16_MAX →
  ∃ s' nit oit,
    item_annex k v true s = Some (ITEM_OK, s') ∧
    table s' = (k, b) :: assoc_remove k (table s) ∧
    assoc_find k (table s') = Some b ∧
    heap s' !! b = Some nit ∧
    is_raligned nit = false ∧ is_linked nit = true ∧
    value_of nit = Some (ov ++ v) ∧ vlen nit = vlen i + blen v ∧
    id nit = id fi ∧ klen nit = blen k ∧ key_of nit = Some k ∧
    has_cas nit = use_cas ∧ end_len_ok nit ∧
    cas_of nit = Some (next_cas_val s) ∧
    refcount nit = refcount fi ∧ exptime nit = exptime i ∧
    heap s' !! a = Some oit ∧ is_linked oit = false ∧
    refcount oit = refcount i ∧
    item_curr (item_metrics s') = item_curr (item_metrics s) ∧
    now s' = now s.
Proof.
  intros Hf Hi Hl He Hk Hkey Hr Hov Hsum Hslow Hval Hq Hfi Hba Hfid Hflen Hfr.
  pose proof (blen_nonneg v) as Hv0. pose proof (blen_nonneg k) as Hk0.
  pose proof (mem_read_bounds _ _ _ _ Hov) as (Hd0&Hvl0&Hdv).
  pose proof (mem_read_blen _ _ _ _ Hkey) as Hkl. symmetry in Hkl.
  set (total := vlen i + blen v) in *.
  set (c := item_slabid (blen k) total) in *.
  assert (Hfit : ITEM_HDR_SIZE + blen k + total +
                 (if use_cas then 8 else 0) <= slab_item_size c)
    by (apply item_slabid_fits; [lia|lia|done|done]).
  assert (Hw16 : wrap16 (refcount i + 1) = refcount i + 1)
    by (apply wrap16_small; unfold UINT16_MAX in *; lia).
  assert (Hw32 : wrap32 total = total) by (apply wrap32_small; lia).
  assert (Hw8 : wrap8 (blen k) = blen k) by (apply wrap8_small; lia).
  assert (Hc' : slab_id (item_ntotal (blen k) total use_cas) = c).
  { subst c. unfold item_slabid. by rewrite Hw8, Hw32. }
  unfold item_annex.
  unfold bind at 1. rewrite get_eq, Hf, Hi. rewrite decide_False by done.
  mstep (rd_eq vlen). fold total. rewrite Hw32. fold c. rewrite decide_False by done.
  mstep (rd_eq id). mstep (rd_eq is_raligned).
  assert (Hcond : bool_decide (c = id i) && negb (is_raligned i) = false).
  { destruct (bool_decide (c = id i)) eqn:Hb; [|done].
    apply bool_decide_eq_true in Hb. destruct (is_raligned i); [done|].
    by destruct Hslow. }
  rewrite Hcond. mstep (rd_eq exptime).
  unfold bind at 1. rewrite alloc_eq. cbv zeta. rewrite Hc'.
  rewrite decide_False by done. mrun. rewrite Hq. mrun.
  destruct (alloc_item_is_Some k (exptime i) total fi) as [ni Hni];
    [rewrite Hflen, Hfid; fold total; fold c; destruct use_cas; lia|].
  rewrite Hni. msimpl.
  destruct (alloc_item_inv _ _ _ _ _ Hk Hni)
    as (Hno&Hnid&Hncas&Hnra&Hnkl&Hnvl&Hnexp&Hnrc&Hnl&Hnfq&Hnvt&Hnlen&Hnkey).
  mstep data_eq. unfold data_off at 1. rewrite Hnra, Hnkl, Hncas.
  mstep data_eq. mstep (rd_eq vlen).
  mstep chunk_load_eq. unfold value_of in Hov.
  change (data_off (set_refcount (wrap16 (refcount i + 1)) i)) with (data_off i).
  rewrite Hov. msimpl.
  pose proof (mem_read_blen _ _ _ _ Hov) as Hovl.
  set (idx := blen k + (if use_cas then 8 else 0)).
  assert (Hc0 : 0 <= (if use_cas then 8 else 0)) by (destruct use_cas; lia).
  assert (Hlen_ni : blen (end_ ni) = slab_item_size c - ITEM_HDR_SIZE)
    by (rewrite Hnlen, Hflen, Hfid; done).
  destruct (mem_write_is_Some idx ov (end_ ni)) as [e1 He1];
    [subst idx; lia|subst idx total; lia|].
  unfold bind at 1. rewrite memcpy_eq. mrun.
  replace (ITEM_HDR_SIZE + blen k + (if use_cas then 8 else 0) - ITEM_HDR_SIZE)
    with idx by (subst idx; lia).
  rewrite He1. msimpl.
  pose proof (mem_write_blen _ _ _ _ He1) as Hl1.
  mstep data_eq. unfold data_off at 1. msimpl. rewrite Hnra, Hnkl, Hncas.
  mstep (rd_eq vlen).
  destruct (mem_write_is_Some (idx + vlen i) v e1) as [e2 He2];
    [subst idx; lia|subst idx total; lia|].
  unfold bind at 1. rewrite memcpy_eq. mrun.
  replace (ITEM_HDR_SIZE + blen k + (if use_cas then 8 else 0) + vlen i - ITEM_HDR_SIZE)
    with (idx + vlen i) by (subst idx; lia).
  rewrite He2. msimpl.
  pose proof (mem_write_blen _ _ _ _ He2) as Hl2.
  assert (Hval2 : mem_read idx total e2 = Some (ov ++ v)).
  { subst total. apply mem_read_app.
    - rewrite (mem_read_write_ne _ _ _ _ _ _ He2) by lia.
      rewrite <- Hovl. apply (mem_read_write_eq _ _ _ _ He1).
    - apply (mem_read_write_eq _ _ _ _ He2). }
  assert (Hkey2 : mem_read (if use_cas then 8 else 0) (blen k) e2 = Some k).
  { rewrite (mem_read_write_ne _ _ _ _ _ _ He2) by (subst idx; lia).
    rewrite (mem_read_write_ne _ _ _ _ _ _ He1) by (subst idx; lia).
    unfold key_of, key_idx in Hnkey. by rewrite Hncas, Hnkl in Hnkey. }
  mstep check_type_eq. unfold value_of at 1, data_off at 1. msimpl.
  rewrite Hnra, Hnkl, Hnvl, Hncas. fold total.
  replace (ITEM_HDR_SIZE + blen k + (if use_cas then 8 else 0) - ITEM_HDR_SIZE)
    with idx by (subst idx; lia).
  rewrite Hval2. msimpl.
  unfold _item_relink.
  unfold bind at 1. unfold bind at 1. rewrite unlink_eq. mrun.
  unfold unlink_st at 1. msimpl. rewrite Hl.
  unfold key_of, key_idx in Hkey |- *. msimpl. rewrite Hkey.
  rewrite Hw16. rewrite decide_False by lia. msimpl.
  rewrite link_eq. mrun.
  unfold link_st, set_cas_item, key_of, key_idx. msimpl.
  rewrite Hncas.
  assert (Hrel : wrap16 (refcount i + 1 - 1) = refcount i)
    by (replace (refcount i + 1 - 1) with (refcount i) by lia;
        apply wrap16_small; unfold UINT16_MAX in *; lia).
  assert (Hnrc' : refcount ni = refcount fi + 1)
    by (rewrite Hnrc; apply wrap16_small; unfold UINT16_MAX in *; lia).
  assert (Hrelb : wrap16 (refcount ni - 1) = refcount fi)
    by (rewrite Hnrc'; replace (refcount fi + 1 - 1) with (refcount fi) by lia;
        apply wrap16_small; unfold UINT16_MAX in *; lia).
  assert (Hfind : assoc_find k ((k, b) :: assoc_remove k (table s)) = Some b)
    by (cbn [assoc_find]; by rewrite decide_True by done).
  destruct use_cas eqn:Huc.
  - set (cv := next_cas_val _).
    assert (Hcv : 0 <= cv <= UINT64_MAX) by apply next_cas_val_range.
    assert (Hcvs : cv = next_cas_val s) by done.
    destruct (mem_write_is_Some 0 (encode_le 8 cv) e2) as [e3 He3];
      [lia|rewrite blen_encode_le; subst idx; lia|].
    rewrite He3. msimpl. rewrite Hncas, Hnkl.
    pose proof (mem_write_blen _ _ _ _ He3) as Hl3.
    pose proof (mem_read_write_eq _ _ _ _ He3) as Hr3.
    rewrite blen_encode_le in Hr3. change (Z.of_nat 8) with 8 in Hr3.
    rewrite (mem_read_write_ne _ _ _ _ _ _ He3) by (rewrite blen_encode_le; lia).
    rewrite Hkey2. msimpl.
    mstep release_eq. unfold release_st at 1, release_dec. msimpl.
    destruct (decide (refcount i + 1 ≠ 0)); [|lia]. msimpl. rewrite Hrel.
    rewrite andb_true_r.
    destruct (bool_decide (refcount i = 0));
      (mstep release_eq; unfold release_st at 1, release_dec; msimpl;
       (destruct (decide (refcount ni ≠ 0)); [|lia]); msimpl;
       rewrite Hrelb; rewrite andb_false_r;
       eexists _, _, _; (split; [reflexivity|]); msimpl;
       (split; [done|]); (split; [done|]);
       (split; [mrun; reflexivity|]);
       unfold value_of, data_off, key_of, key_idx, end_len_ok, cas_of;
       msimpl;
       rewrite Hnra, Hnid, Hnvl, Hnkl, Hncas, Hfid; fold total; fold c;
       replace (ITEM_HDR_SIZE + blen k + 8 - ITEM_HDR_SIZE) with idx
         by (subst idx; lia);
       rewrite !(mem_read_write_ne _ _ _ _ _ _ He3)
         by (rewrite blen_encode_le; subst idx; lia);
       rewrite Hval2, Hkey2, Hr3; msimpl;
       rewrite decode_encode_u64 by done;
       ex_conj;
       lazymatch goal with
       | |- _ !! _ = Some _ => mrun; reflexivity
       | |- _ => first [done | lia | cbn; lia]
       end).
  - msimpl. rewrite Hncas, Hnkl, Hkey2. msimpl.
    mstep release_eq. unfold release_st at 1, release_dec. msimpl.
    destruct (decide (refcount i + 1 ≠ 0)); [|lia]. msimpl. rewrite Hrel.
    rewrite andb_true_r.
    destruct (bool_decide (refcount i = 0));
      (mstep release_eq; unfold release_st at 1, release_dec; msimpl;
       (destruct (decide (refcount ni ≠ 0)); [|lia]); msimpl;
       rewrite Hrelb; rewrite andb_false_r;
       eexists _, _, _; (split; [reflexivity|]); msimpl;
       (split; [done|]); (split; [done|]);
       (split; [mrun; reflexivity|]);
       unfold value_of, data_off, key_of, key_idx, end_len_ok, cas_of;
       msimpl;
       rewrite Hnra, Hnid, Hnvl, Hnkl, Hncas, Hfid; fold total; fold c;
       replace (ITEM_HDR_SIZE + blen k + 0 - ITEM_HDR_SIZE) with idx
         by (subst idx; lia);
       rewrite Hval2, Hkey2;
       ex_conj;
       lazymatch goal with
       | |- _ !! _ = Some _ => mrun; reflexivity
       | |- _ => first [done | lia | unfold next_cas_val; by rewrite Huc | cbn; lia]
       end).
Qed.

(** X15: prepending to a live, linked, right-aligned item whose class
    also fits the longer value is done in place: [item_annex] with
    [append = false] returns ITEM_OK, the index, the free queues and the
    counters are untouched, the same item is still linked under the key,
    still right-aligned, its value is [v] followed by the old value, and
    its CAS token is the next value of the CAS counter. *)
Theorem annex_prepend_in_place k v a i ov s :
  assoc_find k (table s) = Some a →
  heap s !! a = Some i →
  is_linked i = true →
  ¬ expired i s →
  blen k <= UINT8_MAX →
  klen i = blen k →
  has_cas i = use_cas →
  blen (end_ i) = slab_item_size (id i) - ITEM_HDR_SIZE →
  id i ≠ SLABCLASS_INVALID_ID →
  0 <= refcount i < UINT16_MAX →
  value_of i = Some ov →
  vlen i + blen v <= UINT32_MAX →
  item_slabid (blen k) (vlen i + blen v) = id i →
  is_raligned i = true →
  ∃ s' i',
    item_annex k v false s = Some (ITEM_OK, s') ∧
    table s' = table s ∧
    heap s' !! a = Some i' ∧ is_linked i' = true ∧
    value_of i' = Some (v ++ ov) ∧ vlen i' = vlen i + blen v ∧
    cas_of i' = Some (next_cas_val s) ∧
    is_raligned i' = true ∧ id i' = id i ∧ key_of i' = key_of i ∧
    refcount i' = refcount i ∧ exptime i' = exptime i ∧
    free_itemq s' = free_itemq s ∧ item_metrics s' = item_metrics s ∧
    now s' = now s ∧
    (∀ b, b ≠ a → heap s' !! b = heap s !! b).
Proof. apply prepend_fast_path. Qed.


(** ** Well-formed stores *)

Lemma assoc_find_elem k a (t : list (list byte * Z)) :
  assoc_find k t = Some a → (k, a) ∈ t.
Proof.
  induction t as [|[k' a'] t IH]; cbn [assoc_find]; [done|].
  destruct (decide (k' = k)) as [->|].
  - intros [= ->]. left.
  - intros H. right. by apply IH.
Qed.

Lemma assoc_find_notin k (t : list (list byte * Z)) :
  assoc_find k t = None → k ∉ t.*1.
Proof.
  induction t as [|[k' a'] t IH]; cbn [assoc_find fmap list_fmap fst].
  - intros _ H. by apply elem_of_nil in H.
  - destruct (decide (k' = k)); [done|].
    intros H [?|?]%elem_of_cons; [done|by apply IH].
Qed.

Lemma assoc_remove_notin k (t : list (list byte * Z)) :
  assoc_find k t = None → assoc_remove k t = t.
Proof.
  induction t as [|[k' a'] t IH]; cbn [assoc_find assoc_remove]; [done|].
  destruct (decide (k' = k)); [done|]. intros H. by rewrite IH.
Qed.

Lemma assoc_remove_elem k e (t : list (list byte * Z)) :
  e ∈ assoc_remove k t → e ∈ t.
Proof.
  induction t as [|[k' a'] t IH]; cbn [assoc_remove]; [done|].
  destruct (decide (k' = k)).
  - intros H. by right.
  - intros [->|H]%elem_of_cons; [left|right; by apply IH].
Qed.

Lemma assoc_remove_NoDup k (t : list (list byte * Z)) :
  NoDup t.*1 → NoDup (assoc_remove k t).*1 ∧ k ∉ (assoc_remove k t).*1.
Proof.
  induction t as [|[k' a'] t IH]; cbn [assoc_remove fmap list_fmap fst].
  - intros _. split; [constructor|]. intros H. by apply elem_of_nil in H.
  - intros [Hn Hnd]%NoDup_cons. destruct (IH Hnd) as [IH1 IH2].
    destruct (decide (k' = k)) as [->|Hne]; [done|].
    cbn [fmap list_fmap fst]. split.
    + apply NoDup_cons. split; [|done].
      intros (e&He1&He2)%list_elem_of_fmap. apply Hn.
      apply list_elem_of_fmap. exists e. split; [done|].
      by eapply assoc_remove_elem.
    + intros [?|?]%elem_of_cons; [done|by apply IH2].
Qed.

Lemma assoc_remove_length k a (t : list (list byte * Z)) :
  assoc_find k t = Some a → S (length (assoc_remove k t)) = length t.
Proof.
  induction t as [|[k' a'] t IH]; cbn [assoc_find assoc_remove]; [done|].
  destruct (decide (k' = k)); [done|]. intros H. cbn [length]. by rewrite IH.
Qed.

Lemma assoc_find_remove_ne k k' (t : list (list byte * Z)) :
  k' ≠ k → assoc_find k' (assoc_remove k t) = assoc_find k' t.
Proof.
  intros Hne. induction t as [|[k0 a0] t IH]; cbn [assoc_find assoc_remove]; [done|].
  destruct (decide (k0 = k)) as [->|].
  - by rewrite decide_False by done.
  - cbn [assoc_find]. by rewrite IH.
Qed.

Lemma holds_item_lookup P h a :
  holds_item P h a → ∃ i, h !! a = Some i ∧ P i.
Proof. unfold holds_item. destruct (h !! a) as [i|]; [eauto|done]. Qed.

Lemma holds_item_intro (P : item → Prop) (h : gmap Z item) a i :
  h !! a = Some i → P i → holds_item P h a.
Proof. unfold holds_item. by intros ->. Qed.

Lemma holds_item_frame P (h h' : gmap Z item) a :
  h' !! a = h !! a → holds_item P h a → holds_item P h' a.
Proof. unfold holds_item. by intros ->. Qed.

(** An address is not both in the index and on a free queue. *)
Lemma linked_not_free k c (h : gmap Z item) a :
  holds_item (linked_item k) h a → holds_item (free_item c) h a → False.
Proof.
  unfold holds_item. destruct (h !! a); [|done].
  intros (Hl&_) (Hf&_). congruence.
Qed.

Lemma index_ok_entry k a s :
  index_ok s → (k, a) ∈ table s → holds_item (linked_item k) (heap s) a.
Proof.
  intros [_ Hall] Hin. rewrite Forall_forall in Hall. apply (Hall _ Hin).
Qed.

(** Two entries of a well-formed index that share an item share a key. *)
Lemma index_ok_inj k k' a s :
  index_ok s → (k, a) ∈ table s → (k', a) ∈ table s → k = k'.
Proof.
  intros Hok H1 H2.
  destruct (holds_item_lookup _ _ _ (index_ok_entry _ _ _ Hok H1)) as (i&Hi&_&_&Hk&_).
  destruct (holds_item_lookup _ _ _ (index_ok_entry _ _ _ Hok H2)) as (i'&Hi'&_&_&Hk'&_).
  congruence.
Qed.

Lemma index_ok_unlink k s s' :
  index_ok s →
  table s' = assoc_remove k (table s) →
  (∀ k' a', (k', a') ∈ table s → k' ≠ k → heap s' !! a' = heap s !! a') →
  index_ok s'.
Proof.
  intros Hok Ht Hh. pose proof Hok as [Hnd Hall].
  destruct (assoc_remove_NoDup k _ Hnd) as [Hnd' Hk].
  unfold index_ok. rewrite Ht. split; [done|].
  apply Forall_forall. intros [k' a'] Hin. cbn [fst snd].
  assert (k' ≠ k).
  { intros ->. apply Hk. apply list_elem_of_fmap. by exists (k, a'). }
  apply assoc_remove_elem in Hin.
  eapply holds_item_frame; [by eapply Hh|]. by apply (index_ok_entry _ _ _ Hok).
Qed.

Lemma index_ok_link k b s s' :
  index_ok s →
  table s' = (k, b) :: assoc_remove k (table s) →
  holds_item (linked_item k) (heap s') b →
  (∀ k' a', (k', a') ∈ table s → k' ≠ k → heap s' !! a' = heap s !! a') →
  index_ok s'.
Proof.
  intros Hok Ht Hb Hh. pose proof Hok as [Hnd Hall].
  destruct (assoc_remove_NoDup k _ Hnd) as [Hnd' Hk].
  unfold index_ok. rewrite Ht. cbn [fmap list_fmap fst]. split.
  - apply NoDup_cons. done.
  - apply Forall_cons. split; [done|].
    apply Forall_forall. intros [k' a'] Hin. cbn [fst snd].
    assert (k' ≠ k).
    { intros ->. apply Hk. apply list_elem_of_fmap. by exists (k, a'). }
    apply assoc_remove_elem in Hin.
    eapply holds_item_frame; [by eapply Hh|]. by apply (index_ok_entry _ _ _ Hok).
Qed.

Lemma free_ok_entry c q x s :
  free_ok s → free_itemq s !! c = Some q → x ∈ q →
  holds_item (free_item c) (heap s) x.
Proof.
  intros Hok Hq Hx. destruct (Hok _ _ Hq) as [_ Hall].
  rewrite Forall_forall in Hall. by apply Hall.
Qed.

(** The free queues after [slab_get_item] has taken the head of one. *)
Lemma free_ok_pop c b q s s' :
  free_ok s →
  free_itemq s !! c = Some (b :: q) →
  free_itemq s' = <[c := q]> (free_itemq s) →
  (∀ c' x, holds_item (free_item c') (heap s) x → x ≠ b →
           heap s' !! x = heap s !! x) →
  free_ok s'.
Proof.
  intros Hok Hq Hfq Hh. unfold free_ok. rewrite Hfq.
  intros c' q' Hq'. destruct (Hok _ _ Hq) as [[Hbq Hndq]%NoDup_cons Hallq].
  destruct (decide (c' = c)) as [->|Hne].
  - rewrite lookup_insert_eq in Hq'. injection Hq' as <-. split; [done|].
    apply Forall_forall. intros x Hx.
    assert (Hfx : holds_item (free_item c) (heap s) x)
      by (eapply free_ok_entry; [done..|by right]).
    eapply holds_item_frame; [|done]. eapply Hh; [done|]. by intros ->.
  - rewrite lookup_insert_ne in Hq' by done.
    destruct (Hok _ _ Hq') as [Hnd' Hall']. split; [done|].
    apply Forall_forall. intros x Hx.
    assert (Hfx : holds_item (free_item c') (heap s) x)
      by by eapply free_ok_entry.
    eapply holds_item_frame; [|done]. eapply Hh; [done|]. intros ->.
    assert (Hfb : holds_item (free_item c) (heap s) b)
      by (eapply free_ok_entry; [done..|by left]).
    apply holds_item_lookup in Hfx as (i1&Hi1&_&_&_&Hid1&_).
    apply holds_item_lookup in Hfb as (i2&Hi2&_&_&_&Hid2&_).
    congruence.
Qed.

(** The free queues after [slab_put_item] has queued a chunk. *)
Lemma free_ok_push c o s s' :
  free_ok s →
  free_itemq s' = <[c := o :: default [] (free_itemq s !! c)]> (free_itemq s) →
  holds_item (free_item c) (heap s') o →
  (∀ c' q', free_itemq s !! c' = Some q' → o ∉ q') →
  (∀ c' q' x, free_itemq s !! c' = Some q' → x ∈ q' →
              heap s' !! x = heap s !! x) →
  free_ok s'.
Proof.
  intros Hok Hfq Ho Hno Hh. unfold free_ok. rewrite Hfq.
  intros c' q' Hq'.
  destruct (decide (c' = c)) as [->|Hne].
  - rewrite lookup_insert_eq in Hq'. injection Hq' as <-.
    destruct (free_itemq s !! c) as [q|] eqn:Hq; cbn [default].
    + destruct (Hok _ _ Hq) as [Hnd Hall]. split.
      * apply NoDup_cons. split; [|done]. by eapply Hno.
      * apply Forall_cons. split; [done|].
        apply Forall_forall. intros x Hx.
        assert (Hfx : holds_item (free_item c) (heap s) x)
          by by eapply free_ok_entry.
        eapply holds_item_frame; [|done]. by eapply Hh.
    + split; [apply NoDup_singleton|]. by apply Forall_singleton.
  - rewrite lookup_insert_ne in Hq' by done.
    destruct (Hok _ _ Hq') as [Hnd' Hall']. split; [done|].
    apply Forall_forall. intros x Hx.
    assert (Hfx : holds_item (free_item c') (heap s) x)
      by by eapply free_ok_entry.
    eapply holds_item_frame; [|done]. by eapply Hh.
Qed.

(** The free queues are not affected by what happens to other items. *)
Lemma free_ok_frame s s' :
  free_ok s →
  free_itemq s' = free_itemq s →
  (∀ c' x, holds_item (free_item c') (heap s) x → heap s' !! x = heap s !! x) →
  free_ok s'.
Proof.
  intros Hok Hfq Hh. unfold free_ok. rewrite Hfq.
  intros c' q' Hq'. destruct (Hok _ _ Hq') as [Hnd' Hall']. split; [done|].
  apply Forall_forall. intros x Hx.
  assert (Hfx : holds_item (free_item c') (heap s) x) by by eapply free_ok_entry.
  eapply holds_item_frame; [|done]. by eapply Hh.
Qed.

Lemma store_ok_same s s' :
  store_ok s → heap s' = heap s → table s' = table s →
  free_itemq s' = free_itemq s → store_ok s'.
Proof. unfold store_ok, index_ok, free_ok. by intros ? -> -> ->. Qed.

(** A store stays well-formed when the item of a key changes in place. *)
Lemma store_ok_update k o s s' :
  store_ok s →
  (k, o) ∈ table s →
  table s' = table s → free_itemq s' = free_itemq s →
  holds_item (linked_item k) (heap s') o →
  (∀ x, x ≠ o → heap s' !! x = heap s !! x) →
  store_ok s'.
Proof.
  intros [Hix Hfq] Hin Ht Hq Ho Hfr. split.
  - destruct Hix as [Hnd Hall]. unfold index_ok. rewrite Ht. split; [done|].
    apply Forall_forall. intros [k' a'] Hin'. cbn [fst snd].
    destruct (decide (a' = o)) as [->|Hne].
    + assert (k' = k) as -> by by eapply (index_ok_inj k' k o s).
      done.
    + eapply holds_item_frame; [by apply Hfr|].
      by apply (index_ok_entry _ _ _ (conj Hnd Hall)).
  - eapply free_ok_frame; [done|done|].
    intros c' x Hx. apply Hfr. intros ->.
    eapply linked_not_free; [|done]. by eapply index_ok_entry.
Qed.

(** A store stays well-formed when the item of a key is unlinked, and
    freed once nobody holds it. *)
Lemma store_ok_unlinked k o io io' s s' :
  store_ok s →
  assoc_find k (table s) = Some o →
  heap s !! o = Some io →
  table s' = assoc_remove k (table s) →
  (∀ x, x ≠ o → heap s' !! x = heap s !! x) →
  heap s' !! o = Some io' → is_linked io' = false →
  refcount io' = refcount io → id io' = id io → end_ io' = end_ io →
  (refcount io = 0 →
     in_freeq io' = true ∧
     free_itemq s' = <[id io := o :: default [] (free_itemq s !! id io)]> (free_itemq s)) →
  (refcount io ≠ 0 → free_itemq s' = free_itemq s) →
  store_ok s'.
Proof.
  intros [Hix Hfq] Hf Hio Ht Hfr Hio' Hl' Hrc' Hid' Hend' Hz Hnz.
  assert (Hino : (k, o) ∈ table s) by by apply assoc_find_elem.
  pose proof (index_ok_entry _ _ _ Hix Hino) as Hlo.
  destruct (holds_item_lookup _ _ _ Hlo) as (io0&Hio0&Hlio).
  rewrite Hio in Hio0. injection Hio0 as <-.
  destruct Hlio as (Hol&Hofq&Hokey&Hov&Horc&Holen&Hocas).
  assert (Hfl : ∀ c' q' x, free_itemq s !! c' = Some q' → x ∈ q' → x ≠ o).
  { intros c' q' x Hq' Hx ->.
    eapply linked_not_free; [done|by eapply free_ok_entry]. }
  split.
  - eapply (index_ok_unlink k); [done|done|].
    intros k' a' Hin Hne. apply Hfr. intros ->. apply Hne. symmetry.
    by eapply index_ok_inj.
  - destruct (decide (refcount io = 0)) as [Hrz|Hrnz].
    + destruct (Hz Hrz) as [Hfq' Hq'].
      eapply (free_ok_push (id io) o s); [done|done| | |].
      * eapply holds_item_intro; [done|].
        unfold free_item, end_len_ok in *. rewrite Hend', Hid'.
        repeat split; try done. lia.
      * intros c' q' Hq1 Hin. by eapply Hfl.
      * intros c' q' x Hq1 Hx. apply Hfr. by eapply Hfl.
    + eapply free_ok_frame; [done|by apply Hnz|].
      intros c' x Hx. apply Hfr. intros ->. by eapply linked_not_free.
Qed.

(** A store stays well-formed when the chunk at the head of a free queue
    becomes the item of a key, and the item that the key had, if any, is
    unlinked, and freed once nobody holds it. *)
Lemma store_ok_relinked k c b q s s' :
  store_ok s →
  free_itemq s !! c = Some (b :: q) →
  table s' = (k, b) :: assoc_remove k (table s) →
  holds_item (linked_item k) (heap s') b →
  (∀ x, x ≠ b → assoc_find k (table s) ≠ Some x → heap s' !! x = heap s !! x) →
  (assoc_find k (table s) = None → free_itemq s' = <[c := q]> (free_itemq s)) →
  (∀ o io, assoc_find k (table s) = Some o → heap s !! o = Some io →
     ∃ io', heap s' !! o = Some io' ∧ is_linked io' = false ∧
            refcount io' = refcount io ∧ id io' = id io ∧ end_ io' = end_ io ∧
            (refcount io = 0 →
               in_freeq io' = true ∧
               free_itemq s' =
                 <[id io := o :: default [] (<[c := q]> (free_itemq s) !! id io)]>
                   (<[c := q]> (free_itemq s))) ∧
            (refcount io ≠ 0 → free_itemq s' = <[c := q]> (free_itemq s))) →
  store_ok s'.
Proof.
  intros [Hix Hfq] Hq Ht Hb Hfr Hnone Hsome.
  assert (Hfb : holds_item (free_item c) (heap s) b)
    by (eapply free_ok_entry; [done..|by left]).
  assert (Hlf : ∀ k' a', (k', a') ∈ table s → a' ≠ b).
  { intros k' a' Hin ->.
    eapply linked_not_free; [by eapply index_ok_entry|done]. }
  assert (Hfl : ∀ c' q' x, free_itemq s !! c' = Some q' → x ∈ q' →
                ∀ k', (k', x) ∉ table s).
  { intros c' q' x Hq' Hx k' Hin.
    eapply linked_not_free; [by eapply index_ok_entry|by eapply free_ok_entry]. }
  split.
  - eapply (index_ok_link k b); [done|done|done|].
    intros k' a' Hin Hne. apply Hfr; [by eapply Hlf|].
    intros Hf. apply Hne. symmetry.
    eapply index_ok_inj; [done|by apply assoc_find_elem|done].
  - destruct (assoc_find k (table s)) as [o|] eqn:Hf.
    + assert (Hino : (k, o) ∈ table s) by by apply assoc_find_elem.
      destruct (holds_item_lookup _ _ _ (index_ok_entry _ _ _ Hix Hino))
        as (io&Hio&Hol&Hofq&Hokey&Hov&Horc&Holen&Hocas).
      destruct (Hsome o io eq_refl Hio)
        as (io'&Hio'&Hl'&Hrc'&Hid'&Hend'&Hz&Hnz).
      destruct (decide (refcount io = 0)) as [Hrz|Hrnz].
      * destruct (Hz Hrz) as [Hfq' Hq''].
        set (s1 := set_free_itemq (<[c := q]> (free_itemq s)) (set_heap (heap s') s)).
        assert (Hs1 : free_ok s1).
        { eapply (free_ok_pop _ b q s); [done|done|done|].
          intros c' x Hx Hxb. apply Hfr; [done|].
          intros [= ->]. eapply linked_not_free; [|done].
          by eapply index_ok_entry. }
        eapply (free_ok_push (id io) o s1); [done|done| | |done].
        -- eapply holds_item_intro; [done|].
           unfold free_item, end_len_ok in *. rewrite Hend', Hid'.
           repeat split; try done. lia.
        -- intros c' q' Hq' Hin.
           destruct (decide (c' = c)) as [->|Hne].
           ++ cbn [s1 free_itemq set_free_itemq] in Hq'.
              rewrite lookup_insert_eq in Hq'. injection Hq' as <-.
              eapply (Hfl _ _ o Hq); [by right|done].
           ++ cbn [s1 free_itemq set_free_itemq] in Hq'.
              rewrite lookup_insert_ne in Hq' by done.
              by eapply (Hfl _ _ o Hq').
      * eapply (free_ok_pop _ b q s); [done|done|by apply Hnz|].
        intros c' x Hx Hxb. apply Hfr; [done|].
        intros [= ->]. eapply linked_not_free; [|done].
        by eapply index_ok_entry.
    + eapply (free_ok_pop _ b q s); [done|done|by apply Hnone|].
      intros c' x Hx Hxb. apply Hfr; done.
Qed.

(** ** Steps shared by the operations *)

Ltac msimpl_in H :=
  cbn [heap table cas_id slab_refcount free_itemq item_metrics now
       set_heap set_table set_cas_id set_slab_refcount set_free_itemq
       set_item_metrics set_now upd_item slab_refcount_add metric_st
       unlink_metrics link_metrics free_st acquire_st alloc_st next_cas_st
       offset id refcount is_linked has_cas in_freeq is_raligned klen vlen
       exptime vtype end_
       set_refcount set_is_linked set_has_cas set_in_freeq set_is_raligned
       set_klen set_vlen set_exptime set_vtype set_end
       fmap option_fmap option_map default from_option Datatypes.id] in H.

(** Storing the value of a freshly allocated item. *)
Lemma store_value_item k v e t ni :
  pre_holds k (blen v) e ni →
  blen k + (if use_cas then 8 else 0) + blen v <= blen (end_ ni) →
  ∃ e1, mem_write (data_off ni - ITEM_HDR_SIZE) v (end_ ni) = Some e1 ∧
        value_of (set_end e1 ni) = Some v ∧
        holds k v e (set_vtype t (set_end e1 ni)) ∧
        blen e1 = blen (end_ ni).
Proof.
  intros (Hc&Hra&Hkl&Hvl&Hexp&Hkey) Hroom.
  pose proof (blen_nonneg k) as Hk0. pose proof (blen_nonneg v) as Hv0.
  assert (Hd : data_off ni - ITEM_HDR_SIZE = blen k + (if use_cas then 8 else 0))
    by (unfold data_off; rewrite Hra, Hkl, Hc; lia).
  assert (Hc0 : 0 <= (if use_cas then 8 else 0)) by (destruct use_cas; lia).
  destruct (mem_write_is_Some (data_off ni - ITEM_HDR_SIZE) v (end_ ni)) as [e1 He1];
    [lia|lia|].
  exists e1. split; [done|].
  pose proof (mem_read_write_eq _ _ _ _ He1) as Hrw.
  assert (Hv : value_of (set_end e1 ni) = Some v).
  { unfold value_of. msimpl.
    change (data_off (set_end e1 ni)) with (data_off ni). by rewrite Hvl. }
  split; [done|]. split; [|by eapply mem_write_blen].
  split; [|done].
  unfold pre_holds, key_of, key_idx in *. msimpl.
  repeat split; try done.
  rewrite (mem_read_write_ne _ _ _ _ _ _ He1); [done|].
  left. rewrite Hc, Hkl. destruct use_cas; lia.
Qed.

(** Releasing one of several references, or the last reference to an
    item that is not linked. *)
Lemma release_unlinked_st a i1 s1 :
  is_linked i1 = false → 0 < refcount i1 <= UINT16_MAX →
  release_st a i1 s1 =
  let s2 := slab_refcount_add (a - offset i1) (-1)
              (upd_item a (set_refcount (refcount i1 - 1) i1) s1) in
  if decide (refcount i1 - 1 = 0)
  then free_st a (set_refcount (refcount i1 - 1) i1) s2 else s2.
Proof.
  intros Hl Hr. unfold release_st, release_dec.
  destruct (decide (refcount i1 ≠ 0)); [|lia]. msimpl.
  rewrite (wrap16_small (refcount i1 - 1)) by lia.
  rewrite Hl. cbn [negb]. rewrite andb_true_r.
  destruct (decide (refcount i1 - 1 = 0)).
  - by rewrite bool_decide_eq_true_2.
  - by rewrite bool_decide_eq_false_2.
Qed.

Lemma value_of_body_eq i j :
  body_eq i j → 0 <= klen i → is_raligned i = false → value_of j = value_of i.
Proof.
  intros (Ho&Hid&Hc&Hra&Hkl&Hvl&_&_&Hm) Hk Hl.
  unfold value_of, data_off. rewrite <- Hra, <- Hid, <- Hvl, <- Hkl, <- Hc, Hl.
  symmetry. apply Hm. unfold key_idx. destruct (has_cas i); lia.
Qed.

Lemma value_of_body_eq' i j :
  body_eq i j → key_idx i <= data_off i - ITEM_HDR_SIZE → value_of j = value_of i.
Proof.
  intros (Ho&Hid&Hc&Hra&Hkl&Hvl&_&_&Hm) Hk.
  unfold value_of, data_off in *. rewrite <- Hra, <- Hid, <- Hvl, <- Hkl, <- Hc.
  symmetry. by apply Hm.
Qed.

Lemma next_cas_val_cas_id s1 s : cas_id s1 = cas_id s → next_cas_val s1 = next_cas_val s.
Proof. unfold next_cas_val. by intros ->. Qed.

Lemma cas_of_is_Some i k : key_of i = Some k → is_Some (cas_of i).
Proof.
  intros Hk. pose proof (mem_read_bounds _ _ _ _ Hk) as (Hk0&Hkl&Hkb).
  unfold cas_of, key_idx in *. destruct (has_cas i); [|eauto].
  destruct (mem_read_is_Some 0 8 (end_ i)) as [bs Hbs]; [lia..|].
  rewrite Hbs. eauto.
Qed.

(** The item that [_item_link] and the last [_item_release_refcount] make
    of a prepared chunk. *)
Lemma link_item_ok k x c i' :
  key_of x = Some k → is_Some (value_of x) →
  key_idx x <= data_off x - ITEM_HDR_SIZE →
  in_freeq x = false → end_len_ok x → has_cas x = use_cas →
  set_cas_item c (set_is_linked true x) = Some i' →
  linked_item k (set_refcount 0 i') ∧
  key_of i' = Some k ∧ is_linked i' = true ∧ refcount i' = refcount x ∧
  value_of (set_refcount 0 i') = value_of x ∧
  vlen (set_refcount 0 i') = vlen x ∧ exptime (set_refcount 0 i') = exptime x ∧
  vtype (set_refcount 0 i') = vtype x ∧ id (set_refcount 0 i') = id x ∧
  is_raligned (set_refcount 0 i') = is_raligned x ∧
  (0 <= c <= UINT64_MAX → cas_of (set_refcount 0 i') = Some (if use_cas then c else 0)).
Proof.
  intros Hk Hv Hd Hfq Hlen Hcas Hsc.
  destruct (set_cas_item_key c (set_is_linked true x) k Hk)
    as (j&Hsc'&Hk'&Hbe&Hlen'&Hrc'&Hl'&Hfq'&Hcas').
  rewrite Hsc in Hsc'. injection Hsc' as <-.
  assert (Hv' : value_of i' = value_of x)
    by (rewrite (value_of_body_eq' _ _ Hbe); done).
  destruct Hbe as (Hio'&Hiid&Hic&Hira&Hikl&Hivl&Hiexp&Hivt&_).
  cbn [offset id has_cas is_raligned klen vlen exptime vtype refcount is_linked
       in_freeq end_ set_is_linked] in *.
  unfold linked_item, end_len_ok in *. msimpl.
  change (key_of (set_refcount 0 i')) with (key_of i').
  change (value_of (set_refcount 0 i')) with (value_of i').
  change (cas_of (set_refcount 0 i')) with (cas_of i').
  rewrite Hv', Hl', Hfq', Hk', Hlen', <- Hiid, <- Hic, <- Hivl, <- Hiexp, <- Hivt, <- Hira.
  unfold UINT16_MAX.
  repeat split; try done; try lia.
  intros Hc. rewrite (Hcas' Hc). by rewrite Hcas.
Qed.

(** The tail shared by the operations that replace the item of a key:
    the borrowed old item at [o] is relinked to the prepared chunk at
    [b], then both references are given back. *)
Lemma replace_tail k o b io x1 i' S :
  o ≠ b →
  heap S !! o = Some (set_refcount (wrap16 (refcount io + 1)) io) →
  is_linked io = true → key_of io = Some k →
  0 <= refcount io < UINT16_MAX →
  heap S !! b = Some x1 →
  refcount x1 = 1 →
  set_cas_item (next_cas_val S) (set_is_linked true x1) = Some i' →
  key_of i' = Some k → is_linked i' = true → refcount i' = 1 →
  ∃ S2 S3 S4 io',
    _item_relink o b S = Some (tt, S2) ∧
    _item_release_refcount o S2 = Some (tt, S3) ∧
    _item_release_refcount b S3 = Some (tt, S4) ∧
    table S4 = (k, b) :: assoc_remove k (table S) ∧
    heap S4 !! b = Some (set_refcount 0 i') ∧
    heap S4 !! o = Some io' ∧ is_linked io' = false ∧
    refcount io' = refcount io ∧ id io' = id io ∧ end_ io' = end_ io ∧
    (∀ x, x ≠ b → x ≠ o → heap S4 !! x = heap S !! x) ∧
    (refcount io = 0 →
       in_freeq io' = true ∧
       free_itemq S4 = <[id io := o :: default [] (free_itemq S !! id io)]> (free_itemq S)) ∧
    (refcount io ≠ 0 → in_freeq io' = in_freeq io ∧ free_itemq S4 = free_itemq S) ∧
    item_curr (item_metrics S4) = item_curr (item_metrics S) ∧
    now S4 = now S ∧ cas_id S4 = cas_id (next_cas_st S).
Proof.
  intros Hob Ho Hol Hok Horc Hb Hx1rc Hsc Hk' Hl' Hrc'.
  assert (Hw16 : wrap16 (refcount io + 1) = refcount io + 1)
    by (apply wrap16_small; unfold UINT16_MAX in *; lia).
  assert (Hlink : ∀ S', cas_id S' = cas_id S →
            link_st b x1 S' =
            Some (link_metrics i' (set_table ((k, b) :: table S')
                                     (upd_item b i' (next_cas_st S'))))).
  { intros S' HS. unfold link_st. by rewrite (next_cas_val_cas_id _ _ HS), Hsc, Hk'. }
  assert (Hrun2 : _item_relink o b S =
            Some (tt, link_metrics i'
                   (set_table ((k, b) :: assoc_remove k (table S))
                      (upd_item b i'
                         (next_cas_st
                            (upd_item o (set_is_linked false
                                           (set_refcount (refcount io + 1) io))
                               (unlink_metrics (set_refcount (refcount io + 1) io) S))))))).
  { unfold _item_relink. unfold bind at 1. rewrite unlink_eq, Ho.
    rewrite (unlink_linked_st o _ k) by done. cbv zeta. msimpl.
    rewrite Hw16. rewrite decide_False by lia. msimpl.
    rewrite link_eq. mrun. rewrite Hlink by done. by msimpl. }
  eexists. 
  destruct (decide (refcount io = 0)) as [Hz|Hnz].
  - eexists _, _, _. split; [exact Hrun2|].
    split.
    { rewrite release_eq. mrun.
      rewrite release_unlinked_st
        by (msimpl; first [done|unfold UINT16_MAX in *; lia]).
      cbv zeta. msimpl.
      replace (refcount io + 1 - 1) with (refcount io) by lia.
      rewrite decide_True by done. reflexivity. }
    split.
    { unfold free_st. rewrite release_eq. mrun.
      rewrite release_linked_st by (rewrite ?Hl', ?Hrc'; done).
      rewrite Hrc'. change (1 - 1) with 0. reflexivity. }
    msimpl.
    split; [done|]. split; [by rewrite lookup_insert_eq|].
    split; [mrun; reflexivity|]. msimpl.
    do 4 (split; [done|]).
    split; [intros x Hxb Hxo; by rewrite !lookup_insert_ne by congruence|].
    split; [done|]. split; [done|]. split; [cbn; lia|]. done.
  - eexists _, _, _. split; [exact Hrun2|].
    split.
    { rewrite release_eq. mrun.
      rewrite release_unlinked_st
        by (msimpl; first [done|unfold UINT16_MAX in *; lia]).
      cbv zeta. msimpl.
      replace (refcount io + 1 - 1) with (refcount io) by lia.
      rewrite decide_False by done. reflexivity. }
    split.
    { rewrite release_eq. mrun.
      rewrite release_linked_st by (rewrite ?Hl', ?Hrc'; done).
      rewrite Hrc'. change (1 - 1) with 0. reflexivity. }
    msimpl.
    split; [done|]. split; [by rewrite lookup_insert_eq|].
    split; [mrun; reflexivity|]. msimpl.
    do 4 (split; [done|]).
    split; [intros x Hxb Hxo; by rewrite !lookup_insert_ne by congruence|].
    split; [done|]. split; [done|]. split; [cbn; lia|]. done.
Qed.

(** The end of the operations that replace the item of a key, from a
    well-formed store: the prepared chunk at [b] is linked in place of the
    borrowed item at [o] and both references are given back. *)
Lemma replace_finish k c o io b q x1 S2 s :
  store_ok s →
  assoc_find k (table s) = Some o → heap s !! o = Some io →
  free_itemq s !! c = Some (b :: q) → o ≠ b →
  heap S2 !! b = Some x1 →
  heap S2 !! o = Some (set_refcount (wrap16 (refcount io + 1)) io) →
  (∀ x, x ≠ b → x ≠ o → heap S2 !! x = heap s !! x) →
  table S2 = table s → free_itemq S2 = <[c := q]> (free_itemq s) →
  item_curr (item_metrics S2) = item_curr (item_metrics s) →
  cas_id S2 = cas_id s →
  key_of x1 = Some k → is_Some (value_of x1) →
  key_idx x1 <= data_off x1 - ITEM_HDR_SIZE →
  in_freeq x1 = false → end_len_ok x1 → has_cas x1 = use_cas → refcount x1 = 1 →
  ∃ S3 S4 S5 nb,
    _item_relink o b S2 = Some (tt, S3) ∧
    _item_release_refcount o S3 = Some (tt, S4) ∧
    _item_release_refcount b S4 = Some (tt, S5) ∧
    store_ok S5 ∧
    table S5 = (k, b) :: assoc_remove k (table s) ∧
    heap S5 !! b = Some nb ∧
    value_of nb = value_of x1 ∧ is_raligned nb = is_raligned x1 ∧
    exptime nb = exptime x1 ∧ vtype nb = vtype x1 ∧
    cas_of nb = Some (next_cas_val s) ∧
    item_curr (item_metrics S5) = item_curr (item_metrics s).
Proof.
  intros Hok Hf Hio Hq Hob HS2b HS2o HS2h HS2t HS2q HS2m HS2c
         Hx1k Hx1v Hx1d Hx1fq Hx1len Hx1c Hx1rc.
  pose proof Hok as [Hix Hfq].
  assert (Hino : (k, o) ∈ table s) by by apply assoc_find_elem.
  pose proof (index_ok_entry _ _ _ Hix Hino) as Hlo.
  destruct (holds_item_lookup _ _ _ Hlo) as (io0&Hio0&Hlio).
  rewrite Hio in Hio0. injection Hio0 as <-.
  pose proof Hlio as (Hol&Hofq&Hokey&_&Horc&Holen&Hocas).
  destruct (set_cas_item_key (next_cas_val S2) (set_is_linked true x1) k Hx1k)
    as (i'&Hsc&_).
  destruct (link_item_ok k x1 _ i' Hx1k Hx1v Hx1d Hx1fq Hx1len Hx1c Hsc)
    as (Hnb&Hk'&Hl'&Hrc'&Hv'&_&Hexp'&Hvt'&_&Hra'&Hcas').
  specialize (Hcas' (next_cas_val_range S2)).
  destruct (replace_tail k o b io x1 i' S2) as
    (S3&S4&S5&io'&Hr3&Hr4&Hr5&Ht5&Hb5&Ho5&Hol5&Horc5&Hoid5&Hoend5&Hh5&Hz5&Hnz5&Hm5&Hn5&Hc5);
    [done|done|done|done|done|done|done|done|done|done|congruence|].
  exists S3, S4, S5, (set_refcount 0 i'). do 3 (split; [done|]).
  rewrite HS2t in Ht5. rewrite HS2q in Hz5, Hnz5.
  split.
  { eapply (store_ok_relinked k c b q s); [done|done|done| | | |].
    - by eapply holds_item_intro.
    - intros x Hxb Hxo. rewrite Hh5; [|done|congruence]. apply HS2h; [done|congruence].
    - by rewrite Hf.
    - intros o0 io0 Hf0 Hio0. rewrite Hf in Hf0. injection Hf0 as <-.
      rewrite Hio in Hio0. injection Hio0 as <-.
      exists io'. do 5 (split; [done|]). split; [done|].
      intros Hnz. by apply Hnz5. }
  do 6 (split; [done|]).
  split; [rewrite Hcas'; unfold next_cas_val; rewrite HS2c; by destruct use_cas|].
  by rewrite Hm5.
Qed.

Lemma alloc_cases k e n s :
  (slab_id (item_ntotal (blen k) n use_cas) = SLABCLASS_INVALID_ID ∧
   item_alloc k e n s = Some ((ITEM_EOVERSIZED, None), s)) ∨
  (slab_id (item_ntotal (blen k) n use_cas) ≠ SLABCLASS_INVALID_ID ∧
   item_alloc k e n s = Some ((ITEM_ENOMEM, None), metric_st m_item_req_ex 1 s)) ∨
  (slab_id (item_ntotal (blen k) n use_cas) ≠ SLABCLASS_INVALID_ID ∧
   ∃ b q, free_itemq s !! slab_id (item_ntotal (blen k) n use_cas) = Some (b :: q)).
Proof.
  set (c := slab_id (item_ntotal (blen k) n use_cas)).
  destruct (decide (c = SLABCLASS_INVALID_ID)) as [Hc|Hc].
  - left. split; [done|]. rewrite alloc_eq. cbv zeta.
    fold c. by rewrite decide_True.
  - right. destruct (free_itemq s !! c) as [[|b q]|] eqn:Hq.
    + left. split; [done|]. rewrite alloc_eq. cbv zeta.
      fold c. rewrite decide_False by done. by rewrite Hq.
    + right. eauto.
    + left. split; [done|]. rewrite alloc_eq. cbv zeta.
      fold c. rewrite decide_False by done. by rewrite Hq.
Qed.

(** [item_alloc] on a free chunk of the class of the item. *)
Lemma alloc_run k e n b q fi s :
  blen k <= UINT8_MAX → 0 <= n →
  slab_id (item_ntotal (blen k) n use_cas) ≠ SLABCLASS_INVALID_ID →
  free_itemq s !! slab_id (item_ntotal (blen k) n use_cas) = Some (b :: q) →
  heap s !! b = Some fi →
  free_item (slab_id (item_ntotal (blen k) n use_cas)) fi →
  ∃ ni,
    item_alloc k e n s =
      Some ((ITEM_OK, Some b),
            alloc_st b q (slab_id (item_ntotal (blen k) n use_cas)) fi ni s) ∧
    pre_holds k n e ni ∧ refcount ni = 1 ∧ is_linked ni = false ∧
    in_freeq ni = false ∧ id ni = slab_id (item_ntotal (blen k) n use_cas) ∧
    end_len_ok ni ∧
    blen k + (if use_cas then 8 else 0) + n <= blen (end_ ni).
Proof.
  intros Hk Hn Hc Hq Hfi (Hfl&Hffq&Hfrc&Hfid&Hflen).
  pose proof (blen_nonneg k) as Hk0.
  set (c := slab_id (item_ntotal (blen k) n use_cas)) in *.
  pose proof (slab_id_fits _ _ eq_refl Hc) as Hfit. fold c in Hfit.
  rewrite item_ntotal_small in Hfit by lia. unfold end_len_ok in Hflen. rewrite Hfid in Hflen.
  assert (Hc0 : 0 <= (if use_cas then 8 else 0)) by (destruct use_cas; lia).
  destruct (alloc_item_is_Some k e n fi) as [ni Hni]; [lia|].
  destruct (alloc_item_inv _ _ _ _ _ Hk Hni)
    as (Hno&Hnid&Hncas&Hnra&Hnkl&Hnvl&Hnexp&Hnrc&Hnl&Hnfq&Hnvt&Hnlen&Hnkey).
  exists ni. split.
  { rewrite alloc_eq. cbv zeta. fold c. rewrite decide_False by done.
    rewrite Hq. msimpl. by rewrite Hfi, Hni. }
  split; [by repeat split|].
  split; [by rewrite Hnrc, Hfrc|]. split; [congruence|]. split; [done|].
  split; [congruence|]. unfold end_len_ok. rewrite Hnid, Hfid, Hnlen.
  split; [done|]. lia.
Qed.

(** ** Lookup in a well-formed store *)

(** The three ways [item_get] goes from a well-formed store. *)
Lemma get_run k s :
  store_ok s →
  (assoc_find k (table s) = None ∧ item_get k s = Some (None, s)) ∨
  (∃ o io s1,
     assoc_find k (table s) = Some o ∧ heap s !! o = Some io ∧ expired io s ∧
     item_get k s = Some (None, s1) ∧ store_ok s1 ∧
     table s1 = assoc_remove k (table s) ∧
     item_curr (item_metrics s1) = item_curr (item_metrics s) - 1) ∨
  (∃ o io,
     assoc_find k (table s) = Some o ∧ heap s !! o = Some io ∧
     linked_item k io ∧ ¬ expired io s ∧
     item_get k s = Some (Some o, acquire_st o io s)).
Proof.
  intros Hok. pose proof Hok as [Hix Hfq]. rewrite get_eq.
  destruct (assoc_find k (table s)) as [o|] eqn:Hf; [|by left].
  right.
  assert (Hino : (k, o) ∈ table s) by by apply assoc_find_elem.
  pose proof (index_ok_entry _ _ _ Hix Hino) as Hlo.
  destruct (holds_item_lookup _ _ _ Hlo) as (io&Hio&Hlio).
  pose proof Hlio as (Hol&Hofq&Hokey&Hov&Horc&Holen&Hocas).
  rewrite Hio.
  destruct (decide (expired io s)) as [Hexp|Hexp]; [left|right; by exists o, io].
  rewrite (unlink_linked_st o io k) by done. cbv zeta. msimpl.
  exists o, io. eexists. do 3 (split; [done|]). split; [reflexivity|].
  destruct (decide (refcount io = 0)) as [Hz|Hnz].
  - split; [|split; [done|cbn; lia]].
    eapply (store_ok_unlinked k o io (set_in_freeq true (set_is_linked false io)) s);
      [done|done|done|done| | |done|done|done|done|done|done].
    + intros x Hx. unfold free_st. by mrun.
    + unfold free_st. by mrun.
  - split; [|split; [done|cbn; lia]].
    eapply (store_ok_unlinked k o io (set_is_linked false io) s);
      [done|done|done|done| | |done|done|done|done|done|done].
    + intros x Hx. by mrun.
    + by mrun.
Qed.

(** X16: from a well-formed store [item_get] always returns.  When it
    returns null (no entry for the key, or an expired one, which it
    unlinks) the store is well-formed again and the key has no entry.
    When it returns an item, that item is the live item linked under the
    key, now with one more reference, and the index and the free queues
    are untouched; once the caller releases the reference the heap is
    what it was, so the store is well-formed again. *)
Theorem get_keeps_store_ok k s :
  store_ok s →
  ∃ r s1,
    item_get k s = Some (r, s1) ∧
    (r = None → store_ok s1 ∧ assoc_find k (table s1) = None) ∧
    (∀ a, r = Some a →
       ∃ i i1 s2,
         assoc_find k (table s) = Some a ∧ heap s !! a = Some i ∧
         linked_item k i ∧ ¬ expired i s ∧
         heap s1 !! a = Some i1 ∧ refcount i1 = refcount i + 1 ∧
         key_of i1 = Some k ∧ value_of i1 = value_of i ∧
         table s1 = table s ∧ free_itemq s1 = free_itemq s ∧
         _item_release_refcount a s1 = Some (tt, s2) ∧
         heap s2 = heap s ∧ table s2 = table s ∧ free_itemq s2 = free_itemq s ∧
         item_metrics s2 = item_metrics s ∧ store_ok s2).
Proof.
  intros Hok.
  destruct (get_run k s Hok)
    as [[Hf Hg]|[(o&io&s1&Hf&Hio&Hexp&Hg&Hok1&Ht1&_)|(o&io&Hf&Hio&Hlio&Hexp&Hg)]].
  - exists None, s. split; [done|]. split; [done|]. by intros a [=].
  - exists None, s1. split; [done|]. split; [|by intros a [=]].
    intros _. split; [done|]. rewrite Ht1. apply assoc_find_remove, Hok.
  - pose proof Hlio as (Hol&Hofq&Hokey&Hov&Horc&Holen&Hocas).
    eexists _, _. split; [exact Hg|]. split; [done|].
    intros a [= <-].
    exists io, (set_refcount (wrap16 (refcount io + 1)) io),
      (slab_refcount_add (o - offset io) (-1) (upd_item o io (acquire_st o io s))).
    assert (Hw16 : wrap16 (refcount io + 1) = refcount io + 1)
      by (apply wrap16_small; unfold UINT16_MAX in *; lia).
    do 4 (split; [done|]).
    split; [by mrun|]. split; [by msimpl|].
    do 4 (split; [done|]).
    split; [apply borrow_release_st; [by mrun|done|done]|].
    assert (Hh : heap (slab_refcount_add (o - offset io) (-1)
                         (upd_item o io (acquire_st o io s))) = heap s)
      by (msimpl; by apply borrow_release_heap).
    split; [done|]. do 3 (split; [done|]).
    by apply (store_ok_same s).
Qed.

(** ** Set in a well-formed store *)

(** The run of [item_set] that stores the value: the chunk at the head of
    the free queue becomes the item of the key, and the item that the key
    had, if any, is unlinked and freed once nobody holds it. *)
Lemma set_run k v e b q s :
  store_ok s →
  blen k <= UINT8_MAX →
  slab_id (item_ntotal (blen k) (blen v) use_cas) ≠ SLABCLASS_INVALID_ID →
  free_itemq s !! slab_id (item_ntotal (blen k) (blen v) use_cas) = Some (b :: q) →
  ∃ s' nb,
    item_set k v e s = Some (ITEM_OK, s') ∧
    table s' = (k, b) :: assoc_remove k (table s) ∧
    heap s' !! b = Some nb ∧ linked_item k nb ∧
    value_of nb = Some v ∧ vlen nb = blen v ∧ refcount nb = 0 ∧ exptime nb = e ∧
    vtype nb = classify v ∧
    cas_of nb = Some (next_cas_val s) ∧
    now s' = now s ∧
    (∀ x, x ≠ b → assoc_find k (table s) ≠ Some x → heap s' !! x = heap s !! x) ∧
    (assoc_find k (table s) = None →
       free_itemq s' =
         <[slab_id (item_ntotal (blen k) (blen v) use_cas) := q]> (free_itemq s) ∧
       item_curr (item_metrics s') = item_curr (item_metrics s) + 1) ∧
    (∀ o io, assoc_find k (table s) = Some o → heap s !! o = Some io →
       ∃ io', heap s' !! o = Some io' ∧ is_linked io' = false ∧
              refcount io' = refcount io ∧ id io' = id io ∧ end_ io' = end_ io ∧
              item_curr (item_metrics s') = item_curr (item_metrics s) ∧
              (refcount io = 0 →
                 in_freeq io' = true ∧
                 free_itemq s' =
                   <[id io := o :: default []
                        (<[slab_id (item_ntotal (blen k) (blen v) use_cas) := q]>
                           (free_itemq s) !! id io)]>
                     (<[slab_id (item_ntotal (blen k) (blen v) use_cas) := q]>
                        (free_itemq s))) ∧
              (refcount io ≠ 0 →
                 in_freeq io' = in_freeq io ∧
                 free_itemq s' =
                   <[slab_id (item_ntotal (blen k) (blen v) use_cas) := q]>
                     (free_itemq s))).
Proof.
  intros [Hix Hfr] Hk Hc Hq.
  pose proof (blen_nonneg k) as Hk0. pose proof (blen_nonneg v) as Hv0.
  set (c := slab_id (item_ntotal (blen k) (blen v) use_cas)) in *.
  pose proof (slab_id_fits _ _ eq_refl Hc) as Hfit. fold c in Hfit.
  rewrite item_ntotal_small in Hfit by lia.
  assert (Hfb : holds_item (free_item c) (heap s) b)
    by (eapply free_ok_entry; [done..|by left]).
  destruct (holds_item_lookup _ _ _ Hfb) as (fi&Hfi&Hfl&Hffq&Hfrc&Hfid&Hflen).
  unfold end_len_ok in Hflen. rewrite Hfid in Hflen.
  assert (Hc0 : 0 <= (if use_cas then 8 else 0)) by (destruct use_cas; lia).
  destruct (alloc_item_is_Some k e (blen v) fi) as [ni Hni]; [lia|].
  destruct (alloc_item_inv _ _ _ _ _ Hk Hni)
    as (Hno&Hnid&Hncas&Hnra&Hnkl&Hnvl&Hnexp&Hnrc&Hnl&Hnfq&Hnvt&Hnlen&Hnkey).
  assert (Hpre : pre_holds k (blen v) e ni) by by repeat split.
  destruct (store_value_item k v e (classify v) ni Hpre) as (e1&He1&Hv1&Hh1&Hl1); [lia|].
  unfold item_set. unfold bind at 1. rewrite alloc_eq. cbv zeta. fold c.
  rewrite decide_False by done. rewrite Hq. msimpl. rewrite Hfi, Hni. msimpl.
  mstep data_eq. unfold bind at 1. rewrite memcpy_eq. mrun. rewrite He1. msimpl.
  mstep check_type_eq. rewrite Hv1. msimpl.
  set (x1 := set_vtype (classify v) (set_end e1 ni)) in *.
  assert (Hx1rc : refcount x1 = 1).
  { subst x1. msimpl. rewrite Hnrc, Hfrc. done. }
  assert (Hx1l : is_linked x1 = false) by (subst x1; msimpl; congruence).
  assert (Hx1fq : in_freeq x1 = false) by done.
  assert (Hx1id : id x1 = c) by (subst x1; msimpl; congruence).
  assert (Hx1len : blen (end_ x1) = slab_item_size c - ITEM_HDR_SIZE)
    by (subst x1; msimpl; congruence).
  assert (Hx1o : offset x1 = offset fi) by done.
  assert (Hx1vt : vtype x1 = classify v) by done.
  clearbody x1.
  destruct Hh1 as (Hx1pre&Hx1v). pose proof Hx1pre as (Hx1c&Hx1ra&Hx1kl&Hx1vl&Hx1e&Hx1k).
  destruct (set_cas_item_key (next_cas_val s) (set_is_linked true x1) k Hx1k)
    as (i'&Hsc&Hk'&Hbe&Hlen'&Hrc'&Hl'&Hfq'&Hcas').
  specialize (Hcas' (next_cas_val_range s)).
  cbn [refcount set_is_linked is_linked in_freeq has_cas end_] in Hrc', Hl', Hfq', Hcas', Hlen'.
  assert (Hv' : value_of i' = Some v).
  { rewrite <- Hx1v. rewrite (value_of_body_eq _ _ Hbe); [done| |done].
    cbn [klen set_is_linked]. lia. }
  destruct Hbe as (Hio'&Hiid&Hic&Hira&Hikl&Hivl&Hiexp&Hivt&_).
  cbn [offset id has_cas is_raligned klen vlen exptime vtype set_is_linked] in *.
  set (nb := set_refcount (refcount i' - 1) i').
  assert (Hnb : linked_item k nb ∧ value_of nb = Some v ∧ vlen nb = blen v ∧
                refcount nb = 0 ∧ exptime nb = e ∧ vtype nb = classify v ∧
                cas_of nb = Some (next_cas_val s)).
  { subst nb. unfold linked_item, end_len_ok. msimpl.
    change (key_of (set_refcount (refcount i' - 1) i')) with (key_of i').
    change (value_of (set_refcount (refcount i' - 1) i')) with (value_of i').
    change (cas_of (set_refcount (refcount i' - 1) i')) with (cas_of i').
    rewrite Hv', Hcas', Hrc', Hx1rc, Hl', Hfq', Hk', <- Hivl, <- Hiexp, <- Hiid, <- Hivt, Hlen'.
    rewrite Hx1id, Hx1c. unfold UINT16_MAX.
    repeat split; try done; try lia; try (by rewrite <- Hic).
    unfold next_cas_val. by destruct use_cas. }
  match goal with |- context [bind (item_get k) _ ?S] => set (S1 := S) end.
  assert (HS1b : heap S1 !! b = Some x1) by (subst S1; by mrun).
  assert (HS1h : ∀ x, x ≠ b → heap S1 !! x = heap s !! x)
    by (intros x Hx; subst S1; by mrun).
  assert (HS1t : table S1 = table s) by done.
  assert (HS1q : free_itemq S1 = <[c := q]> (free_itemq s)) by done.
  assert (HS1m : item_curr (item_metrics S1) = item_curr (item_metrics s)) by done.
  assert (HS1n : now S1 = now s) by done.
  assert (HS1c : cas_id S1 = cas_id s) by done.
  clearbody S1.
  assert (Hlink : ∀ S, cas_id S = cas_id s →
            link_st b x1 S =
            Some (link_metrics i' (set_table ((k, b) :: table S)
                                     (upd_item b i' (next_cas_st S))))).
  { intros S HS. unfold link_st. by rewrite (next_cas_val_cas_id _ _ HS), Hsc, Hk'. }
  unfold bind at 1. rewrite get_eq. rewrite HS1t.
  destruct (assoc_find k (table s)) as [o|] eqn:Hf; cycle 1.
  - unfold bind at 1. rewrite link_eq, HS1b, (Hlink S1) by done. msimpl.
    unfold bind at 1. rewrite release_eq. mrun.
    rewrite release_linked_st by (rewrite ?Hl', ?Hrc', ?Hx1rc; done).
    unfold ret. eexists _, _. split; [reflexivity|]. msimpl.
    rewrite HS1t, (assoc_remove_notin _ _ Hf).
    split; [done|]. split; [by rewrite lookup_insert_eq|].
    do 7 (split; [apply Hnb|]). split; [done|].
    split; [intros x Hx _; rewrite !lookup_insert_ne by done; by apply HS1h|].
    split; [intros _; split; [done|cbn; lia]|].
    intros o io [=].
  - assert (Hino : (k, o) ∈ table s) by by apply assoc_find_elem.
    destruct (holds_item_lookup _ _ _ (index_ok_entry _ _ _ Hix Hino))
      as (io&Hio&Hol&Hofq&Hok&Hov&Horc&Holen&Hocas).
    assert (Hob : o ≠ b) by (intros ->; congruence).
    assert (HS1o : heap S1 !! o = Some io) by (rewrite HS1h by done; done).
    rewrite HS1o.
    assert (Hw16 : wrap16 (refcount io + 1) = refcount io + 1)
      by (apply wrap16_small; unfold UINT16_MAX in *; lia).
    destruct (decide (expired io S1)) as [Hexp|Hexp].
    + rewrite (unlink_linked_st o io k) by done. cbv zeta. msimpl.
      unfold bind at 1. rewrite link_eq.
      destruct (decide (refcount io = 0)) as [Hz|Hnz].
      * unfold free_st. mrun. rewrite Hlink by done. msimpl.
        unfold bind at 1. rewrite release_eq. mrun.
        rewrite release_linked_st by (rewrite ?Hl', ?Hrc', ?Hx1rc; done).
        unfold ret. eexists _, _. split; [reflexivity|]. msimpl.
        rewrite ?HS1t, ?HS1q, ?HS1n.
        split; [done|]. split; [by rewrite lookup_insert_eq|].
        do 7 (split; [apply Hnb|]). split; [done|].
        split; [intros x Hx Hxo; rewrite !lookup_insert_ne by congruence;
                by apply HS1h|].
        split; [intros [=]|].
        intros o0 io0 [= <-] Hio0. rewrite Hio in Hio0. injection Hio0 as <-.
        eexists. split; [mrun; reflexivity|]. msimpl.
        do 4 (split; [done|]). split; [cbn; lia|]. by split.
      * mrun. rewrite Hlink by done. msimpl.
        unfold bind at 1. rewrite release_eq. mrun.
        rewrite release_linked_st by (rewrite ?Hl', ?Hrc', ?Hx1rc; done).
        unfold ret. eexists _, _. split; [reflexivity|]. msimpl.
        rewrite ?HS1t, ?HS1q, ?HS1n.
        split; [done|]. split; [by rewrite lookup_insert_eq|].
        do 7 (split; [apply Hnb|]). split; [done|].
        split; [intros x Hx Hxo; rewrite !lookup_insert_ne by congruence;
                by apply HS1h|].
        split; [intros [=]|].
        intros o0 io0 [= <-] Hio0. rewrite Hio in Hio0. injection Hio0 as <-.
        eexists. split; [mrun; reflexivity|]. msimpl.
        do 4 (split; [done|]). split; [cbn; lia|]. by split.
    + unfold bind at 1. unfold bind at 1. unfold _item_relink.
      unfold bind at 1. rewrite unlink_eq. mrun.
      rewrite (unlink_linked_st o _ k) by done. cbv zeta. msimpl.
      rewrite Hw16. rewrite decide_False by lia. msimpl.
      rewrite link_eq. mrun. rewrite Hlink by done. msimpl.
      rewrite release_eq. mrun.
      rewrite release_unlinked_st
        by (msimpl; first [done|unfold UINT16_MAX in *; lia]).
      cbv zeta. msimpl.
      replace (refcount io + 1 - 1) with (refcount io) by lia.
      destruct (decide (refcount io = 0)) as [Hz|Hnz].
      * unfold free_st. mrun.
        unfold bind at 1. rewrite release_eq. mrun.
        rewrite release_linked_st by (rewrite ?Hl', ?Hrc', ?Hx1rc; done).
        unfold ret. eexists _, _. split; [reflexivity|]. msimpl.
        rewrite ?HS1t, ?HS1q, ?HS1n.
        split; [done|]. split; [by rewrite lookup_insert_eq|].
        do 7 (split; [apply Hnb|]). split; [done|].
        split; [intros x Hx Hxo; rewrite !lookup_insert_ne by congruence;
                by apply HS1h|].
        split; [intros [=]|].
        intros o0 io0 [= <-] Hio0. rewrite Hio in Hio0. injection Hio0 as <-.
        eexists. split; [mrun; reflexivity|]. msimpl.
        do 4 (split; [done|]). split; [cbn; lia|]. by split.
      * unfold bind at 1. rewrite release_eq. mrun.
        rewrite release_linked_st by (rewrite ?Hl', ?Hrc', ?Hx1rc; done).
        unfold ret. eexists _, _. split; [reflexivity|]. msimpl.
        rewrite ?HS1t, ?HS1q, ?HS1n.
        split; [done|]. split; [by rewrite lookup_insert_eq|].
        do 7 (split; [apply Hnb|]). split; [done|].
        split; [intros x Hx Hxo; rewrite !lookup_insert_ne by congruence;
                by apply HS1h|].
        split; [intros [=]|].
        intros o0 io0 [= <-] Hio0. rewrite Hio in Hio0. injection Hio0 as <-.
        eexists. split; [mrun; reflexivity|]. msimpl.
        do 4 (split; [done|]). split; [cbn; lia|]. by split.
Qed.

Lemma set_cases k v e s :
  (slab_id (item_ntotal (blen k) (blen v) use_cas) = SLABCLASS_INVALID_ID ∧
   item_set k v e s = Some (ITEM_EOVERSIZED, s)) ∨
  (slab_id (item_ntotal (blen k) (blen v) use_cas) ≠ SLABCLASS_INVALID_ID ∧
   item_set k v e s = Some (ITEM_ENOMEM, metric_st m_item_req_ex 1 s)) ∨
  (slab_id (item_ntotal (blen k) (blen v) use_cas) ≠ SLABCLASS_INVALID_ID ∧
   ∃ b q, free_itemq s !! slab_id (item_ntotal (blen k) (blen v) use_cas)
          = Some (b :: q)).
Proof.
  set (c := slab_id (item_ntotal (blen k) (blen v) use_cas)).
  destruct (decide (c = SLABCLASS_INVALID_ID)) as [Hc|Hc].
  - left. split; [done|]. unfold item_set, bind. rewrite alloc_eq. cbv zeta.
    fold c. by rewrite decide_True.
  - right. destruct (free_itemq s !! c) as [[|b q]|] eqn:Hq.
    + left. split; [done|]. unfold item_set, bind. rewrite alloc_eq. cbv zeta.
      fold c. rewrite decide_False by done. by rewrite Hq.
    + right. eauto.
    + left. split; [done|]. unfold item_set, bind. rewrite alloc_eq. cbv zeta.
      fold c. rewrite decide_False by done. by rewrite Hq.
Qed.

(** X17: from a well-formed store (the index has one entry per key, each
    for a linked item, allocated under the current CAS setting, that
    holds the key and a value inside its chunk, and the free queues list
    distinct, unlinked, unreferenced chunks of their class) [item_set]
    with a key of at most 255 bytes always returns, with ITEM_OK,
    ITEM_EOVERSIZED or ITEM_ENOMEM, and never leaves its chunks: the
    store it returns is well-formed again.  On ITEM_OK the key has exactly one entry, in front
    of the index, and holds the value; otherwise the heap, the index and
    the free queues are as before. *)
Theorem set_keeps_store_ok k v e s :
  store_ok s →
  blen k <= UINT8_MAX →
  ∃ r s',
    item_set k v e s = Some (r, s') ∧ store_ok s' ∧
    (r = ITEM_OK ∨ r = ITEM_EOVERSIZED ∨ r = ITEM_ENOMEM) ∧
    (r = ITEM_OK →
       stored_value k s' = Some v ∧
       ∃ b, table s' = (k, b) :: assoc_remove k (table s)) ∧
    (r ≠ ITEM_OK →
       heap s' = heap s ∧ table s' = table s ∧ free_itemq s' = free_itemq s).
Proof.
  intros Hok Hk.
  destruct (set_cases k v e s) as [[Hc Hr]|[[Hc Hr]|[Hc (b&q&Hq)]]].
  - exists ITEM_EOVERSIZED, s. split; [done|]. split; [done|].
    split; [auto|]. split; [done|]. done.
  - eexists _, _. split; [exact Hr|]. split; [exact Hok|].
    split; [auto|]. split; [done|]. done.
  - destruct (set_run k v e b q s Hok Hk Hc Hq)
      as (s'&nb&Hrun&Ht&Hb&Hnb&Hv&_&_&_&_&_&_&Hfr&Hnone&Hsome).
    exists ITEM_OK, s'. split; [done|]. split.
    { eapply (store_ok_relinked k _ b q s); [done|done|done| |done| |].
      - by eapply holds_item_intro.
      - intros H. by destruct (Hnone H).
      - intros o io Hf Hio.
        destruct (Hsome o io Hf Hio) as (io'&?&?&?&?&?&_&Hz&Hnz).
        exists io'. do 5 (split; [done|]). split; [done|].
        intros Hrc. by destruct (Hnz Hrc). }
    split; [auto|]. split; [|done]. intros _. split; [|eauto].
    unfold stored_value. rewrite Ht. cbn [assoc_find].
    rewrite decide_True by done. by rewrite Hb.
Qed.

(** X18: from a well-formed store in which the gauge [item_curr] equals
    the number of index entries, an [item_set] whose item fits a class
    with a chunk on its free queue, so that the allocator hands that chunk
    out and reclaims nothing, returns ITEM_OK and keeps the two equal: a
    new key adds one to both, and replacing the item of a key, expired or
    not, changes neither. *)
Theorem set_keeps_item_curr k v e b q s :
  store_ok s →
  blen k <= UINT8_MAX →
  slab_id (item_ntotal (blen k) (blen v) use_cas) ≠ SLABCLASS_INVALID_ID →
  free_itemq s !! slab_id (item_ntotal (blen k) (blen v) use_cas) = Some (b :: q) →
  item_curr (item_metrics s) = Z.of_nat (length (table s)) →
  ∃ s',
    item_set k v e s = Some (ITEM_OK, s') ∧
    item_curr (item_metrics s') = Z.of_nat (length (table s')) ∧
    length (table s') =
      match assoc_find k (table s) with
      | Some _ => length (table s)
      | None => S (length (table s))
      end.
Proof.
  intros Hok Hk Hc Hq Hcurr.
  destruct (set_run k v e b q s Hok Hk Hc Hq)
    as (s1&nb&Hrun1&Ht&_&_&_&_&_&_&_&_&_&_&Hnone&Hsome).
  exists s1. split; [done|]. rewrite Ht. cbn [length].
  destruct (assoc_find k (table s)) as [o|] eqn:Hf.
  - destruct Hok as [Hix _].
    assert (Hino : (k, o) ∈ table s) by by apply assoc_find_elem.
    destruct (holds_item_lookup _ _ _ (index_ok_entry _ _ _ Hix Hino))
      as (io&Hio&_).
    destruct (Hsome o io eq_refl Hio) as (io'&_&_&_&_&_&Hm&_).
    rewrite Hm, Hcurr. by rewrite (assoc_remove_length _ _ _ Hf).
  - destruct (Hnone eq_refl) as [_ Hm].
    rewrite Hm, Hcurr, (assoc_remove_notin _ _ Hf). split; [lia|done].
Qed.

(** X19: an [item_set] whose item fits a class with a chunk on its free
    queue, so that the allocator hands that chunk out and reclaims
    nothing, returns ITEM_OK and leaves the other keys alone: every other
    key has the same entry in the index as before, for the same item,
    unchanged, so its value and its CAS token are what they were. *)
Theorem set_leaves_other_keys k v e k' b q s :
  store_ok s →
  blen k <= UINT8_MAX →
  slab_id (item_ntotal (blen k) (blen v) use_cas) ≠ SLABCLASS_INVALID_ID →
  free_itemq s !! slab_id (item_ntotal (blen k) (blen v) use_cas) = Some (b :: q) →
  k' ≠ k →
  ∃ s',
    item_set k v e s = Some (ITEM_OK, s') ∧
    assoc_find k' (table s') = assoc_find k' (table s) ∧
    (∀ a, assoc_find k' (table s) = Some a → heap s' !! a = heap s !! a) ∧
    stored_value k' s' = stored_value k' s ∧
    stored_cas k' s' = stored_cas k' s.
Proof.
  intros Hok Hk Hc Hq Hne.
  destruct (set_run k v e b q s Hok Hk Hc Hq)
    as (s1&nb&Hrun1&Ht&_&_&_&_&_&_&_&_&_&Hfr&_).
  exists s1. split; [done|].
  assert (Hgoal : assoc_find k' (table s1) = assoc_find k' (table s) ∧
                  ∀ a, assoc_find k' (table s) = Some a → heap s1 !! a = heap s !! a).
  { destruct Hok as [Hix Hfq]. split.
    - rewrite Ht. cbn [assoc_find]. rewrite decide_False by done.
      by apply assoc_find_remove_ne.
    - intros a Ha. apply assoc_find_elem in Ha. apply Hfr.
      + intros ->. eapply linked_not_free; [by eapply index_ok_entry|].
        eapply free_ok_entry; [done..|by left].
      + intros Hf. apply Hne. eapply index_ok_inj; [done|done|].
        by apply assoc_find_elem. }
  destruct Hgoal as [Hfind Hheap]. split; [done|]. split; [done|].
  unfold stored_value, stored_cas. rewrite Hfind.
  destruct (assoc_find k' (table s)) as [a|] eqn:Ha; [|done].
  by rewrite (Hheap a eq_refl).
Qed.

(** X20: the item that [item_set] links carries what it was given: its
    type tag is V_INT exactly when [bstring_atou64] parses the value and
    V_STR otherwise, its expiry time is [e], its CAS token is the next
    value of the CAS counter, and both references taken on the way have
    been given back. *)
Theorem set_tags_the_value k v e s s' :
  store_ok s →
  blen k <= UINT8_MAX →
  item_set k v e s = Some (ITEM_OK, s') →
  ∃ a i,
    assoc_find k (table s') = Some a ∧ heap s' !! a = Some i ∧
    vtype i = classify v ∧
    (vtype i = V_INT ↔ is_Some (bstring_atou64 v)) ∧
    exptime i = e ∧ vlen i = blen v ∧
    cas_of i = Some (next_cas_val s) ∧
    is_linked i = true ∧ in_freeq i = false ∧ refcount i = 0.
Proof.
  intros Hok Hk Hrun.
  destruct (set_cases k v e s) as [[Hc Hr]|[[Hc Hr]|[Hc (b&q&Hq)]]].
  - rewrite Hr in Hrun. discriminate.
  - rewrite Hr in Hrun. discriminate.
  - destruct (set_run k v e b q s Hok Hk Hc Hq)
      as (s1&nb&Hrun1&Ht&Hb&Hnb&_&Hvl&Hrc&Hexp&Hvt&Hcas&_).
    rewrite Hrun1 in Hrun. injection Hrun as <-.
    exists b, nb. rewrite Ht. cbn [assoc_find]. rewrite decide_True by done.
    destruct Hnb as (Hl&Hfq&_).
    do 3 (split; [done|]). split; [|done].
    rewrite Hvt. unfold classify. by destruct (bstring_atou64 v); split.
Qed.

(** ** Delete in a well-formed store *)

(** The run of [item_delete] from a well-formed index. *)
Lemma delete_run k s :
  index_ok s →
  ∃ r s',
    item_delete k s = Some (r, s') ∧
    table s' = assoc_remove k (table s) ∧
    (∀ x, assoc_find k (table s) ≠ Some x → heap s' !! x = heap s !! x) ∧
    (assoc_find k (table s) = None → r = ITEM_ENOTFOUND ∧ s' = s) ∧
    (∀ o io, assoc_find k (table s) = Some o → heap s !! o = Some io →
       r = (if decide (expired io s) then ITEM_ENOTFOUND else ITEM_OK) ∧
       ∃ io', heap s' !! o = Some io' ∧ is_linked io' = false ∧
              refcount io' = refcount io ∧ id io' = id io ∧ end_ io' = end_ io ∧
              item_curr (item_metrics s') = item_curr (item_metrics s) - 1 ∧
              (refcount io = 0 →
                 in_freeq io' = true ∧
                 free_itemq s' =
                   <[id io := o :: default [] (free_itemq s !! id io)]> (free_itemq s)) ∧
              (refcount io ≠ 0 →
                 in_freeq io' = in_freeq io ∧ free_itemq s' = free_itemq s)).
Proof.
  intros Hix. unfold item_delete. unfold bind at 1. rewrite get_eq.
  destruct (assoc_find k (table s)) as [o|] eqn:Hf; cycle 1.
  - eexists _, _. split; [reflexivity|].
    split; [by rewrite assoc_remove_notin|]. split; [done|]. split; [done|].
    intros o io [=].
  - assert (Hino : (k, o) ∈ table s) by by apply assoc_find_elem.
    destruct (holds_item_lookup _ _ _ (index_ok_entry _ _ _ Hix Hino))
      as (io&Hio&Hol&Hofq&Hok&Hov&Horc&Holen&Hocas).
    rewrite Hio.
    assert (Hw16 : wrap16 (refcount io + 1) = refcount io + 1)
      by (apply wrap16_small; unfold UINT16_MAX in *; lia).
    destruct (decide (expired io s)) as [Hexp|Hexp].
    + rewrite (unlink_linked_st o io k) by done. cbv zeta. msimpl.
      destruct (decide (refcount io = 0)) as [Hz|Hnz];
        (unfold free_st; eexists _, _; (split; [reflexivity|]); msimpl;
         (split; [done|]);
         (split; [intros x Hx; rewrite !lookup_insert_ne by congruence; done|]);
         (split; [intros [=]|]);
         intros o0 io0 [= <-] Hio0; rewrite Hio in Hio0; injection Hio0 as <-;
         rewrite decide_True by done; (split; [done|]);
         eexists; (split; [mrun; reflexivity|]); msimpl;
         do 4 (split; [done|]); (split; [cbn; lia|]); by split).
    + unfold bind at 1. rewrite unlink_eq. mrun.
      rewrite (unlink_linked_st o _ k) by done. cbv zeta. msimpl.
      rewrite Hw16. rewrite decide_False by lia. msimpl.
      unfold bind at 1. rewrite release_eq. mrun.
      rewrite release_unlinked_st
        by (msimpl; first [done|unfold UINT16_MAX in *; lia]).
      cbv zeta. msimpl.
      replace (refcount io + 1 - 1) with (refcount io) by lia.
      destruct (decide (refcount io = 0)) as [Hz|Hnz];
        (unfold free_st, ret; eexists _, _; (split; [reflexivity|]); msimpl;
         (split; [done|]);
         (split; [intros x Hx; rewrite !lookup_insert_ne by congruence; done|]);
         (split; [intros [=]|]);
         intros o0 io0 [= <-] Hio0; rewrite Hio in Hio0; injection Hio0 as <-;
         rewrite decide_False by done; (split; [done|]);
         eexists; (split; [mrun; reflexivity|]); msimpl;
         do 4 (split; [done|]); (split; [cbn; lia|]); by split).
Qed.

(** X21: from a well-formed store [item_delete] always returns, with
    ITEM_OK or ITEM_ENOTFOUND, and the store it returns is well-formed
    again: the key has no entry, the other entries and every other item
    are untouched, and the item that the key had is unlinked and either
    on the free queue of its class, in front, when nobody held it, or
    off the queues and still held, with the reference count it had.  A
    key without an entry gives ITEM_ENOTFOUND and the same state; a key
    with one gives ITEM_ENOTFOUND when its item had expired and ITEM_OK
    otherwise.  If the gauge [item_curr] equals the number of index
    entries before, it does after. *)
Theorem delete_keeps_store_ok k s :
  store_ok s →
  ∃ r s',
    item_delete k s = Some (r, s') ∧ store_ok s' ∧
    (r = ITEM_OK ∨ r = ITEM_ENOTFOUND) ∧
    table s' = assoc_remove k (table s) ∧
    assoc_find k (table s') = None ∧
    (item_curr (item_metrics s) = Z.of_nat (length (table s)) →
     item_curr (item_metrics s') = Z.of_nat (length (table s'))) ∧
    (∀ x, assoc_find k (table s) ≠ Some x → heap s' !! x = heap s !! x) ∧
    (assoc_find k (table s) = None → r = ITEM_ENOTFOUND ∧ s' = s) ∧
    (∀ o io, assoc_find k (table s) = Some o → heap s !! o = Some io →
       r = (if decide (expired io s) then ITEM_ENOTFOUND else ITEM_OK) ∧
       ∃ io', heap s' !! o = Some io' ∧ is_linked io' = false ∧
              refcount io' = refcount io ∧ id io' = id io ∧
              ((refcount io' = 0 ∧ in_freeq io' = true ∧
                free_itemq s' =
                  <[id io := o :: default [] (free_itemq s !! id io)]> (free_itemq s)) ∨
               (refcount io' ≠ 0 ∧ in_freeq io' = false ∧
                free_itemq s' = free_itemq s))).
Proof.
  intros Hok. pose proof Hok as [Hix Hfq].
  destruct (delete_run k s Hix) as (r&s'&Hrun&Ht&Hfr&Hnone&Hsome).
  exists r, s'. split; [done|].
  assert (Hgone : assoc_find k (table s') = None)
    by (rewrite Ht; apply assoc_find_remove, Hix).
  destruct (assoc_find k (table s)) as [o|] eqn:Hf; cycle 1.
  - destruct (Hnone eq_refl) as [-> ->].
    split; [done|]. split; [auto|]. split; [done|]. split; [done|].
    split; [done|]. split; [done|]. split; [done|]. intros o io [=].
  - assert (Hino : (k, o) ∈ table s) by by apply assoc_find_elem.
    destruct (holds_item_lookup _ _ _ (index_ok_entry _ _ _ Hix Hino))
      as (io&Hio&Hlio).
    destruct (Hsome o io eq_refl Hio)
      as (Hr&io'&Hio'&Hl'&Hrc'&Hid'&Hend'&Hm&Hz&Hnz).
    split.
    { eapply (store_ok_unlinked k o io io' s);
        [done|done|done|done| |done|done|done|done|done|done|].
      - intros x Hx. apply Hfr. congruence.
      - intros H. by destruct (Hnz H). }
    split; [rewrite Hr; destruct (decide (expired io s)); auto|].
    split; [done|]. split; [done|].
    split.
    { intros Hcurr. rewrite Hm, Hcurr, Ht.
      rewrite <- (assoc_remove_length _ _ _ Hf). lia. }
    split; [done|]. split; [done|].
    intros o' io2 [= <-] Hio2. rewrite Hio in Hio2. injection Hio2 as <-.
    split; [done|]. exists io'. do 4 (split; [done|]).
    destruct Hlio as (_&Hfq0&_).
    destruct (decide (refcount io = 0)) as [Hz0|Hz0].
    + left. destruct (Hz Hz0) as [? ?]. split; [congruence|]. by split.
    + right. destruct (Hnz Hz0) as [Hq1 ?]. split; [congruence|].
      split; [congruence|done].
Qed.

(** X22: [item_delete] on a key leaves the other keys alone: every other
    key has the same entry in the index as before, for the same item,
    unchanged, so its value and its CAS token are what they were. *)
Theorem delete_leaves_other_keys k k' s r s' :
  store_ok s →
  k' ≠ k →
  item_delete k s = Some (r, s') →
  assoc_find k' (table s') = assoc_find k' (table s) ∧
  (∀ a, assoc_find k' (table s) = Some a → heap s' !! a = heap s !! a) ∧
  stored_value k' s' = stored_value k' s ∧
  stored_cas k' s' = stored_cas k' s.
Proof.
  intros [Hix Hfq] Hne Hrun.
  destruct (delete_run k s Hix) as (r1&s1&Hrun1&Ht&Hfr&_).
  rewrite Hrun1 in Hrun. injection Hrun as <- <-.
  assert (Hfind : assoc_find k' (table s1) = assoc_find k' (table s))
    by (rewrite Ht; by apply assoc_find_remove_ne).
  assert (Hheap : ∀ a, assoc_find k' (table s) = Some a → heap s1 !! a = heap s !! a).
  { intros a Ha. apply assoc_find_elem in Ha. apply Hfr.
    intros Hf. apply Hne. eapply index_ok_inj; [done|done|].
    by apply assoc_find_elem. }
  split; [done|]. split; [done|].
  unfold stored_value, stored_cas. rewrite Hfind.
  destruct (assoc_find k' (table s)) as [a|] eqn:Ha; [|done].
  by rewrite (Hheap a eq_refl).
Qed.

(** ** Compare-and-set in a well-formed store *)

(** The successful run of [item_cas] from a well-formed store. *)
Lemma cas_ok_run k v e token o io b q s :
  store_ok s →
  blen k <= UINT8_MAX →
  assoc_find k (table s) = Some o →
  heap s !! o = Some io →
  ¬ expired io s →
  cas_of io = Some token →
  slab_id (item_ntotal (blen k) (blen v) use_cas) ≠ SLABCLASS_INVALID_ID →
  free_itemq s !! slab_id (item_ntotal (blen k) (blen v) use_cas) = Some (b :: q) →
  ∃ s' nb,
    item_cas k v e token s = Some (ITEM_OK, s') ∧ store_ok s' ∧
    table s' = (k, b) :: assoc_remove k (table s) ∧
    heap s' !! b = Some nb ∧ value_of nb = Some v ∧
    cas_of nb = Some (next_cas_val s) ∧ exptime nb = e ∧
    item_curr (item_metrics s') = item_curr (item_metrics s).
Proof.
  intros Hok Hk Hf Hio Hexp Htok Hc Hq.
  pose proof Hok as [Hix Hfq].
  pose proof (blen_nonneg k) as Hk0. pose proof (blen_nonneg v) as Hv0.
  set (c := slab_id (item_ntotal (blen k) (blen v) use_cas)) in *.
  assert (Hino : (k, o) ∈ table s) by by apply assoc_find_elem.
  pose proof (index_ok_entry _ _ _ Hix Hino) as Hlo.
  destruct (holds_item_lookup _ _ _ Hlo) as (io0&Hio0&Hlio).
  rewrite Hio in Hio0. injection Hio0 as <-.
  pose proof Hlio as (Hol&Hofq&Hokey&Hov&Horc&Holen&Hocas).
  assert (Hfb : holds_item (free_item c) (heap s) b)
    by (eapply free_ok_entry; [done..|by left]).
  destruct (holds_item_lookup _ _ _ Hfb) as (fi&Hfi&Hfree).
  assert (Hob : o ≠ b) by (intros ->; by eapply linked_not_free).
  assert (Hw16 : wrap16 (refcount io + 1) = refcount io + 1)
    by (apply wrap16_small; unfold UINT16_MAX in *; lia).
  set (Sa := acquire_st o io s).
  assert (HSab : heap Sa !! b = Some fi) by (subst Sa; by mrun).
  destruct (alloc_run k e (blen v) b q fi Sa Hk Hv0 Hc Hq HSab Hfree)
    as (ni&Halloc&Hpre&Hnrc&Hnl&Hnfq&Hnid&Hnlen&Hroom).
  pose proof Hpre as (Hncas&Hnra&Hnkl&Hnvl&Hnexp&Hnkey).
  destruct (set_cas_item_key token ni k Hnkey)
    as (ni2&Hsc2&Hk2&Hbe2&Hlen2&Hrc2&Hl2&Hfq2&_).
  assert (Hpre2 : pre_holds k (blen v) e ni2) by by eapply pre_holds_body_eq.
  destruct (store_value_item k v e (classify v) ni2 Hpre2) as (e1&He1&Hv1&Hh1&Hl1);
    [lia|].
  unfold item_cas. unfold bind at 1. rewrite get_eq, Hf, Hio.
  rewrite decide_False by done. fold Sa.
  unfold bind at 1. rewrite get_cas_eq. subst Sa. mrun.
  change (cas_of (set_refcount (wrap16 (refcount io + 1)) io)) with (cas_of io).
  rewrite Htok. msimpl. rewrite decide_False by (intros Hne; by apply Hne).
  unfold bind at 1. rewrite Halloc.
  unfold bind at 1. rewrite set_cas_eq. mrun. rewrite Hsc2. msimpl.
  match goal with |- context [bind (item_data b) _ ?S] => set (S1 := S) end.
  assert (HS1 : heap S1 !! b = Some ni2 ∧
            heap S1 !! o = Some (set_refcount (wrap16 (refcount io + 1)) io) ∧
            (∀ x, x ≠ b → x ≠ o → heap S1 !! x = heap s !! x) ∧
            table S1 = table s ∧ free_itemq S1 = <[c := q]> (free_itemq s) ∧
            item_curr (item_metrics S1) = item_curr (item_metrics s) ∧
            now S1 = now s ∧ cas_id S1 = cas_id s).
  { subst S1. destruct (has_cas ni) eqn:Hhc.
    - split; [by mrun|]. split; [by mrun|].
      split; [intros x Hxb Hxo; by mrun|]. done.
    - assert (ni2 = ni) as ->
        by (unfold set_cas_item in Hsc2; rewrite Hhc in Hsc2; congruence).
      split; [by mrun|]. split; [by mrun|].
      split; [intros x Hxb Hxo; by mrun|]. done. }
  destruct HS1 as (HS1b&HS1o&HS1h&HS1t&HS1q&HS1m&HS1n&HS1c).
  clearbody S1.
  mstep data_eq. unfold bind at 1. rewrite memcpy_eq. mrun. rewrite He1. msimpl.
  mstep check_type_eq. rewrite Hv1. msimpl.
  set (x1 := set_vtype (classify v) (set_end e1 ni2)) in *.
  assert (Hx1rc : refcount x1 = 1) by (subst x1; msimpl; congruence).
  assert (Hx1fq : in_freeq x1 = false) by (subst x1; msimpl; congruence).
  assert (Hx1len : end_len_ok x1).
  { unfold end_len_ok in *. subst x1. msimpl.
    destruct Hbe2 as (_&Hid2&_). rewrite <- Hid2. congruence. }
  destruct Hh1 as (Hx1pre&Hx1v).
  pose proof Hx1pre as (Hx1c&Hx1ra&Hx1kl&Hx1vl&Hx1e&Hx1k).
  assert (Hx1d : key_idx x1 <= data_off x1 - ITEM_HDR_SIZE).
  { unfold key_idx, data_off. rewrite Hx1ra, Hx1kl. destruct (has_cas x1); lia. }
  clearbody x1.
  match goal with |- context [bind (_item_relink o b) _ ?S] => set (S2 := S) end.
  assert (HS2b : heap S2 !! b = Some x1) by (subst S2; by mrun).
  assert (HS2o : heap S2 !! o = Some (set_refcount (wrap16 (refcount io + 1)) io))
    by (subst S2; by mrun).
  assert (HS2h : ∀ x, x ≠ b → x ≠ o → heap S2 !! x = heap s !! x).
  { intros x Hxb Hxo. subst S2. mrun. by apply HS1h. }
  assert (HS2t : table S2 = table s) by done.
  assert (HS2q : free_itemq S2 = <[c := q]> (free_itemq s)) by done.
  assert (HS2m : item_curr (item_metrics S2) = item_curr (item_metrics s)) by done.
  assert (HS2n : now S2 = now s) by done.
  assert (HS2c : cas_id S2 = cas_id s) by done.
  clearbody S2.
  destruct (set_cas_item_key (next_cas_val S2) (set_is_linked true x1) k Hx1k)
    as (i'&Hsc&_).
  destruct (link_item_ok k x1 _ i' Hx1k ltac:(by rewrite Hx1v) Hx1d Hx1fq Hx1len Hx1c Hsc)
    as (Hnb&Hk'&Hl'&Hrc'&Hv'&_&Hexp'&_&_&_&Hcas').
  specialize (Hcas' (next_cas_val_range S2)).
  destruct (replace_tail k o b io x1 i' S2) as
    (S3&S4&S5&io'&Hr3&Hr4&Hr5&Ht5&Hb5&Ho5&Hol5&Horc5&Hoid5&Hoend5&Hh5&Hz5&Hnz5&Hm5&Hn5&Hc5);
    [done|done|done|done|done|done|done|done|done|done|congruence|].
  rewrite (bind_Some _ _ _ _ _ Hr3), (bind_Some _ _ _ _ _ Hr4), (bind_Some _ _ _ _ _ Hr5).
  unfold ret. exists S5, (set_refcount 0 i'). split; [done|].
  rewrite HS2t in Ht5. rewrite HS2q in Hz5, Hnz5.
  split.
  { eapply (store_ok_relinked k c b q s); [done|done|done| | | |].
    - by eapply holds_item_intro.
    - intros x Hxb Hxo. rewrite Hh5; [|done|congruence]. apply HS2h; [done|congruence].
    - by rewrite Hf.
    - intros o0 io0 Hf0 Hio0. rewrite Hf in Hf0. injection Hf0 as <-.
      rewrite Hio in Hio0. injection Hio0 as <-.
      exists io'. do 5 (split; [done|]). split; [done|].
      intros Hnz. by apply Hnz5. }
  split; [done|]. split; [done|]. split; [by rewrite Hv'|].
  split; [rewrite Hcas'; unfold next_cas_val; rewrite HS2c; by destruct use_cas|].
  split; [by rewrite Hexp'|]. by rewrite Hm5.
Qed.

(** X23: from a well-formed store [item_cas] with a key of at most 255
    bytes always returns.  ITEM_OK means that the key was held by a live
    item with the given token; the key then holds the new value with the
    next value of the CAS counter as its token and the store is
    well-formed.  ITEM_ENOTFOUND leaves a well-formed store without an
    entry for the key; ITEM_EOTHER means that the stored token differs
    and leaves the heap, the index and the free queues as they were.
    ITEM_EOVERSIZED and ITEM_ENOMEM leave the index and the free queues
    as they were, and the live item of the key with one reference more
    than before. *)
Theorem cas_keeps_store_ok k v e token s :
  store_ok s →
  blen k <= UINT8_MAX →
  ∃ r s',
    item_cas k v e token s = Some (r, s') ∧
    (r = ITEM_OK →
       store_ok s' ∧ stored_cas k s = Some token ∧
       stored_value k s' = Some v ∧ stored_cas k s' = Some (next_cas_val s)) ∧
    (r = ITEM_ENOTFOUND → store_ok s' ∧ assoc_find k (table s') = None) ∧
    (r = ITEM_EOTHER →
       store_ok s' ∧ heap s' = heap s ∧ table s' = table s ∧
       free_itemq s' = free_itemq s ∧
       ∃ c, stored_cas k s = Some c ∧ c ≠ token) ∧
    (r = ITEM_EOVERSIZED ∨ r = ITEM_ENOMEM →
       table s' = table s ∧ free_itemq s' = free_itemq s ∧
       ∃ o io, assoc_find k (table s) = Some o ∧ heap s !! o = Some io ∧
               heap s' = <[o := set_refcount (refcount io + 1) io]> (heap s)).
Proof.
  intros Hok Hk. pose proof Hok as [Hix Hfq].
  destruct (get_run k s Hok)
    as [[Hf Hg]|[(o&io&s1&Hf&Hio&Hexp&Hg&Hok1&Ht1&_)|(o&io&Hf&Hio&Hlio&Hexp&Hg)]].
  - exists ITEM_ENOTFOUND, s.
    split; [unfold item_cas; by rewrite (bind_Some _ _ _ _ _ Hg)|].
    split; [done|]. split; [done|]. split; [done|]. by intros [?|?].
  - exists ITEM_ENOTFOUND, s1.
    split; [unfold item_cas; by rewrite (bind_Some _ _ _ _ _ Hg)|].
    split; [done|]. split; [|split; [done|by intros [?|?]]].
    intros _. split; [done|]. rewrite Ht1. apply assoc_find_remove, Hix.
  - pose proof Hlio as (Hol&Hofq&Hokey&Hov&Horc&Holen&Hocas).
    destruct (cas_of_is_Some io k Hokey) as [c0 Hc0].
    assert (Hsc : stored_cas k s = Some c0)
      by (unfold stored_cas; by rewrite Hf, Hio).
    assert (Hw16 : wrap16 (refcount io + 1) = refcount io + 1)
      by (apply wrap16_small; unfold UINT16_MAX in *; lia).
    assert (Hgc : item_get_cas o (acquire_st o io s) = Some (c0, acquire_st o io s)).
    { rewrite get_cas_eq. mrun.
      change (cas_of (set_refcount (wrap16 (refcount io + 1)) io)) with (cas_of io).
      by rewrite Hc0. }
    destruct (decide (token = c0)) as [->|Hne].
    + destruct (alloc_cases k e (blen v) (acquire_st o io s))
        as [[Hc Ha]|[[Hc Ha]|[Hc (b&q&Hq)]]].
      * eexists _, _. split.
        { unfold item_cas. rewrite (bind_Some _ _ _ _ _ Hg), (bind_Some _ _ _ _ _ Hgc).
          rewrite decide_False by (intros Hne; by apply Hne).
          by rewrite (bind_Some _ _ _ _ _ Ha). }
        split; [done|]. split; [done|]. split; [done|]. intros _.
        split; [done|]. split; [done|]. exists o, io. msimpl. by rewrite Hw16.
      * eexists _, _. split.
        { unfold item_cas. rewrite (bind_Some _ _ _ _ _ Hg), (bind_Some _ _ _ _ _ Hgc).
          rewrite decide_False by (intros Hne; by apply Hne).
          by rewrite (bind_Some _ _ _ _ _ Ha). }
        split; [done|]. split; [done|]. split; [done|]. intros _.
        split; [done|]. split; [done|]. exists o, io. msimpl. by rewrite Hw16.
      * destruct (cas_ok_run k v e c0 o io b q s Hok Hk Hf Hio Hexp Hc0 Hc Hq)
          as (s'&nb&Hrun&Hok'&Ht'&Hb'&Hv'&Hcas'&_).
        exists ITEM_OK, s'. split; [done|].
        split; [|split; [done|split; [done|by intros [?|?]]]].
        intros _. split; [done|]. split; [done|].
        unfold stored_value, stored_cas. rewrite Ht'. cbn [assoc_find].
        rewrite decide_True by done. by rewrite Hb'.
    + eexists _, _. split.
      { unfold item_cas. rewrite (bind_Some _ _ _ _ _ Hg), (bind_Some _ _ _ _ _ Hgc).
        rewrite decide_True by done. unfold bind at 1.
        rewrite (borrow_release_st o io) by (mrun; done). reflexivity. }
      assert (Hh : heap (slab_refcount_add (o - offset io) (-1)
                           (upd_item o io (acquire_st o io s))) = heap s)
        by (msimpl; by apply borrow_release_heap).
      split; [done|]. split; [done|]. split; [|by intros [?|?]].
      intros _. split.
      { unfold store_ok, index_ok, free_ok. rewrite Hh. done. }
      split; [done|]. split; [done|]. split; [done|]. by exists c0.
Qed.

(** ** Append and prepend in a well-formed store *)

(** The chunk of a left-aligned item after [v] has been copied behind
    its value. *)
Lemma append_in_place_item k ov v i :
  key_of i = Some k → value_of i = Some ov → is_raligned i = false →
  klen i + (if has_cas i then 8 else 0) + vlen i + blen v <= blen (end_ i) →
  ∃ e1,
    mem_write (data_off i + vlen i - ITEM_HDR_SIZE) v (end_ i) = Some e1 ∧
    blen e1 = blen (end_ i) ∧
    key_of (set_vlen (vlen i + blen v) (set_end e1 i)) = Some k ∧
    value_of (set_vlen (vlen i + blen v) (set_end e1 i)) = Some (ov ++ v).
Proof.
  intros Hk Hv Hra Hroom.
  pose proof (mem_read_bounds _ _ _ _ Hk) as (Hk0&Hkl&Hkb).
  pose proof (mem_read_bounds _ _ _ _ Hv) as (Hd0&Hvl&Hvb).
  pose proof (blen_nonneg v) as Hv0.
  unfold key_of, value_of, data_off, key_idx in *. rewrite Hra in *. msimpl.
  rewrite Hra.
  set (idx := klen i + (if has_cas i then 8 else 0)) in *.
  replace (ITEM_HDR_SIZE + klen i + (if has_cas i then 8 else 0) - ITEM_HDR_SIZE)
    with idx in * by (subst idx; lia).
  replace (ITEM_HDR_SIZE + klen i + (if has_cas i then 8 else 0) + vlen i - ITEM_HDR_SIZE)
    with (idx + vlen i) by (subst idx; lia).
  destruct (mem_write_is_Some (idx + vlen i) v (end_ i)) as [e1 He1]; [lia|lia|].
  exists e1. split; [done|]. split; [by eapply mem_write_blen|]. split.
  - rewrite (mem_read_write_ne _ _ _ _ _ _ He1); [done|].
    left. subst idx. destruct (has_cas i); lia.
  - apply mem_read_app.
    + rewrite (mem_read_write_ne _ _ _ _ _ _ He1); [done|]. left. lia.
    + apply (mem_read_write_eq _ _ _ _ He1).
Qed.

(** The chunk of a right-aligned item after [v] has been copied in front
    of its value. *)
Lemma prepend_in_place_item k ov v i :
  key_of i = Some k → value_of i = Some ov → is_raligned i = true →
  klen i + (if has_cas i then 8 else 0) <=
    slab_item_size (id i) - ITEM_HDR_SIZE - vlen i - blen v →
  ∃ e1,
    mem_write (data_off i - blen v - ITEM_HDR_SIZE) v (end_ i) = Some e1 ∧
    blen e1 = blen (end_ i) ∧
    key_of (set_vlen (vlen i + blen v) (set_end e1 i)) = Some k ∧
    value_of (set_vlen (vlen i + blen v) (set_end e1 i)) = Some (v ++ ov).
Proof.
  intros Hk Hv Hra Hroom.
  pose proof (mem_read_bounds _ _ _ _ Hk) as (Hk0&Hkl&Hkb).
  pose proof (mem_read_bounds _ _ _ _ Hv) as (Hd0&Hvl&Hvb).
  pose proof (blen_nonneg v) as Hv0.
  unfold key_of, value_of, data_off, key_idx in *. rewrite Hra in *. msimpl.
  rewrite Hra.
  set (top := slab_item_size (id i) - ITEM_HDR_SIZE) in *.
  set (idx := top - vlen i - blen v) in *.
  replace (slab_item_size (id i) - vlen i - ITEM_HDR_SIZE)
    with (idx + blen v) in * by (subst idx top; lia).
  replace (slab_item_size (id i) - vlen i - blen v - ITEM_HDR_SIZE)
    with idx by (subst idx top; lia).
  replace (slab_item_size (id i) - (vlen i + blen v) - ITEM_HDR_SIZE)
    with idx by (subst idx top; lia).
  assert (Hc0 : 0 <= (if has_cas i then 8 else 0)) by (destruct (has_cas i); lia).
  destruct (mem_write_is_Some idx v (end_ i)) as [e1 He1]; [lia|lia|].
  exists e1. split; [done|]. split; [by eapply mem_write_blen|]. split.
  - rewrite (mem_read_write_ne _ _ _ _ _ _ He1); [done|].
    left. destruct (has_cas i); lia.
  - rewrite (Z.add_comm (vlen i)). apply mem_read_app.
    + apply (mem_read_write_eq _ _ _ _ He1).
    + rewrite (mem_read_write_ne _ _ _ _ _ _ He1); [done|]. right. lia.
Qed.

(** The in-place runs of [item_annex] from a well-formed store. *)
Lemma annex_in_place_run k v ap o io ov s :
  store_ok s →
  blen k <= UINT8_MAX →
  assoc_find k (table s) = Some o →
  heap s !! o = Some io →
  ¬ expired io s →
  value_of io = Some ov →
  vlen io + blen v <= UINT32_MAX →
  item_slabid (blen k) (vlen io + blen v) ≠ SLABCLASS_INVALID_ID →
  item_slabid (blen k) (vlen io + blen v) = id io →
  is_raligned io = negb ap →
  ∃ s' io',
    item_annex k v ap s = Some (ITEM_OK, s') ∧ store_ok s' ∧
    table s' = table s ∧ free_itemq s' = free_itemq s ∧
    item_metrics s' = item_metrics s ∧
    heap s' !! o = Some io' ∧
    value_of io' = Some (if ap then ov ++ v else v ++ ov) ∧
    is_raligned io' = is_raligned io ∧
    cas_of io' = Some (next_cas_val s) ∧
    (∀ x, x ≠ o → heap s' !! x = heap s !! x).
Proof.
  intros Hok Hk Hf Hio Hexp Hov Hsum Hval Hslab Hra.
  pose proof Hok as [Hix Hfq].
  pose proof (blen_nonneg k) as Hk0. pose proof (blen_nonneg v) as Hv0.
  assert (Hino : (k, o) ∈ table s) by by apply assoc_find_elem.
  pose proof (index_ok_entry _ _ _ Hix Hino) as Hlo.
  destruct (holds_item_lookup _ _ _ Hlo) as (io0&Hio0&Hlio).
  rewrite Hio in Hio0. injection Hio0 as <-.
  pose proof Hlio as (Hol&Hofq&Hokey&_&Horc&Holen&Hocas).
  pose proof (mem_read_bounds _ _ _ _ Hov) as (Hd0&Hvl0&Hdv).
  pose proof (mem_read_blen _ _ _ _ Hokey) as Hkl. symmetry in Hkl.
  assert (Hfit : ITEM_HDR_SIZE + blen k + (vlen io + blen v) +
                 (if use_cas then 8 else 0) <= slab_item_size (id io))
    by (apply item_slabid_fits; [lia|lia|done|congruence]).
  assert (Hw16 : wrap16 (refcount io + 1) = refcount io + 1)
    by (apply wrap16_small; unfold UINT16_MAX in *; lia).
  assert (Hw32 : wrap32 (vlen io + blen v) = vlen io + blen v)
    by (apply wrap32_small; lia).
  unfold end_len_ok in Holen.
  set (io1 := set_refcount (wrap16 (refcount io + 1)) io).
  assert (H1k : key_of io1 = Some k) by done.
  assert (H1v : value_of io1 = Some ov) by done.
  assert (H1ra : is_raligned io1 = negb ap) by done.
  unfold item_annex.
  unfold bind at 1. rewrite get_eq, Hf, Hio. rewrite decide_False by done.
  mstep (rd_eq vlen). rewrite Hw32. rewrite decide_False by done.
  mstep (rd_eq id). mstep (rd_eq is_raligned). rewrite Hslab, Hra.
  rewrite bool_decide_eq_true_2 by done. cbn [andb].
  destruct ap; cbn [negb] in *.
  - destruct (append_in_place_item k ov v io1 H1k H1v H1ra) as (e1&He1&Hl1&Hk1&Hv1).
    { subst io1. msimpl. rewrite Hkl, Hocas, Holen. lia. }
    subst io1. msimpl_in He1. msimpl_in Hl1.
    mstep data_eq. unfold bind at 1. rewrite memcpy_eq. mrun. rewrite He1. msimpl.
    mstep (wr_eq set_vlen).
    set (a1 := set_vlen (vlen io + blen v)
                 (set_end e1 (set_refcount (wrap16 (refcount io + 1)) io))) in *.
    unfold bind at 1. rewrite next_cas_eq.
    unfold bind at 1. rewrite set_cas_eq. mrun.
    destruct (set_cas_item_key (next_cas_val s) a1 k Hk1)
      as (a2&Hsc2&Hk2&Hbe2&Hlen2&Hrc2&Hl2&Hfq2&Hcas2).
    specialize (Hcas2 (next_cas_val_range s)).
    rewrite (next_cas_val_cas_id _ s) by done. rewrite Hsc2.
    assert (Hv2 : value_of a2 = Some (ov ++ v)).
    { rewrite (value_of_body_eq' _ _ Hbe2); [done|].
      unfold key_idx, data_off. subst a1. msimpl. rewrite Hra.
      destruct (has_cas io); lia. }
    destruct Hbe2 as (Ho2&Hid2&Hc2&Hra2&_).
    assert (Ha2 : refcount a2 = refcount io + 1 ∧ is_linked a2 = true ∧
                  in_freeq a2 = false ∧ id a2 = id io ∧ has_cas a2 = use_cas ∧
                  is_raligned a2 = false ∧ blen (end_ a2) = blen (end_ io) ∧
                  offset a2 = offset io).
    { subst a1. msimpl_in Hrc2. msimpl_in Hl2. msimpl_in Hfq2. msimpl_in Hid2.
      msimpl_in Hc2. msimpl_in Hra2. msimpl_in Hlen2. msimpl_in Ho2.
      rewrite Hrc2, Hl2, Hfq2, <- Hid2, <- Hc2, <- Hra2, <- Ho2, Hlen2, Hw16, Hl1.
      by repeat split. }
    destruct Ha2 as (Ha2rc&Ha2l&Ha2fq&Ha2id&Ha2c&Ha2ra&Ha2len&Ha2o).
    match goal with |- context [bind (item_check_type o) _ ?S] => set (S1 := S) end.
    assert (HS1 : heap S1 !! o = Some a2 ∧
              (∀ x, x ≠ o → heap S1 !! x = heap s !! x) ∧
              table S1 = table s ∧ free_itemq S1 = free_itemq s ∧
              item_metrics S1 = item_metrics s ∧
              slab_refcount S1 = slab_refcount (acquire_st o io s)).
    { subst S1. destruct (has_cas a1) eqn:Hhc.
      - split; [by mrun|]. split; [intros x Hx; by mrun|]. done.
      - assert (a2 = a1) as ->
          by (unfold set_cas_item in Hsc2; rewrite Hhc in Hsc2; congruence).
        split; [by mrun|]. split; [intros x Hx; by mrun|]. done. }
    destruct HS1 as (HS1o&HS1h&HS1t&HS1q&HS1m&HS1r).
    clearbody S1. clearbody a1.
    mstep check_type_eq. rewrite Hv2. msimpl.
    mstep release_eq.
    rewrite release_linked_st
      by (msimpl; first [done|rewrite Ha2rc; unfold UINT16_MAX in *; lia]).
    msimpl. rewrite Ha2rc. replace (refcount io + 1 - 1) with (refcount io) by lia.
    unfold ret. eexists _, _. split; [reflexivity|]. msimpl.
    assert (Hfin : linked_item k (set_refcount (refcount io)
                                    (set_vtype (classify (ov ++ v)) a2))).
    { unfold linked_item, end_len_ok. msimpl.
      change (key_of (set_refcount (refcount io) (set_vtype (classify (ov ++ v)) a2)))
        with (key_of a2).
      change (value_of (set_refcount (refcount io) (set_vtype (classify (ov ++ v)) a2)))
        with (value_of a2).
      rewrite Hk2, Hv2, Ha2l, Ha2fq, Ha2id, Ha2c, Ha2len.
      repeat split; try done; try lia. }
    split.
    { eapply (store_ok_update k o s); [done|done|done|done| |].
      - eapply holds_item_intro; [mrun; reflexivity|done].
      - intros x Hx. mrun. by apply HS1h. }
    do 3 (split; [done|]). split; [by rewrite lookup_insert_eq|].
    split; [done|]. split; [done|].
    split.
    { change (cas_of (set_refcount (refcount io) (set_vtype (classify (ov ++ v)) a2)))
        with (cas_of a2).
      rewrite Hcas2, Hc2, Ha2c. unfold next_cas_val. by destruct use_cas. }
    intros x Hx. rewrite !lookup_insert_ne by done. by apply HS1h.
  - destruct (prepend_in_place_item k ov v io1 H1k H1v H1ra) as (e1&He1&Hl1&Hk1&Hv1).
    { subst io1. msimpl. rewrite Hkl, Hocas. lia. }
    subst io1. msimpl_in He1. msimpl_in Hl1. msimpl_in Hv1. msimpl_in Hk1.
    mstep data_eq. unfold bind at 1. rewrite memcpy_eq. mrun. rewrite He1. msimpl.
    mstep (wr_eq set_vlen).
    set (a1 := set_vlen (vlen io + blen v)
                 (set_end e1 (set_refcount (wrap16 (refcount io + 1)) io))) in *.
    mstep check_type_eq. rewrite Hv1. msimpl.
    set (a1' := set_vtype (classify (v ++ ov)) a1).
    assert (Hk1' : key_of a1' = Some k) by done.
    unfold bind at 1. rewrite next_cas_eq.
    unfold bind at 1. rewrite set_cas_eq. mrun.
    destruct (set_cas_item_key (next_cas_val s) a1' k Hk1')
      as (a2&Hsc2&Hk2&Hbe2&Hlen2&Hrc2&Hl2&Hfq2&Hcas2).
    specialize (Hcas2 (next_cas_val_range s)).
    rewrite (next_cas_val_cas_id _ s) by done. rewrite Hsc2.
    assert (Hv2 : value_of a2 = Some (v ++ ov)).
    { rewrite (value_of_body_eq' _ _ Hbe2); [done|].
      unfold key_idx, data_off. subst a1' a1. msimpl. rewrite Hra, Hocas.
      destruct use_cas; lia. }
    destruct Hbe2 as (Ho2&Hid2&Hc2&Hra2&_).
    assert (Ha2 : refcount a2 = refcount io + 1 ∧ is_linked a2 = true ∧
                  in_freeq a2 = false ∧ id a2 = id io ∧ has_cas a2 = use_cas ∧
                  is_raligned a2 = true ∧ blen (end_ a2) = blen (end_ io) ∧
                  offset a2 = offset io).
    { subst a1' a1. msimpl_in Hrc2. msimpl_in Hl2. msimpl_in Hfq2. msimpl_in Hid2.
      msimpl_in Hc2. msimpl_in Hra2. msimpl_in Hlen2. msimpl_in Ho2.
      rewrite Hrc2, Hl2, Hfq2, <- Hid2, <- Hc2, <- Hra2, <- Ho2, Hlen2, Hw16, Hl1.
      by repeat split. }
    destruct Ha2 as (Ha2rc&Ha2l&Ha2fq&Ha2id&Ha2c&Ha2ra&Ha2len&Ha2o).
    match goal with |- context [bind (_item_release_refcount o) _ ?S] => set (S1 := S) end.
    assert (HS1 : heap S1 !! o = Some a2 ∧
              (∀ x, x ≠ o → heap S1 !! x = heap s !! x) ∧
              table S1 = table s ∧ free_itemq S1 = free_itemq s ∧
              item_metrics S1 = item_metrics s ∧
              slab_refcount S1 = slab_refcount (acquire_st o io s)).
    { subst S1. destruct (has_cas a1') eqn:Hhc.
      - split; [by mrun|]. split; [intros x Hx; by mrun|]. done.
      - assert (a2 = a1') as ->
          by (unfold set_cas_item in Hsc2; rewrite Hhc in Hsc2; congruence).
        split; [by mrun|]. split; [intros x Hx; by mrun|]. done. }
    destruct HS1 as (HS1o&HS1h&HS1t&HS1q&HS1m&HS1r).
    clearbody S1. clearbody a1'. clearbody a1.
    mstep release_eq.
    rewrite release_linked_st
      by (msimpl; first [done|rewrite Ha2rc; unfold UINT16_MAX in *; lia]).
    msimpl. rewrite Ha2rc. replace (refcount io + 1 - 1) with (refcount io) by lia.
    unfold ret. eexists _, _. split; [reflexivity|]. msimpl.
    assert (Hfin : linked_item k (set_refcount (refcount io) a2)).
    { unfold linked_item, end_len_ok. msimpl.
      change (key_of (set_refcount (refcount io) a2)) with (key_of a2).
      change (value_of (set_refcount (refcount io) a2)) with (value_of a2).
      rewrite Hk2, Hv2, Ha2l, Ha2fq, Ha2id, Ha2c, Ha2len.
      repeat split; try done; try lia. }
    split.
    { eapply (store_ok_update k o s); [done|done|done|done| |].
      - eapply holds_item_intro; [mrun; reflexivity|done].
      - intros x Hx. mrun. by apply HS1h. }
    do 3 (split; [done|]). split; [by rewrite lookup_insert_eq|].
    split; [done|]. split; [done|].
    split.
    { change (cas_of (set_refcount (refcount io) a2)) with (cas_of a2).
      rewrite Hcas2, Hc2, Ha2c. unfold next_cas_val. by destruct use_cas. }
    intros x Hx. rewrite !lookup_insert_ne by done. by apply HS1h.
Qed.

(** The chunk of a fresh, left-aligned item after the old value and then
    [v] have been copied into it. *)
Lemma append_fresh_item k ov v e ni :
  pre_holds k (blen ov + blen v) e ni →
  blen k + (if use_cas then 8 else 0) + blen ov + blen v <= blen (end_ ni) →
  ∃ e1 e2,
    mem_write (data_off ni - ITEM_HDR_SIZE) ov (end_ ni) = Some e1 ∧
    mem_write (data_off (set_end e1 ni) + blen ov - ITEM_HDR_SIZE) v e1 = Some e2 ∧
    blen e2 = blen (end_ ni) ∧
    key_of (set_end e2 (set_end e1 ni)) = Some k ∧
    value_of (set_end e2 (set_end e1 ni)) = Some (ov ++ v).
Proof.
  intros (Hc&Hra&Hkl&Hvl&Hexp&Hkey) Hroom.
  pose proof (blen_nonneg k) as Hk0. pose proof (blen_nonneg v) as Hv0.
  pose proof (blen_nonneg ov) as Hov0.
  assert (Hc0 : 0 <= (if use_cas then 8 else 0)) by (destruct use_cas; lia).
  change (data_off (set_end ?e ni)) with (data_off ni).
  unfold key_of, value_of, key_idx in *. msimpl.
  change (data_off (set_end ?e ni)) with (data_off ni).
  assert (Hd : data_off ni - ITEM_HDR_SIZE = blen k + (if use_cas then 8 else 0))
    by (unfold data_off; rewrite Hra, Hkl, Hc; lia).
  replace (data_off ni + blen ov - ITEM_HDR_SIZE)
    with (data_off ni - ITEM_HDR_SIZE + blen ov) by lia.
  set (idx := data_off ni - ITEM_HDR_SIZE) in *.
  destruct (mem_write_is_Some idx ov (end_ ni)) as [e1 He1]; [lia|lia|].
  pose proof (mem_write_blen _ _ _ _ He1) as Hl1.
  destruct (mem_write_is_Some (idx + blen ov) v e1) as [e2 He2]; [lia|lia|].
  pose proof (mem_write_blen _ _ _ _ He2) as Hl2.
  exists e1, e2. split; [done|]. split; [done|]. split; [congruence|]. split.
  - rewrite (mem_read_write_ne _ _ _ _ _ _ He2) by (rewrite Hc, Hkl; lia).
    rewrite (mem_read_write_ne _ _ _ _ _ _ He1) by (rewrite Hc, Hkl; lia). done.
  - rewrite Hvl.
    change (data_off (set_end e2 (set_end e1 ni)) - ITEM_HDR_SIZE) with idx.
    apply mem_read_app.
    + rewrite (mem_read_write_ne _ _ _ _ _ _ He2) by lia.
      apply (mem_read_write_eq _ _ _ _ He1).
    + apply (mem_read_write_eq _ _ _ _ He2).
Qed.

(** The chunk of a fresh item, made right-aligned, after the old value
    and then [v] in front of it have been copied into its tail. *)
Lemma prepend_fresh_item k ov v e ni :
  pre_holds k (blen ov + blen v) e ni →
  end_len_ok ni →
  ITEM_HDR_SIZE + blen k + (blen ov + blen v) + (if use_cas then 8 else 0)
    <= slab_item_size (id ni) →
  ∃ e1 e2,
    mem_write (data_off (set_is_raligned true ni) + blen v - ITEM_HDR_SIZE) ov (end_ ni)
      = Some e1 ∧
    mem_write (data_off (set_end e1 (set_is_raligned true ni)) - ITEM_HDR_SIZE) v e1
      = Some e2 ∧
    blen e2 = blen (end_ ni) ∧
    key_of (set_end e2 (set_end e1 (set_is_raligned true ni))) = Some k ∧
    value_of (set_end e2 (set_end e1 (set_is_raligned true ni))) = Some (v ++ ov).
Proof.
  intros (Hc&Hra&Hkl&Hvl&Hexp&Hkey) Hlen Hfit.
  pose proof (blen_nonneg k) as Hk0. pose proof (blen_nonneg v) as Hv0.
  pose proof (blen_nonneg ov) as Hov0.
  assert (Hc0 : 0 <= (if use_cas then 8 else 0)) by (destruct use_cas; lia).
  unfold end_len_ok in Hlen.
  unfold key_of, value_of, key_idx, data_off in *. msimpl.
  rewrite Hvl.
  set (top := slab_item_size (id ni) - ITEM_HDR_SIZE) in *.
  set (idx := top - (blen ov + blen v)).
  replace (slab_item_size (id ni) - (blen ov + blen v) + blen v - ITEM_HDR_SIZE)
    with (idx + blen v) by (subst idx top; lia).
  replace (slab_item_size (id ni) - (blen ov + blen v) - ITEM_HDR_SIZE)
    with idx by (subst idx top; lia).
  destruct (mem_write_is_Some (idx + blen v) ov (end_ ni)) as [e1 He1];
    [subst idx; lia|subst idx; lia|].
  pose proof (mem_write_blen _ _ _ _ He1) as Hl1.
  destruct (mem_write_is_Some idx v e1) as [e2 He2]; [subst idx; lia|subst idx; lia|].
  pose proof (mem_write_blen _ _ _ _ He2) as Hl2.
  exists e1, e2. split; [done|]. split; [done|]. split; [congruence|]. split.
  - rewrite (mem_read_write_ne _ _ _ _ _ _ He2) by (rewrite Hc, Hkl; subst idx; lia).
    rewrite (mem_read_write_ne _ _ _ _ _ _ He1) by (rewrite Hc, Hkl; subst idx; lia).
    done.
  - rewrite (Z.add_comm (blen ov)). apply mem_read_app.
    + apply (mem_read_write_eq _ _ _ _ He2).
    + rewrite (mem_read_write_ne _ _ _ _ _ _ He2) by lia.
      apply (mem_read_write_eq _ _ _ _ He1).
Qed.

(** The reallocating runs of [item_annex] from a well-formed store. *)
Lemma annex_realloc_run k v ap o io ov b q s :
  store_ok s →
  blen k <= UINT8_MAX →
  assoc_find k (table s) = Some o →
  heap s !! o = Some io →
  ¬ expired io s →
  value_of io = Some ov →
  vlen io + blen v <= UINT32_MAX →
  item_slabid (blen k) (vlen io + blen v) ≠ SLABCLASS_INVALID_ID →
  ¬ (item_slabid (blen k) (vlen io + blen v) = id io ∧ is_raligned io = negb ap) →
  free_itemq s !! item_slabid (blen k) (vlen io + blen v) = Some (b :: q) →
  ∃ s' nb,
    item_annex k v ap s = Some (ITEM_OK, s') ∧ store_ok s' ∧
    table s' = (k, b) :: assoc_remove k (table s) ∧
    heap s' !! b = Some nb ∧
    value_of nb = Some (if ap then ov ++ v else v ++ ov) ∧
    is_raligned nb = negb ap ∧
    cas_of nb = Some (next_cas_val s) ∧ exptime nb = exptime io ∧
    item_curr (item_metrics s') = item_curr (item_metrics s).
Proof.
  intros Hok Hk Hf Hio Hexp Hov Hsum Hval Hslow Hq.
  pose proof Hok as [Hix Hfq].
  pose proof (blen_nonneg k) as Hk0. pose proof (blen_nonneg v) as Hv0.
  assert (Hino : (k, o) ∈ table s) by by apply assoc_find_elem.
  pose proof (index_ok_entry _ _ _ Hix Hino) as Hlo.
  destruct (holds_item_lookup _ _ _ Hlo) as (io0&Hio0&Hlio).
  rewrite Hio in Hio0. injection Hio0 as <-.
  pose proof Hlio as (Hol&Hofq&Hokey&_&Horc&Holen&Hocas).
  pose proof (mem_read_bounds _ _ _ _ Hov) as (Hd0&Hvl0&Hdv).
  pose proof (mem_read_blen _ _ _ _ Hov) as Hovl.
  set (total := vlen io + blen v) in *.
  set (c := item_slabid (blen k) total) in *.
  assert (Hfit : ITEM_HDR_SIZE + blen k + total +
                 (if use_cas then 8 else 0) <= slab_item_size c)
    by (apply item_slabid_fits; [lia|lia|done|done]).
  assert (Hw16 : wrap16 (refcount io + 1) = refcount io + 1)
    by (apply wrap16_small; unfold UINT16_MAX in *; lia).
  assert (Hw32 : wrap32 total = total) by (apply wrap32_small; lia).
  assert (Hw8 : wrap8 (blen k) = blen k) by (apply wrap8_small; lia).
  assert (Hc' : slab_id (item_ntotal (blen k) total use_cas) = c).
  { subst c. unfold item_slabid. by rewrite Hw8, Hw32. }
  assert (Hfb : holds_item (free_item c) (heap s) b)
    by (eapply free_ok_entry; [done..|by left]).
  destruct (holds_item_lookup _ _ _ Hfb) as (fi&Hfi&Hfree).
  assert (Hob : o ≠ b) by (intros ->; by eapply linked_not_free).
  assert (HSab : heap (acquire_st o io s) !! b = Some fi) by by mrun.
  destruct (alloc_run k (exptime io) total b q fi (acquire_st o io s))
    as (ni&Halloc&Hpre&Hnrc&Hnl&Hnfq&Hnid&Hnlen&Hroom);
    [done|lia|by rewrite Hc'|by rewrite Hc'|done|by rewrite Hc'|].
  rewrite Hc' in Halloc, Hnid.
  pose proof Hpre as (Hncas&Hnra&Hnkl&Hnvl&Hnexp&Hnkey).
  assert (Hcond : bool_decide (c = id io) &&
                  (if ap then negb (is_raligned io) else is_raligned io) = false).
  { destruct (bool_decide (c = id io)) eqn:Hb; [|done].
    apply bool_decide_eq_true in Hb. cbn [andb].
    destruct ap, (is_raligned io); try done; by destruct Hslow. }
  assert (Htot : total = blen ov + blen v) by (subst total; lia).
  unfold item_annex.
  unfold bind at 1. rewrite get_eq, Hf, Hio. rewrite decide_False by done.
  mstep (rd_eq vlen). fold total. rewrite Hw32. fold c. rewrite decide_False by done.
  mstep (rd_eq id). mstep (rd_eq is_raligned).
  destruct ap; cbn [negb] in *; rewrite Hcond.
  - mstep (rd_eq exptime). unfold bind at 1. rewrite Halloc.
    destruct (append_fresh_item k ov v (exptime io) ni) as (e1&e2&He1&He2&Hl2&Hk2&Hv2);
      [by rewrite <- Htot|lia|].
    mstep data_eq. mstep data_eq. mstep (rd_eq vlen).
    mstep chunk_load_eq.
    change (data_off (set_refcount (wrap16 (refcount io + 1)) io)) with (data_off io).
    unfold value_of in Hov. rewrite Hov. msimpl.
    unfold bind at 1. rewrite memcpy_eq. mrun. rewrite He1. msimpl.
    mstep data_eq. mstep (rd_eq vlen).
    unfold bind at 1. rewrite memcpy_eq. mrun. rewrite <- Hovl, He2. msimpl.
    mstep check_type_eq. rewrite Hv2. msimpl.
    set (x1 := set_vtype (classify (ov ++ v)) (set_end e2 (set_end e1 ni))).
    match goal with |- context [bind (_item_relink o b) _ ?S] => set (S2 := S) end.
    destruct (replace_finish k c o io b q x1 S2 s)
      as (S3&S4&S5&nb&Hr3&Hr4&Hr5&Hok5&Ht5&Hb5&Hv5&Hra5&He5&_&Hc5&Hm5);
      [done|done|done|done|done|by (subst S2; mrun)|by (subst S2; mrun)
      |by (intros x Hxb Hxo; subst S2; mrun)|done|done|done|done
      |done|by exists (ov ++ v)| |done| |done|by (subst x1; msimpl)|].
    { unfold key_idx, data_off. subst x1. msimpl. rewrite Hnra, Hnkl.
      destruct (has_cas ni); lia. }
    { unfold end_len_ok in *. subst x1. msimpl. congruence. }
    rewrite (bind_Some _ _ _ _ _ Hr3), (bind_Some _ _ _ _ _ Hr4), (bind_Some _ _ _ _ _ Hr5).
    unfold ret. exists S5, nb. split; [done|]. split; [done|]. split; [done|].
    split; [done|]. split; [by rewrite Hv5|]. split; [by rewrite Hra5|].
    split; [done|]. split; [by rewrite He5|]. done.
  - mstep (rd_eq exptime). unfold bind at 1. rewrite Halloc.
    destruct (prepend_fresh_item k ov v (exptime io) ni) as (e1&e2&He1&He2&Hl2&Hk2&Hv2);
      [by rewrite <- Htot|done|rewrite <- Htot; by rewrite Hnid|].
    mstep (wr_eq set_is_raligned).
    mstep data_eq. mstep data_eq. mstep (rd_eq vlen).
    mstep chunk_load_eq.
    change (data_off (set_refcount (wrap16 (refcount io + 1)) io)) with (data_off io).
    unfold value_of in Hov. rewrite Hov. msimpl.
    unfold bind at 1. rewrite memcpy_eq. mrun. rewrite He1. msimpl.
    mstep data_eq.
    unfold bind at 1. rewrite memcpy_eq. mrun. rewrite He2. msimpl.
    mstep check_type_eq. rewrite Hv2. msimpl.
    set (x1 := set_vtype (classify (v ++ ov))
                 (set_end e2 (set_end e1 (set_is_raligned true ni)))).
    match goal with |- context [bind (_item_relink o b) _ ?S] => set (S2 := S) end.
    destruct (replace_finish k c o io b q x1 S2 s)
      as (S3&S4&S5&nb&Hr3&Hr4&Hr5&Hok5&Ht5&Hb5&Hv5&Hra5&He5&_&Hc5&Hm5);
      [done|done|done|done|done|by (subst S2; mrun)|by (subst S2; mrun)
      |by (intros x Hxb Hxo; subst S2; mrun)|done|done|done|done
      |done|by exists (v ++ ov)| |done| |done|by (subst x1; msimpl)|].
    { unfold key_idx, data_off. subst x1. msimpl. rewrite Hnid, Hnvl, Hncas.
      destruct use_cas; lia. }
    { unfold end_len_ok in *. subst x1. msimpl. congruence. }
    rewrite (bind_Some _ _ _ _ _ Hr3), (bind_Some _ _ _ _ _ Hr4), (bind_Some _ _ _ _ _ Hr5).
    unfold ret. exists S5, nb. split; [done|]. split; [done|]. split; [done|].
    split; [done|]. split; [by rewrite Hv5|]. split; [by rewrite Hra5|].
    split; [done|]. split; [by rewrite He5|]. done.
Qed.

(** X24: from a well-formed store [item_annex], append or prepend, with
    a key of at most 255 bytes and a value whose length added to that of
    the stored value fits 32 bits, always returns, never leaves its
    chunks, and returns a well-formed store, whatever the status: every
    path gives back the reference it took.  On ITEM_OK the key holds the
    old value followed (append) or preceded (prepend) by [v], with the
    next value of the CAS counter as its token; ITEM_ENOTFOUND leaves no
    entry for the key; ITEM_EOVERSIZED and ITEM_ENOMEM leave the heap,
    the index and the free queues as they were. *)
Theorem annex_keeps_store_ok k v ap s :
  store_ok s →
  blen k <= UINT8_MAX →
  (∀ o io, assoc_find k (table s) = Some o → heap s !! o = Some io →
           vlen io + blen v <= UINT32_MAX) →
  ∃ r s',
    item_annex k v ap s = Some (r, s') ∧ store_ok s' ∧ r ≠ ITEM_EOTHER ∧
    (r = ITEM_OK →
       ∃ ov, stored_value k s = Some ov ∧
             stored_value k s' = Some (if ap then ov ++ v else v ++ ov) ∧
             stored_cas k s' = Some (next_cas_val s)) ∧
    (r = ITEM_ENOTFOUND → assoc_find k (table s') = None) ∧
    (r = ITEM_EOVERSIZED ∨ r = ITEM_ENOMEM →
       heap s' = heap s ∧ table s' = table s ∧ free_itemq s' = free_itemq s).
Proof.
  intros Hok Hk Hsum. pose proof Hok as [Hix Hfq].
  pose proof (blen_nonneg k) as Hk0.
  destruct (get_run k s Hok)
    as [[Hf Hg]|[(o&io&s1&Hf&Hio&Hexp&Hg&Hok1&Ht1&_)|(o&io&Hf&Hio&Hlio&Hexp&Hg)]].
  - exists ITEM_ENOTFOUND, s.
    split; [unfold item_annex; by rewrite (bind_Some _ _ _ _ _ Hg)|].
    split; [done|]. split; [done|]. split; [done|]. split; [done|]. by intros [?|?].
  - exists ITEM_ENOTFOUND, s1.
    split; [unfold item_annex; by rewrite (bind_Some _ _ _ _ _ Hg)|].
    split; [done|]. split; [done|]. split; [done|].
    split; [|by intros [?|?]].
    intros _. rewrite Ht1. apply assoc_find_remove, Hix.
  - pose proof Hlio as (Hol&Hofq&Hokey&[ov Hov]&Horc&Holen&Hocas).
    specialize (Hsum o io Hf Hio).
    pose proof (mem_read_bounds _ _ _ _ Hov) as (_&Hvl0&_).
    pose proof (blen_nonneg v) as Hv0.
    assert (Hsv : stored_value k s = Some ov)
      by (unfold stored_value; by rewrite Hf, Hio).
    assert (Hw32 : wrap32 (vlen io + blen v) = vlen io + blen v)
      by (apply wrap32_small; lia).
    assert (Hh : heap (slab_refcount_add (o - offset io) (-1)
                         (upd_item o io (acquire_st o io s))) = heap s)
      by (msimpl; by apply borrow_release_heap).
    set (c := item_slabid (blen k) (vlen io + blen v)).
    destruct (decide (c = SLABCLASS_INVALID_ID)) as [Hc|Hc].
    { eexists _, _. split.
      { unfold item_annex. rewrite (bind_Some _ _ _ _ _ Hg).
        mstep (rd_eq vlen). rewrite Hw32. fold c. rewrite decide_True by done.
        unfold bind at 1.
        rewrite (borrow_release_st o io) by (mrun; done). reflexivity. }
      split; [unfold store_ok, index_ok, free_ok; by rewrite Hh|].
      split; [done|]. split; [done|]. split; [done|]. done. }
    destruct (decide (c = id io ∧ is_raligned io = negb ap)) as [[Hid Hra]|Hslow].
    { destruct (annex_in_place_run k v ap o io ov s)
        as (s'&io'&Hrun&Hok'&Ht'&_&_&Ho'&Hv'&_&Hcas'&_); try done.
      exists ITEM_OK, s'. split; [done|]. split; [done|]. split; [done|].
      split; [|split; [done|by intros [?|?]]].
      intros _. exists ov. split; [done|].
      unfold stored_value, stored_cas. by rewrite Ht', Hf, Ho'. }
    destruct (free_itemq s !! c) as [[|b q]|] eqn:Hq.
    2:{ destruct (annex_realloc_run k v ap o io ov b q s)
          as (s'&nb&Hrun&Hok'&Ht'&Hb'&Hv'&_&Hcas'&_); try done.
        exists ITEM_OK, s'. split; [done|]. split; [done|]. split; [done|].
        split; [|split; [done|by intros [?|?]]].
        intros _. exists ov. split; [done|].
        unfold stored_value, stored_cas. rewrite Ht'. cbn [assoc_find].
        rewrite decide_True by done. by rewrite Hb'. }
    all: assert (Hc' : slab_id (item_ntotal (blen k) (vlen io + blen v) use_cas) = c)
      by (subst c; unfold item_slabid;
          by rewrite Hw32, (wrap8_small (blen k)) by lia).
    all: assert (Hcond : bool_decide (c = id io) &&
                    (if ap then negb (is_raligned io) else is_raligned io) = false)
      by (destruct (bool_decide (c = id io)) eqn:Hb; [|done];
          apply bool_decide_eq_true in Hb; cbn [andb];
          destruct ap, (is_raligned io); try done; by destruct Hslow).
    all: eexists _, _; split;
      [unfold item_annex; rewrite (bind_Some _ _ _ _ _ Hg);
       mstep (rd_eq vlen); rewrite Hw32; fold c; rewrite decide_False by done;
       mstep (rd_eq id); mstep (rd_eq is_raligned);
       destruct ap; rewrite Hcond;
         (mstep (rd_eq exptime); unfold bind at 1; rewrite alloc_eq; cbv zeta;
          rewrite Hc'; rewrite decide_False by done; mrun; rewrite Hq; msimpl;
          unfold bind at 1;
          rewrite (borrow_release_st o io) by (mrun; done); reflexivity)|].
    all: assert (Hh' : ∀ S, heap S = heap (acquire_st o io s) →
                  heap (slab_refcount_add (o - offset io) (-1) (upd_item o io S)) = heap s)
      by (intros S HS; msimpl; rewrite HS; by apply borrow_release_heap).
    all: split; [eapply (store_ok_same s); [done|by apply Hh'|done|done]|].
    all: split; [done|]; split; [done|]; split; [done|].
    all: intros _; split; [by apply Hh'|done].
Qed.

(** ** Update in a well-formed store *)

(** The chunk of an item after its value has been replaced. *)
Lemma update_item k val i :
  key_of i = Some k → end_len_ok i →
  ITEM_HDR_SIZE + klen i + blen val + (if has_cas i then 8 else 0)
    <= slab_item_size (id i) →
  ∃ e1,
    mem_write (data_off (set_vlen (blen val) i) - ITEM_HDR_SIZE) val (end_ i) = Some e1 ∧
    blen e1 = blen (end_ i) ∧
    key_of (set_end e1 (set_vlen (blen val) i)) = Some k ∧
    value_of (set_end e1 (set_vlen (blen val) i)) = Some val ∧
    cas_of (set_end e1 (set_vlen (blen val) i)) = cas_of i.
Proof.
  intros Hk Hlen Hfit.
  pose proof (mem_read_bounds _ _ _ _ Hk) as (Hk0&Hkl&Hkb).
  pose proof (blen_nonneg val) as Hv0.
  unfold end_len_ok in Hlen.
  unfold key_of, value_of, cas_of, data_off, key_idx in *. msimpl.
  assert (Hc0 : 0 <= (if has_cas i then 8 else 0)) by (destruct (has_cas i); lia).
  destruct (is_raligned i).
  - set (idx := slab_item_size (id i) - blen val - ITEM_HDR_SIZE).
    destruct (mem_write_is_Some idx val (end_ i)) as [e1 He1];
      [subst idx; lia|subst idx; lia|].
    exists e1. split; [done|]. split; [by eapply mem_write_blen|]. split.
    + rewrite (mem_read_write_ne _ _ _ _ _ _ He1); [done|]. left. subst idx. lia.
    + split; [apply (mem_read_write_eq _ _ _ _ He1)|].
      destruct (has_cas i); [|done].
      rewrite (mem_read_write_ne _ _ _ _ _ _ He1); [done|]. left. subst idx. lia.
  - set (idx := ITEM_HDR_SIZE + klen i + (if has_cas i then 8 else 0) - ITEM_HDR_SIZE).
    destruct (mem_write_is_Some idx val (end_ i)) as [e1 He1];
      [subst idx; lia|subst idx; lia|].
    exists e1. split; [done|]. split; [by eapply mem_write_blen|]. split.
    + rewrite (mem_read_write_ne _ _ _ _ _ _ He1); [done|]. left. subst idx. lia.
    + split; [apply (mem_read_write_eq _ _ _ _ He1)|].
      destruct (has_cas i); [|done].
      rewrite (mem_read_write_ne _ _ _ _ _ _ He1); [done|]. left. subst idx. lia.
Qed.

(** X25: from a well-formed store [item_update] on the item of a key,
    with a value of at most UINT32_MAX bytes, always returns and never
    leaves the chunk.  It returns ITEM_EOVERSIZED, and changes nothing,
    exactly when the new value does not belong to the slab class of the
    item; otherwise it returns ITEM_OK, the key holds the new value in
    the same item, with the alignment, the CAS token, the expiry time and
    the reference count it had, the type tag of the new value, and the
    store is well-formed again.  Neither the index nor any counter
    moves. *)
Theorem update_keeps_store_ok k a i val s :
  store_ok s →
  assoc_find k (table s) = Some a →
  heap s !! a = Some i →
  blen k <= UINT8_MAX →
  blen val <= UINT32_MAX →
  id i ≠ SLABCLASS_INVALID_ID →
  ∃ r s',
    item_update a val s = Some (r, s') ∧ store_ok s' ∧
    (r = ITEM_EOVERSIZED ↔ item_slabid (blen k) (blen val) ≠ id i) ∧
    (r = ITEM_EOVERSIZED → s' = s) ∧
    (r ≠ ITEM_EOVERSIZED →
       r = ITEM_OK ∧ stored_value k s' = Some val ∧
       stored_cas k s' = stored_cas k s ∧
       ∃ i', heap s' !! a = Some i' ∧ vlen i' = blen val ∧
             vtype i' = classify val ∧
             is_raligned i' = is_raligned i ∧ exptime i' = exptime i ∧
             refcount i' = refcount i ∧
             (∀ x, x ≠ a → heap s' !! x = heap s !! x) ∧
             table s' = table s ∧ free_itemq s' = free_itemq s ∧
             item_metrics s' = item_metrics s ∧ cas_id s' = cas_id s).
Proof.
  intros Hok Hf Hi Hk Hval Hid. pose proof Hok as [Hix Hfq].
  pose proof (blen_nonneg k) as Hk0. pose proof (blen_nonneg val) as Hv0.
  assert (Hino : (k, a) ∈ table s) by by apply assoc_find_elem.
  pose proof (index_ok_entry _ _ _ Hix Hino) as Hlo.
  destruct (holds_item_lookup _ _ _ Hlo) as (i0&Hi0&Hli).
  rewrite Hi in Hi0. injection Hi0 as <-.
  pose proof Hli as (Hl&Hfrq&Hkey&_&Hrc&Hlen&Hcas).
  pose proof (mem_read_blen _ _ _ _ Hkey) as Hkl. symmetry in Hkl.
  unfold item_update.
  mstep (rd_eq klen). mstep (rd_eq id). rewrite Hkl.
  destruct (decide (item_slabid (blen k) (blen val) ≠ id i)) as [Hne|Heq].
  - exists ITEM_EOVERSIZED, s. split; [done|]. split; [done|].
    split; [done|]. split; [done|]. done.
  - assert (Heq' : item_slabid (blen k) (blen val) = id i)
      by (destruct (decide (item_slabid (blen k) (blen val) = id i)); [done|by destruct Heq]).
    assert (Hfit : ITEM_HDR_SIZE + blen k + blen val +
                   (if use_cas then 8 else 0) <= slab_item_size (id i))
      by (apply item_slabid_fits; [lia|lia|done|done]).
    destruct (update_item k val i Hkey Hlen) as (e1&He1&Hl1&Hk1&Hv1&Hc1);
      [rewrite Hkl, Hcas; lia|].
    mstep (wr_eq set_vlen). mstep data_eq.
    unfold bind at 1. rewrite memcpy_eq. mrun. rewrite He1. msimpl.
    mstep check_type_eq. rewrite Hv1. msimpl. unfold ret.
    eexists _, _. split; [reflexivity|].
    set (i' := set_vtype (classify val) (set_end e1 (set_vlen (blen val) i))).
    assert (Hfin : linked_item k i').
    { unfold linked_item, end_len_ok in *. subst i'. msimpl.
      change (key_of (set_vtype (classify val) (set_end e1 (set_vlen (blen val) i))))
        with (key_of (set_end e1 (set_vlen (blen val) i))).
      change (value_of (set_vtype (classify val) (set_end e1 (set_vlen (blen val) i))))
        with (value_of (set_end e1 (set_vlen (blen val) i))).
      rewrite Hk1, Hv1, Hl1. repeat split; first [done | by eexists | lia]. }
    split.
    { eapply (store_ok_update k a s); [done|done|done|done| |].
      - eapply holds_item_intro; [mrun; reflexivity|done].
      - intros x Hx. by mrun. }
    split; [split; [discriminate|intros Hx; by destruct Heq]|]. split; [discriminate|]. intros _.
    split; [done|].
    unfold stored_value, stored_cas. msimpl. rewrite Hf, Hi. mrun.
    split; [done|]. split; [done|].
    exists i'. split; [done|]. by repeat split; try (intros x Hx; mrun).
Qed.

End Item.

(** * The properties on the small configuration *)

Ltac ex_auto :=
  first
    [ vm_compute; reflexivity
    | vm_compute; intros; discriminate
    | vm_compute; intros [H _]; by apply H
    | vm_compute; intros [_ H]; discriminate
    | apply (bool_decide_unpack _); vm_compute; exact I
    | cbn; unfold UINT8_MAX, UINT16_MAX, UINT32_MAX; lia ].

Ltac ex_split := repeat match goal with |- _ ∧ _ => split end.

Lemma set_then_get_witness :
  ∃ a i s2,
    item_get ex_hdr ex_foo (set_now 100 (ex_state 0 100 [1080])) = Some (Some a, s2) ∧
    heap s2 !! a = Some i ∧
    value_of ex_hdr ex_classes i = Some ex_bar ∧ vlen i = blen ex_bar.
Proof.
  apply (set_then_get true ex_hdr ex_classes ex_atou64 ex_foo ex_bar 0
           ex_empty (ex_state 0 100 [1080]) 100); ex_auto.
Defined.

(** C2, as stated, fails: "foo" is linked with CAS token 1; [item_cas] with
    the token 1 returns ITEM_OK, and the item then linked under "foo"
    stores the token 2, a fresh value of the CAS counter, not the supplied
    token 1. *)
Lemma cas_keeps_token_counterexample :
  (∃ old, assoc_find ex_foo (table (ex_state 0 100 [1080])) = Some 1032 ∧
          heap (ex_state 0 100 [1080]) !! 1032 = Some old ∧
          cas_of old = Some 1) ∧
  ∃ s1 i,
    item_cas true ex_hdr ex_classes ex_atou64 ex_foo ex_AB 0 1 (ex_state 0 100 [1080])
      = Some (ITEM_OK, s1) ∧
    assoc_find ex_foo (table s1) = Some 1080 ∧
    heap s1 !! 1080 = Some i ∧ is_linked i = true ∧
    cas_of i = Some 2 ∧ cas_of i ≠ Some 1.
Proof.
  split.
  - eexists. ex_split; ex_auto.
  - exists (exec (item_cas true ex_hdr ex_classes ex_atou64 ex_foo ex_AB 0 1)
                 (ex_state 0 100 [1080])).
    eexists. split; [vm_compute; reflexivity|].
    split; [ex_auto|]. split; [vm_compute; reflexivity|].
    ex_split; ex_auto.
Qed.

Lemma cas_links_with_next_token_witness :
  ∃ a i,
    assoc_find ex_foo
      (table (exec (item_cas true ex_hdr ex_classes ex_atou64 ex_foo ex_AB 0 1)
                   (ex_state 0 100 [1080]))) = Some a ∧
    heap (exec (item_cas true ex_hdr ex_classes ex_atou64 ex_foo ex_AB 0 1)
               (ex_state 0 100 [1080])) !! a = Some i ∧
    value_of ex_hdr ex_classes i = Some ex_AB ∧
    cas_of i = Some (wrap64 (1 + 1)).
Proof.
  apply (cas_links_with_next_token true ex_hdr ex_classes ex_atou64 ex_foo ex_AB 0 1
           (ex_state 0 100 [1080])); ex_auto.
Defined.

Lemma get_expired_unlinks_witness :
  ∃ s' i',
    item_get ex_hdr ex_foo (ex_state 105 106 [1080]) = Some (None, s') ∧
    heap s' !! 1032 = Some i' ∧ is_linked i' = false ∧
    assoc_find ex_foo (table s') = None ∧
    item_curr (item_metrics s') = 1 - 1 ∧
    item_get ex_hdr ex_foo s' = Some (None, s').
Proof.
  apply (get_expired_unlinks ex_hdr ex_foo 1032 (ex_foo_item 105 0 true)
           (ex_state 105 106 [1080])); ex_auto.
Defined.

Lemma release_frees_witness :
  ∃ s' i',
    _item_release_refcount 1032
      (set_heap (<[1032 := ex_foo_item 0 1 false]> ∅) ex_empty) = Some (tt, s') ∧
    heap s' !! 1032 = Some i' ∧ is_linked i' = false.
Proof.
  destruct (release_frees_iff_unreferenced_and_unlinked 1032 (ex_foo_item 0 1 false)
              (set_heap (<[1032 := ex_foo_item 0 1 false]> ∅) ex_empty))
    as (s'&i'&H1&H2&H3&_); [ex_auto..|].
  exists s', i'. auto.
Defined.

Lemma annex_append_in_place_witness :
  ∃ s' i',
    item_annex true ex_hdr ex_classes ex_atou64 ex_foo ex_AB true (ex_state 0 100 [1080])
      = Some (ITEM_OK, s') ∧
    table s' = table (ex_state 0 100 [1080]) ∧
    heap s' !! 1032 = Some i' ∧
    value_of ex_hdr ex_classes i' = Some (ex_bar ++ ex_AB).
Proof.
  destruct (annex_append_in_place true ex_hdr ex_classes ex_atou64 ex_foo ex_AB 1032
              (ex_foo_item 0 0 true) ex_bar (ex_state 0 100 [1080]))
    as (s'&i'&H1&H2&_&H3&_&H4&_); [ex_auto..|].
  exists s', i'. auto.
Defined.

(** C6, as stated, fails: "foo" is held by a live, left-aligned item, so
    the prepend fast-path condition fails, but class 1 has no free chunk:
    [item_annex] returns ITEM_ENOMEM, no item is allocated, and "foo" is
    still bound to the old, left-aligned item with the old value. *)
Lemma annex_prepend_allocates_counterexample :
  (∃ old, assoc_find ex_foo (table (ex_state 0 100 [])) = Some 1032 ∧
          heap (ex_state 0 100 []) !! 1032 = Some old ∧
          is_raligned old = false ∧ ¬ expired old (ex_state 0 100 [])) ∧
  ∃ s' i,
    item_annex true ex_hdr ex_classes ex_atou64 ex_foo ex_AB false (ex_state 0 100 [])
      = Some (ITEM_ENOMEM, s') ∧
    assoc_find ex_foo (table s') = Some 1032 ∧
    heap s' !! 1032 = Some i ∧
    is_raligned i = false ∧ value_of ex_hdr ex_classes i = Some ex_bar ∧
    item_req (item_metrics s') = item_req (item_metrics (ex_state 0 100 [])) ∧
    (∀ a j, heap s' !! a = Some j → is_raligned j = false).
Proof.
  split.
  - eexists. ex_split; ex_auto.
  - exists (exec (item_annex true ex_hdr ex_classes ex_atou64 ex_foo ex_AB false)
                 (ex_state 0 100 [])).
    eexists. split; [vm_compute; reflexivity|].
    split; [ex_auto|]. split; [vm_compute; reflexivity|].
    do 3 (split; [ex_auto|]).
    intros a j. destruct (decide (a = 1032)) as [->|Hne].
    + vm_compute. by intros [= <-].
    + intros H. exfalso. revert H.
      replace (heap (exec (item_annex true ex_hdr ex_classes ex_atou64 ex_foo ex_AB false)
                  (ex_state 0 100 [])))
        with (<[1032 := ex_foo_item 0 0 true]> (∅ : gmap Z item))
        by (vm_compute; reflexivity).
      rewrite lookup_insert_ne by done. by rewrite lookup_empty.
Qed.

Lemma annex_prepend_realigns_witness :
  ∃ s' nit s2 s3 nit2,
    item_annex true ex_hdr ex_classes ex_atou64 ex_foo ex_AB false (ex_state 0 100 [1080])
      = Some (ITEM_OK, s') ∧
    assoc_find ex_foo (table s') = Some 1080 ∧
    heap s' !! 1080 = Some nit ∧ is_raligned nit = true ∧
    value_of ex_hdr ex_classes nit = Some (ex_AB ++ ex_bar) ∧
    item_annex true ex_hdr ex_classes ex_atou64 ex_foo ex_CC false s' = Some (ITEM_OK, s2) ∧
    free_itemq s2 = free_itemq s' ∧
    item_get ex_hdr ex_foo s2 = Some (Some 1080, s3) ∧
    heap s3 !! 1080 = Some nit2 ∧
    value_of ex_hdr ex_classes nit2 = Some (ex_CC ++ ex_AB ++ ex_bar).
Proof.
  destruct (annex_prepend_realigns true ex_hdr ex_classes ex_atou64 ex_foo ex_AB 1032
              (ex_foo_item 0 0 true) ex_bar 1080 [] (ex_free_item 80)
              (ex_state 0 100 [1080]))
    as (s'&nit&H1&H2&H3&H4&_&H5&Hvl&_&Hid&Hnext); [ex_auto..|].
  destruct (Hnext ex_CC) as (s2&s3&nit2&G1&_&G2&_&G3&G4&G5).
  - rewrite Hvl. ex_auto.
  - rewrite Hvl, Hid. ex_auto.
  - exists s', nit, s2, s3, nit2. auto 10.
Defined.

Lemma set_oversized_leaves_state_witness :
  ∃ s',
    item_set true ex_hdr ex_classes ex_atou64 ex_foo (replicate 100 x00) 0 ex_empty
      = Some (ITEM_EOVERSIZED, s') ∧ s' = ex_empty.
Proof.
  destruct (set_oversized_leaves_state true ex_hdr ex_classes ex_atou64 ex_foo
              (replicate 100 x00) 0 ex_empty) as (s'&H1&H2&_); [ex_auto|].
  exists s'. auto.
Defined.

Lemma update_in_place_witness :
  ∃ r s',
    item_update true ex_hdr ex_classes ex_atou64 1032 ex_AB (ex_state 0 100 [])
      = Some (r, s') ∧
    (r = ITEM_EOVERSIZED ↔
     item_slabid true ex_hdr ex_classes (klen (ex_foo_item 0 0 true)) (blen ex_AB)
       ≠ id (ex_foo_item 0 0 true)).
Proof.
  destruct (update_in_place true ex_hdr ex_classes ex_atou64 1032
              (ex_foo_item 0 0 true) ex_AB (ex_state 0 100 []))
    as (r&s'&H1&H2&_); [ex_auto..|].
  exists r, s'. auto.
Defined.

Lemma delete_unlinks_and_releases_witness :
  ∃ r s',
    item_delete ex_hdr ex_foo (ex_state 0 100 []) = Some (r, s') ∧
    assoc_find ex_foo (table s') = None ∧
    item_get ex_hdr ex_foo s' = Some (None, s').
Proof.
  destruct (delete_unlinks_and_releases ex_hdr ex_foo (ex_state 0 100 []))
    as (r&s'&H1&_&_&_&H2&H3).
  - ex_auto.
  - intros a H. vm_compute in H. injection H as <-.
    exists (ex_foo_item 0 0 true). ex_split; ex_auto.
  - exists r, s'. auto.
Defined.

Lemma cas_alloc_failure_keeps_reference_witness :
  ∃ r s' i',
    item_cas true ex_hdr ex_classes ex_atou64 ex_foo ex_AB 0 1 (ex_state 0 100 [])
      = Some (r, s') ∧
    heap s' !! 1032 = Some i' ∧
    refcount i' = refcount (ex_foo_item 0 0 true) + 1.
Proof.
  destruct (cas_alloc_failure_keeps_reference true ex_hdr ex_classes ex_atou64
              ex_foo ex_AB 0 1 1032 (ex_foo_item 0 0 true) (ex_state 0 100 []))
    as (r&s'&i'&H1&_&H2&H3&_); [ex_auto..| |].
  - right. ex_auto.
  - exists r, s', i'. auto.
Defined.

(** ** Further properties on the small configuration *)

Ltac ex_decide := apply (bool_decide_unpack _); vm_compute; exact I.

Ltac ex_check := first [ex_decide | ex_auto].

Lemma absent_key_not_found_witness :
  item_get ex_hdr ex_foo ex_empty = Some (None, ex_empty) ∧
  item_cas true ex_hdr ex_classes ex_atou64 ex_foo ex_AB 0 1 ex_empty
    = Some (ITEM_ENOTFOUND, ex_empty) ∧
  item_annex true ex_hdr ex_classes ex_atou64 ex_foo ex_AB true ex_empty
    = Some (ITEM_ENOTFOUND, ex_empty).
Proof.
  apply (absent_key_not_found true ex_hdr ex_classes ex_atou64 ex_foo ex_AB 0 1 true
           ex_empty); ex_auto.
Defined.

Lemma expired_key_not_found_witness :
  ∃ s' i',
    item_cas true ex_hdr ex_classes ex_atou64 ex_foo ex_AB 0 1 (ex_state 105 106 [1080])
      = Some (ITEM_ENOTFOUND, s') ∧
    item_annex true ex_hdr ex_classes ex_atou64 ex_foo ex_AB true (ex_state 105 106 [1080])
      = Some (ITEM_ENOTFOUND, s') ∧
    heap s' !! 1032 = Some i' ∧ is_linked i' = false ∧
    assoc_find ex_foo (table s') = None.
Proof.
  destruct (expired_key_not_found true ex_hdr ex_classes ex_atou64 ex_foo ex_AB 0 1 true
              1032 (ex_foo_item 105 0 true) (ex_state 105 106 [1080]))
    as (s'&i'&H1&H2&H3&H4&_&_&_&H5&_); [ex_auto..|].
  exists s', i'. ex_split; assumption.
Defined.

Lemma get_then_release_restores_witness :
  ∃ s1 i1 s2,
    item_get ex_hdr ex_foo (ex_state 0 100 [1080]) = Some (Some 1032, s1) ∧
    heap s1 !! 1032 = Some i1 ∧ refcount i1 = 0 + 1 ∧
    _item_release_refcount 1032 s1 = Some (tt, s2) ∧
    heap s2 = heap (ex_state 0 100 [1080]).
Proof.
  destruct (get_then_release_restores ex_hdr ex_foo 1032 (ex_foo_item 0 0 true)
              (ex_state 0 100 [1080]))
    as (s1&i1&s2&H1&H2&H3&_&_&_&_&_&_&_&H4&H5&_); [ex_auto..|].
  exists s1, i1, s2. ex_split; assumption.
Defined.

Lemma cas_mismatch_is_rejected_witness :
  ∃ s',
    item_cas true ex_hdr ex_classes ex_atou64 ex_foo ex_AB 0 7 (ex_state 0 100 [1080])
      = Some (ITEM_EOTHER, s') ∧
    heap s' = heap (ex_state 0 100 [1080]) ∧
    stored_cas ex_foo s' = Some 1.
Proof.
  destruct (cas_mismatch_is_rejected true ex_hdr ex_classes ex_atou64 ex_foo ex_AB 0 7
              1032 (ex_foo_item 0 0 true) 1 (ex_state 0 100 [1080]))
    as (s'&H1&H2&_&_&_&_&_&H3); [ex_auto..|].
  exists s'. ex_split; assumption.
Defined.

Lemma annex_oversized_keeps_item_witness :
  ∃ s',
    item_annex true ex_hdr ex_classes ex_atou64 ex_foo (replicate 60 x41) true
      (ex_state 0 100 [1080]) = Some (ITEM_EOVERSIZED, s') ∧
    heap s' = heap (ex_state 0 100 [1080]) ∧
    free_itemq s' = free_itemq (ex_state 0 100 [1080]).
Proof.
  destruct (annex_oversized_keeps_item true ex_hdr ex_classes ex_atou64 ex_foo
              (replicate 60 x41) true 1032 (ex_foo_item 0 0 true)
              (ex_state 0 100 [1080]))
    as (s'&H1&H2&_&H3&_); [ex_auto..|].
  exists s'. ex_split; assumption.
Defined.

Lemma annex_alloc_failure_releases_witness :
  ∃ s',
    item_annex true ex_hdr ex_classes ex_atou64 ex_foo ex_AB false (ex_state 0 100 [])
      = Some (ITEM_ENOMEM, s') ∧
    heap s' = heap (ex_state 0 100 []) ∧
    item_metrics s' = metric_add m_item_req_ex 1 (item_metrics (ex_state 0 100 [])).
Proof.
  destruct (annex_alloc_failure_releases true ex_hdr ex_classes ex_atou64 ex_foo ex_AB
              false 1032 (ex_foo_item 0 0 true) (ex_state 0 100 []))
    as (s'&H1&H2&_&_&_&H3&_); [ex_auto..|].
  exists s'. ex_split; assumption.
Defined.

Lemma reuse_unlinks_without_freeing_witness :
  ∃ s',
    item_reuse ex_hdr 1032 (ex_state 0 100 [1080]) = Some (tt, s') ∧
    heap s' !! 1032 = Some (set_is_linked false (ex_foo_item 0 0 true)) ∧
    free_itemq s' = free_itemq (ex_state 0 100 [1080]) ∧
    item_metrics s' = item_metrics (ex_state 0 100 [1080]) ∧
    item_get ex_hdr ex_foo s' = Some (None, s').
Proof.
  destruct (reuse_unlinks_without_freeing ex_hdr 1032 (ex_foo_item 0 0 true) ex_foo
              (ex_state 0 100 [1080]))
    as (s'&H1&H2&_&_&H3&_&H4&_&H5); [ex_auto..|].
  exists s'. ex_split; assumption.
Defined.

Lemma expiry_tests_differ_at_the_clock_witness :
  ∃ b,
    _item_expired 1032 (ex_state 100 100 [1080]) = Some (b, ex_state 100 100 [1080]) ∧
    (expired (ex_foo_item 100 0 true) (ex_state 100 100 [1080]) ∧ b = false ↔
     100 ≠ 0 ∧ 100 = 100).
Proof.
  destruct (expiry_tests_differ_at_the_clock 1032 (ex_foo_item 100 0 true)
              (ex_state 100 100 [1080]))
    as (b&H1&_&_&H2); [ex_auto..|].
  exists b. ex_split; assumption.
Defined.

Lemma next_cas_counts_up_witness :
  ∃ c s',
    _item_next_cas true ex_empty = Some (c, s') ∧
    (true = true → 0 < UINT64_MAX → c = 0 + 1 ∧ 1 <= c <= UINT64_MAX ∧ cas_id s' = c).
Proof.
  destruct (next_cas_counts_up true ex_empty) as (c&s'&H1&H2&_); [ex_auto|].
  exists c, s'. ex_split; assumption.
Defined.

Lemma unlink_unlinked_only_counts_witness :
  ∃ s',
    _item_unlink ex_hdr 1032 ex_empty = Some (tt, s') ∧
    heap s' = heap ex_empty ∧ table s' = table ex_empty ∧
    item_curr (item_metrics s') = 0 - 1.
Proof.
  destruct (unlink_unlinked_only_counts ex_hdr 1032 (ex_free_item 32) ex_empty)
    as (s'&H1&H2&H3&_&_&_&H4&_); [ex_auto..|].
  exists s'. ex_split; assumption.
Defined.

Lemma alloc_returns_borrowed_item_witness :
  ∃ s' ni,
    item_alloc true ex_hdr ex_classes ex_foo 0 3 ex_empty
      = Some ((ITEM_OK, Some 1032), s') ∧
    heap s' !! 1032 = Some ni ∧ refcount ni = 0 + 1 ∧
    key_of ni = Some ex_foo ∧ cas_of ni = Some 0.
Proof.
  destruct (alloc_returns_borrowed_item true ex_hdr ex_classes ex_foo 0 3 1032 [1080]
              (ex_free_item 32) ex_empty)
    as (s'&ni&H1&H2&H3&_&_&_&_&_&_&_&_&_&H4&H5&_); [ex_auto..|].
  exists s', ni. ex_split; assumption.
Defined.

Lemma set_without_free_chunk_witness :
  ∃ s',
    item_set true ex_hdr ex_classes ex_atou64 ex_foo ex_AB 0
      (exec (item_get ex_hdr ex_foo) (ex_state 0 100 []))
      = Some (ITEM_ENOMEM, s') ∧
    heap s' = heap (exec (item_get ex_hdr ex_foo) (ex_state 0 100 [])) ∧
    stored_value ex_hdr ex_classes ex_foo s' = Some ex_bar.
Proof.
  destruct (set_without_free_chunk true ex_hdr ex_classes ex_atou64 ex_foo ex_AB 0
              (exec (item_get ex_hdr ex_foo) (ex_state 0 100 [])))
    as (s'&_&H1&H2&_&_&_&_&_&H3); [ex_check..|].
  exists s'. ex_split; assumption.
Defined.

Lemma relink_keeps_item_count_witness :
  ∃ s' io' ni',
    _item_relink true ex_hdr 1032 1080 (ex_state 0 100 [1080]) = Some (tt, s') ∧
    table s' = ([], 1080) :: assoc_remove ex_foo (table (ex_state 0 100 [1080])) ∧
    heap s' !! 1032 = Some io' ∧ is_linked io' = false ∧
    heap s' !! 1080 = Some ni' ∧ is_linked ni' = true ∧
    item_curr (item_metrics s') = item_curr (item_metrics (ex_state 0 100 [1080])).
Proof.
  destruct (relink_keeps_item_count true ex_hdr 1032 1080 (ex_foo_item 0 0 true)
              (ex_free_item 80) ex_foo [] (ex_state 0 100 [1080]))
    as (s'&io'&ni'&H1&H2&H3&H4&H5&H6&_&_&_&H7&_); [ex_auto..|].
  exists s', io', ni'. ex_split; assumption.
Defined.

Lemma annex_append_reallocates_witness :
  ∃ s' nit oit,
    item_annex true ex_hdr ex_classes ex_atou64 ex_foo ex_CC true
      (exec (item_annex true ex_hdr ex_classes ex_atou64 ex_foo ex_AB false)
            (ex_state 0 100 [1080])) = Some (ITEM_OK, s') ∧
    assoc_find ex_foo (table s') = Some 1032 ∧
    heap s' !! 1032 = Some nit ∧ is_raligned nit = false ∧
    value_of ex_hdr ex_classes nit = Some ((ex_AB ++ ex_bar) ++ ex_CC) ∧
    heap s' !! 1080 = Some oit ∧ is_linked oit = false.
Proof.
  destruct (annex_append_reallocates true ex_hdr ex_classes ex_atou64 ex_foo ex_CC 1080
              (default (ex_free_item 80)
                 (heap (exec (item_annex true ex_hdr ex_classes ex_atou64 ex_foo ex_AB false)
                             (ex_state 0 100 [1080])) !! 1080))
              (ex_AB ++ ex_bar) 1032 []
              (default (ex_free_item 32)
                 (heap (exec (item_annex true ex_hdr ex_classes ex_atou64 ex_foo ex_AB false)
                             (ex_state 0 100 [1080])) !! 1032))
              (exec (item_annex true ex_hdr ex_classes ex_atou64 ex_foo ex_AB false)
                    (ex_state 0 100 [1080])))
    as (s'&nit&oit&H1&_&H2&H3&H4&_&H5&_&_&_&_&_&_&_&_&_&H6&H7&_); [ex_auto..|].
  exists s', nit, oit. ex_split; assumption.
Defined.

Lemma annex_prepend_in_place_witness :
  ∃ s' i',
    item_annex true ex_hdr ex_classes ex_atou64 ex_foo ex_CC false
      (exec (item_annex true ex_hdr ex_classes ex_atou64 ex_foo ex_AB false)
            (ex_state 0 100 [1080])) = Some (ITEM_OK, s') ∧
    heap s' !! 1080 = Some i' ∧ is_raligned i' = true ∧
    value_of ex_hdr ex_classes i' = Some (ex_CC ++ ex_AB ++ ex_bar) ∧
    free_itemq s' =
      free_itemq (exec (item_annex true ex_hdr ex_classes ex_atou64 ex_foo ex_AB false)
                       (ex_state 0 100 [1080])).
Proof.
  destruct (annex_prepend_in_place true ex_hdr ex_classes ex_atou64 ex_foo ex_CC 1080
              (default (ex_free_item 80)
                 (heap (exec (item_annex true ex_hdr ex_classes ex_atou64 ex_foo ex_AB false)
                             (ex_state 0 100 [1080])) !! 1080))
              (ex_AB ++ ex_bar)
              (exec (item_annex true ex_hdr ex_classes ex_atou64 ex_foo ex_AB false)
                    (ex_state 0 100 [1080])))
    as (s'&i'&H1&_&H2&_&H3&_&_&H4&_&_&_&_&H5&_); [ex_auto..|].
  exists s', i'. ex_split; assumption.
Defined.

Lemma get_keeps_store_ok_witness :
  ∃ r s1,
    item_get ex_hdr ex_foo (ex_state 105 106 [1080]) = Some (r, s1) ∧
    (r = None → store_ok true ex_hdr ex_classes s1 ∧ assoc_find ex_foo (table s1) = None).
Proof.
  destruct (get_keeps_store_ok true ex_hdr ex_classes ex_foo (ex_state 105 106 [1080]))
    as (r&s1&H1&H2&_); [ex_check..|].
  exists r, s1. ex_split; assumption.
Defined.

Lemma set_keeps_store_ok_witness :
  ∃ r s',
    item_set true ex_hdr ex_classes ex_atou64 ex_foo ex_AB 0 (ex_state 0 100 [1080])
      = Some (r, s') ∧
    store_ok true ex_hdr ex_classes s'.
Proof.
  destruct (set_keeps_store_ok true ex_hdr ex_classes ex_atou64 ex_foo ex_AB 0
              (ex_state 0 100 [1080]))
    as (r&s'&H1&H2&_); [ex_check..|].
  exists r, s'. ex_split; assumption.
Defined.

Lemma set_keeps_item_curr_witness :
  ∃ s',
    item_set true ex_hdr ex_classes ex_atou64 ex_bar ex_AB 0 (ex_state 0 100 [1080])
      = Some (ITEM_OK, s') ∧
    item_curr (item_metrics s') = Z.of_nat (length (table s')) ∧
    length (table s') = 2%nat.
Proof.
  destruct (set_keeps_item_curr true ex_hdr ex_classes ex_atou64 ex_bar ex_AB 0 1080 []
              (ex_state 0 100 [1080]))
    as (s'&H1&H2&H3); [ex_check..|].
  exists s'. ex_split; assumption.
Defined.

Lemma set_leaves_other_keys_witness :
  ∃ s',
    item_set true ex_hdr ex_classes ex_atou64 ex_bar ex_AB 0 (ex_state 0 100 [1080])
      = Some (ITEM_OK, s') ∧
    stored_value ex_hdr ex_classes ex_foo s' = Some ex_bar.
Proof.
  destruct (set_leaves_other_keys true ex_hdr ex_classes ex_atou64 ex_bar ex_AB 0 ex_foo
              1080 [] (ex_state 0 100 [1080]))
    as (s'&H1&_&_&H2&_); [ex_check..|].
  exists s'. ex_split; assumption.
Defined.

Lemma set_tags_the_value_witness :
  ∃ a i,
    assoc_find ex_foo
      (table (exec (item_set true ex_hdr ex_classes ex_atou64 ex_foo [x31; x32] 0)
                   (ex_state 0 100 [1080]))) = Some a ∧
    heap (exec (item_set true ex_hdr ex_classes ex_atou64 ex_foo [x31; x32] 0)
               (ex_state 0 100 [1080])) !! a = Some i ∧
    vtype i = V_INT.
Proof.
  destruct (set_tags_the_value true ex_hdr ex_classes ex_atou64 ex_foo [x31; x32] 0
              (ex_state 0 100 [1080])
              (exec (item_set true ex_hdr ex_classes ex_atou64 ex_foo [x31; x32] 0)
                    (ex_state 0 100 [1080])))
    as (a&i&H1&H2&H3&_); [ex_check..|].
  exists a, i. ex_split; assumption.
Defined.

Lemma delete_keeps_store_ok_witness :
  ∃ r s' io',
    item_delete ex_hdr ex_foo (ex_state 0 100 [1080]) = Some (r, s') ∧
    store_ok true ex_hdr ex_classes s' ∧
    assoc_find ex_foo (table s') = None ∧
    r = ITEM_OK ∧
    heap s' !! 1032 = Some io' ∧ is_linked io' = false ∧ in_freeq io' = true ∧
    free_itemq s' !! 1 = Some [1032; 1080].
Proof.
  destruct (delete_keeps_store_ok true ex_hdr ex_classes ex_foo (ex_state 0 100 [1080]))
    as (r&s'&H1&H2&_&_&H3&_&_&_&H4); [ex_check..|].
  destruct (H4 1032 (ex_foo_item 0 0 true)) as (H5&io'&H6&H7&H8&_&H9); [ex_check..|].
  destruct H9 as [(_&H9&H10)|(H9&_)]; [|by rewrite H8 in H9].
  exists r, s', io'. ex_split; try assumption.
  rewrite H10. vm_compute. reflexivity.
Defined.

Lemma delete_leaves_other_keys_witness :
  stored_value ex_hdr ex_classes ex_foo
    (exec (item_delete ex_hdr ex_bar)
          (exec (item_set true ex_hdr ex_classes ex_atou64 ex_bar ex_AB 0)
                (ex_state 0 100 [1080]))) =
  stored_value ex_hdr ex_classes ex_foo
    (exec (item_set true ex_hdr ex_classes ex_atou64 ex_bar ex_AB 0)
          (ex_state 0 100 [1080])).
Proof.
  apply (delete_leaves_other_keys true ex_hdr ex_classes ex_bar ex_foo
           (exec (item_set true ex_hdr ex_classes ex_atou64 ex_bar ex_AB 0)
                 (ex_state 0 100 [1080])) ITEM_OK); ex_check.
Defined.

Lemma cas_keeps_store_ok_witness :
  ∃ r s',
    item_cas true ex_hdr ex_classes ex_atou64 ex_foo ex_AB 0 1 (ex_state 0 100 [1080])
      = Some (r, s') ∧
    (r = ITEM_OK →
       store_ok true ex_hdr ex_classes s' ∧
       stored_cas ex_foo (ex_state 0 100 [1080]) = Some 1 ∧
       stored_value ex_hdr ex_classes ex_foo s' = Some ex_AB ∧
       stored_cas ex_foo s' = Some (next_cas_val true (ex_state 0 100 [1080]))).
Proof.
  destruct (cas_keeps_store_ok true ex_hdr ex_classes ex_atou64 ex_foo ex_AB 0 1
              (ex_state 0 100 [1080]))
    as (r&s'&H1&H2&_); [ex_check..|].
  exists r, s'. ex_split; assumption.
Defined.

Lemma annex_keeps_store_ok_witness :
  ∃ r s',
    item_annex true ex_hdr ex_classes ex_atou64 ex_foo ex_AB false (ex_state 0 100 [1080])
      = Some (r, s') ∧
    store_ok true ex_hdr ex_classes s' ∧ r ≠ ITEM_EOTHER.
Proof.
  destruct (annex_keeps_store_ok true ex_hdr ex_classes ex_atou64 ex_foo ex_AB false
              (ex_state 0 100 [1080]))
    as (r&s'&H1&H2&H3&_); [ex_check|ex_check|..].
  - intros o io Hf Hio. vm_compute in Hf. injection Hf as <-.
    vm_compute in Hio. injection Hio as <-. vm_compute. discriminate.
  - exists r, s'. ex_split; assumption.
Defined.

Lemma update_keeps_store_ok_witness :
  ∃ r s',
    item_update true ex_hdr ex_classes ex_atou64 1032 ex_AB (ex_state 0 100 [1080])
      = Some (r, s') ∧
    store_ok true ex_hdr ex_classes s'.
Proof.
  destruct (update_keeps_store_ok true ex_hdr ex_classes ex_atou64 ex_foo 1032
              (ex_foo_item 0 0 true) ex_AB (ex_state 0 100 [1080]))
    as (r&s'&H1&H2&_); [ex_check..|].
  exists r, s'. ex_split; assumption.
Defined.

(** ** The end-to-end scenarios of the specification *)

(** Basic round trip: set, get, delete, get, delete. *)
Example scenario_round_trip :
  fst <$> item_set true ex_hdr ex_classes ex_atou64 ex_foo ex_bar 0 ex_empty
    = Some ITEM_OK ∧
  stored_value ex_hdr ex_classes ex_foo
    (exec (item_set true ex_hdr ex_classes ex_atou64 ex_foo ex_bar 0) ex_empty)
    = Some ex_bar ∧
  stored_cas ex_foo
    (exec (item_set true ex_hdr ex_classes ex_atou64 ex_foo ex_bar 0) ex_empty)
    = Some 1 ∧
  fst <$> (item_set true ex_hdr ex_classes ex_atou64 ex_foo ex_bar 0;;
           item_delete ex_hdr ex_foo) ex_empty
    = Some ITEM_OK ∧
  fst <$> (item_set true ex_hdr ex_classes ex_atou64 ex_foo ex_bar 0;;
           item_delete ex_hdr ex_foo;;
           item_get ex_hdr ex_foo) ex_empty
    = Some None ∧
  fst <$> (item_set true ex_hdr ex_classes ex_atou64 ex_foo ex_bar 0;;
           item_delete ex_hdr ex_foo;;
           item_get ex_hdr ex_foo;;
           item_delete ex_hdr ex_foo) ex_empty
    = Some ITEM_ENOTFOUND.
Proof. ex_split; vm_compute; reflexivity. Qed.

(** Lazy expiration: the item set with expiry 105 is returned while the
    clock reads 100 and is gone, with [item_curr] back to 0, at 106. *)
Example scenario_lazy_expiration :
  fst <$> (item_set true ex_hdr ex_classes ex_atou64 ex_foo ex_bar 105;;
           item_get ex_hdr ex_foo) ex_empty
    = Some (Some 1032) ∧
  fst <$> (item_set true ex_hdr ex_classes ex_atou64 ex_foo ex_bar 105;;
           modify (set_now 106);;
           item_get ex_hdr ex_foo) ex_empty
    = Some None ∧
  item_curr (item_metrics
    (exec (item_set true ex_hdr ex_classes ex_atou64 ex_foo ex_bar 105) ex_empty))
    = 1 ∧
  item_curr (item_metrics
    (exec (item_set true ex_hdr ex_classes ex_atou64 ex_foo ex_bar 105;;
           modify (set_now 106);;
           item_get ex_hdr ex_foo) ex_empty))
    = 0.
Proof. ex_split; vm_compute; reflexivity. Qed.

(** CAS success then stale: after two sets the token is 2; a cas with the
    token 1 is refused, a cas with the token 2 succeeds and the token
    becomes 3. *)
Example scenario_cas_success_then_stale :
  stored_cas ex_foo
    (exec (item_set true ex_hdr ex_classes ex_atou64 ex_foo ex_bar 0;;
           item_set true ex_hdr ex_classes ex_atou64 ex_foo ex_AB 0) ex_empty)
    = Some 2 ∧
  fst <$> (item_set true ex_hdr ex_classes ex_atou64 ex_foo ex_bar 0;;
           item_set true ex_hdr ex_classes ex_atou64 ex_foo ex_AB 0;;
           item_cas true ex_hdr ex_classes ex_atou64 ex_foo ex_CC 0 1) ex_empty
    = Some ITEM_EOTHER ∧
  fst <$> (item_set true ex_hdr ex_classes ex_atou64 ex_foo ex_bar 0;;
           item_set true ex_hdr ex_classes ex_atou64 ex_foo ex_AB 0;;
           item_cas true ex_hdr ex_classes ex_atou64 ex_foo ex_CC 0 1;;
           item_cas true ex_hdr ex_classes ex_atou64 ex_foo ex_CC 0 2) ex_empty
    = Some ITEM_OK ∧
  stored_cas ex_foo
    (exec (item_set true ex_hdr ex_classes ex_atou64 ex_foo ex_bar 0;;
           item_set true ex_hdr ex_classes ex_atou64 ex_foo ex_AB 0;;
           item_cas true ex_hdr ex_classes ex_atou64 ex_foo ex_CC 0 1;;
           item_cas true ex_hdr ex_classes ex_atou64 ex_foo ex_CC 0 2) ex_empty)
    = Some 3 ∧
  stored_value ex_hdr ex_classes ex_foo
    (exec (item_set true ex_hdr ex_classes ex_atou64 ex_foo ex_bar 0;;
           item_set true ex_hdr ex_classes ex_atou64 ex_foo ex_AB 0;;
           item_cas true ex_hdr ex_classes ex_atou64 ex_foo ex_CC 0 1;;
           item_cas true ex_hdr ex_classes ex_atou64 ex_foo ex_CC 0 2) ex_empty)
    = Some ex_CC.
Proof. ex_split; vm_compute; reflexivity. Qed.

(** Append in place, then prepend: the append stays in the chunk; the
    first prepend moves the value to a right-aligned item, the second one
    is done in place. *)
Example scenario_append_prepend :
  stored_value ex_hdr ex_classes ex_foo
    (exec (item_set true ex_hdr ex_classes ex_atou64 ex_foo ex_bar 0;;
           item_annex true ex_hdr ex_classes ex_atou64 ex_foo ex_AB true) ex_empty)
    = Some (ex_bar ++ ex_AB) ∧
  free_itemq
    (exec (item_set true ex_hdr ex_classes ex_atou64 ex_foo ex_bar 0;;
           item_annex true ex_hdr ex_classes ex_atou64 ex_foo ex_AB true) ex_empty)
    = free_itemq
        (exec (item_set true ex_hdr ex_classes ex_atou64 ex_foo ex_bar 0) ex_empty) ∧
  stored_value ex_hdr ex_classes ex_foo
    (exec (item_set true ex_hdr ex_classes ex_atou64 ex_foo ex_bar 0;;
           item_annex true ex_hdr ex_classes ex_atou64 ex_foo ex_AB false;;
           item_annex true ex_hdr ex_classes ex_atou64 ex_foo ex_CC false) ex_empty)
    = Some (ex_CC ++ ex_AB ++ ex_bar).
Proof. ex_split; vm_compute; reflexivity. Qed.
